(** * The N-body stepper of [simulation.cpp]

    A shallow embedding of the gravity toy in [src/src/simulation.cpp]:
    [CelestialBody] with [applyForce], [update] and [updateModelMatrix],
    the rebuild [initializeCelestialBodies] and the per-frame step
    [updatePhysics]; around them the instance buffers, the control panel
    and the physics call of the main loop, the keyboard and mouse
    handlers, and the sphere mesh of [SphereCreator::CreateSphere];
    followed by their properties.

    The program computes in C++ [float].  Its arithmetic is kept behind the
    interface [FloatOps], so that every definition below is read off the
    source once and can be run with IEEE-754 binary32 ([b32], built on the
    standard library's [SpecFloat]) or reasoned about in exact real
    arithmetic.  What comes from libraries that are not part of the
    repository (libm's [cos]/[sin], glm's quaternions and matrices, the
    standard library's Mersenne twister) is taken as a parameter. *)

From Stdlib Require Import ZArith Reals Lra Floats.SpecFloat.
From stdpp Require Import base option list.

(** ** Arithmetic of the source's [float] *)

(** The operators of C++ [float] the simulation uses.  [lit m e] is the
    decimal literal [m * 10^e] as written in the source ([1e-4f] is
    [lit 1 (-4)]). *)
Class FloatOps (F : Type) := {
  lit : Z → Z → F;
  fadd : F → F → F;
  fsub : F → F → F;
  fmul : F → F → F;
  fdiv : F → F → F;
  fneg : F → F;
  fsqrt : F → F;
  feqb : F → F → bool;
  fltb : F → F → bool
}.

(** [cos] and [sin] of the C library.  The source calls [cos], [sin] and
    [sqrt] unqualified on [float] arguments; they are read at [float]
    (for [sqrt] the [double] overload rounds to the same [float]). *)
Class Libm (F : Type) := {
  fcos : F → F;
  fsin : F → F
}.

Infix "⊕" := fadd (at level 50, left associativity).
Infix "⊖" := fsub (at level 50, left associativity).
Infix "⊗" := fmul (at level 40, left associativity).
Infix "⊘" := fdiv (at level 40, left associativity).
Infix "≐" := feqb (at level 70, no associativity).
Infix "≺" := fltb (at level 70, no associativity).

(** ** glm vectors *)

(** [glm::vec3]: three floats, all operators componentwise. *)
Record vec3 (F : Type) := Vec3 { vx : F; vy : F; vz : F }.
Arguments Vec3 {F} _ _ _.
Arguments vx {F} _.
Arguments vy {F} _.
Arguments vz {F} _.

Section Vec3.
Context {F : Type} `{FloatOps F}.

Definition f0 : F := lit 0 0.
Definition f1 : F := lit 1 0.

(** [glm::vec3(s)] *)
Definition splat (s : F) : vec3 F := Vec3 s s s.

(** [a + b] (and [a += b]) *)
Definition vadd (a b : vec3 F) : vec3 F :=
  Vec3 (vx a ⊕ vx b) (vy a ⊕ vy b) (vz a ⊕ vz b).

(** [a - b] *)
Definition vsub (a b : vec3 F) : vec3 F :=
  Vec3 (vx a ⊖ vx b) (vy a ⊖ vy b) (vz a ⊖ vz b).

(** [v * s], vector times scalar *)
Definition vmuls (v : vec3 F) (s : F) : vec3 F :=
  Vec3 (vx v ⊗ s) (vy v ⊗ s) (vz v ⊗ s).

(** [s * v], scalar times vector *)
Definition smulv (s : F) (v : vec3 F) : vec3 F :=
  Vec3 (s ⊗ vx v) (s ⊗ vy v) (s ⊗ vz v).

(** [v / s] *)
Definition vdivs (v : vec3 F) (s : F) : vec3 F :=
  Vec3 (vx v ⊘ s) (vy v ⊘ s) (vz v ⊘ s).

(** [glm::dot(a, b)]: the componentwise product, summed left to right *)
Definition dot (a b : vec3 F) : F :=
  vx a ⊗ vx b ⊕ vy a ⊗ vy b ⊕ vz a ⊗ vz b.
End Vec3.

(** What the simulation uses of glm beyond [vec3]: quaternions, 4x4 and 3x3
    matrices and the functions on them.  glm is an external library; its
    types [quat], [mat4] and [mat3] are abstract here and its functions
    uninterpreted. *)
Class GlmOps (F quat mat4 mat3 : Type) := {
  quat_wxyz : F → F → F → F → quat;
  angleAxis : F → vec3 F → quat;
  normalize : vec3 F → vec3 F;
  radians : F → F;
  pi : F;
  mat4_diag : F → mat4;
  translate : mat4 → vec3 F → mat4;
  scale : mat4 → vec3 F → mat4;
  mat4_cast : quat → mat4;
  mat4_mul : mat4 → mat4 → mat4;
  mat3_of_mat4 : mat4 → mat3;
  inverse : mat3 → mat3;
  transpose : mat3 → mat3
}.

(** [std::mt19937] and [std::uniform_real_distribution<float>]: an engine
    state, its construction from a seed, and a draw from [[a, b)] that
    returns the sample with the advanced engine. *)
Class RngOps (F : Type) := {
  mt19937 : Type;
  mt19937_seed : N → mt19937;
  uniform_real : F → F → mt19937 → F * mt19937
}.

(** ** Bodies *)

(** [Model*] and [Mesh*] fields: null, or the address of a loaded model;
    the only mesh ever pointed to is the global [sphereMesh]. *)
Variant ModelRef := NoModel | ModelAt (addr : N).
Variant MeshRef := NoMesh | SphereMesh.

(** Calls into OpenGL made by the stepper, in the order they are issued.
    [glBufferSubData] carries the bytes it is asked to upload: [size] bytes
    read from the start of the instance array. *)
Variant gl_call (M4 M3 : Type) :=
  | glBindBuffer (buffer : N)
  | glBufferSubData_mat4 (offset size : N) (data : list (option M4))
  | glBufferSubData_mat3 (offset size : N) (data : list (option M3)).
Arguments glBindBuffer {M4 M3} _.
Arguments glBufferSubData_mat4 {M4 M3} _ _ _.
Arguments glBufferSubData_mat3 {M4 M3} _ _ _.

Section Simulation.
Context {F quat mat4 mat3 : Type}.
Context `{FloatOps F} `{Libm F} `{GlmOps F quat mat4 mat3} `{RngOps F}.

(** [struct CelestialBody] *)
Record CelestialBody := Body {
  position : vec3 F;
  velocity : vec3 F;
  acceleration : vec3 F;
  mass : F;
  radiusScale : F;
  modelPtr : ModelRef;
  meshPtr : MeshRef;
  orientation : quat;
  modelMatrix : mat4;
  isStatic : bool;
  isAsteroid : bool;
  type : Z
}.

Definition set_position (p : vec3 F) (b : CelestialBody) : CelestialBody :=
  Body p (velocity b) (acceleration b) (mass b) (radiusScale b)
       (modelPtr b) (meshPtr b) (orientation b) (modelMatrix b)
       (isStatic b) (isAsteroid b) (type b).

Definition set_velocity (v : vec3 F) (b : CelestialBody) : CelestialBody :=
  Body (position b) v (acceleration b) (mass b) (radiusScale b)
       (modelPtr b) (meshPtr b) (orientation b) (modelMatrix b)
       (isStatic b) (isAsteroid b) (type b).

Definition set_acceleration (a : vec3 F) (b : CelestialBody) : CelestialBody :=
  Body (position b) (velocity b) a (mass b) (radiusScale b)
       (modelPtr b) (meshPtr b) (orientation b) (modelMatrix b)
       (isStatic b) (isAsteroid b) (type b).

Definition set_modelMatrix (m : mat4) (b : CelestialBody) : CelestialBody :=
  Body (position b) (velocity b) (acceleration b) (mass b) (radiusScale b)
       (modelPtr b) (meshPtr b) (orientation b) m
       (isStatic b) (isAsteroid b) (type b).

(** The matrix [updateModelMatrix] computes: [trans * rot * scale_mat]. *)
Definition model_of (pos : vec3 F) (orient : quat) (rScale : F) : mat4 :=
  let trans := translate (mat4_diag f1) pos in
  let rot := mat4_cast orient in
  let scale_mat := scale (mat4_diag f1) (splat rScale) in
  mat4_mul (mat4_mul trans rot) scale_mat.

Definition updateModelMatrix (b : CelestialBody) : CelestialBody :=
  set_modelMatrix (model_of (position b) (orientation b) (radiusScale b)) b.

(** The constructor: acceleration starts at [vec3(0.0f)], the matrix is
    computed from the other fields. *)
Definition CelestialBody_new (pos vel : vec3 F) (m rScale : F)
    (mod_ : ModelRef) (mesh : MeshRef) (orient : quat)
    (stat asteroid : bool) (t : Z) : CelestialBody :=
  Body pos vel (splat f0) m rScale mod_ mesh orient
       (model_of pos orient rScale) stat asteroid t.

Definition applyForce (force : vec3 F) (b : CelestialBody) : CelestialBody :=
  if isStatic b || (mass b ≐ f0) then b
  else set_acceleration (vadd (acceleration b) (vdivs force (mass b))) b.

Definition update (dt : F) (b : CelestialBody) : CelestialBody :=
  if isStatic b then
    updateModelMatrix (set_acceleration (splat f0) b)
  else
    let b := set_velocity (vadd (velocity b) (vmuls (acceleration b) dt)) b in
    let b := set_position (vadd (position b) (vmuls (velocity b) dt)) b in
    updateModelMatrix (set_acceleration (splat f0) b).

(** ** Globals *)

(** The globals the user interface owns; the two functions below only
    read them.  [asteroidAmount] and the counter [asteroidInstanceIdx] are
    [unsigned int] in the source: the counter is only incremented below
    [asteroidAmount], so it never wraps, and both are natural numbers
    here.  Buffer object names are [N], 0 being no buffer. *)
Record Globals := {
  simulationSpeed : F;
  G_scaled : F;
  pauseSimulation : bool;
  asteroidAmount : nat;
  asteroidInstanceVBO : N;
  asteroidNormalInstanceVBO : N;
  planetModelPtr : ModelRef;
  rockModelPtr : ModelRef;
  sunMass : F;
  sunRadiusScale : F;
  planetMass : F;
  planetRadiusScale : F;
  planetOrbitRadius : F;
  planetInitialAngle : F;
  avgAsteroidMass : F;
  minAsteroidScale : F;
  maxAsteroidScale : F;
  asteroidBeltInnerRadius : F;
  asteroidBeltOuterRadius : F;
  asteroidBeltHeight : F
}.

(** The globals the simulation writes: the body vector, the two instance
    arrays ([nullptr] is the empty array; a slot never written since
    [new[]] is [None]) and the OpenGL calls issued so far. *)
Record Sim := {
  celestialBodies : list CelestialBody;
  asteroidModelMatrices : list (option mat4);
  asteroidNormalMatrices : list (option mat3);
  gl_calls : list (gl_call mat4 mat3)
}.

(** ** [initializeCelestialBodies] *)

(** Circular-orbit speed around the sun at radius [r], zero unless both
    the sun's mass and [r] are positive. *)
Definition orbital_speed (g : Globals) (r : F) : F :=
  if (f0 ≺ sunMass g) && (f0 ≺ r)
  then fsqrt ((G_scaled g ⊗ sunMass g) ⊘ r) else f0.

Definition make_sun (g : Globals) : CelestialBody :=
  let sunPos := Vec3 f0 f0 f0 in
  let sunVel := Vec3 f0 f0 f0 in
  CelestialBody_new sunPos sunVel (sunMass g) (sunRadiusScale g)
    NoModel SphereMesh (quat_wxyz f1 f0 f0 f0) false false 0.

Definition make_planet (g : Globals) : CelestialBody :=
  let angleRad := radians (planetInitialAngle g) in
  let planetPos := Vec3 (planetOrbitRadius g ⊗ fcos angleRad) f0
                        (planetOrbitRadius g ⊗ fsin angleRad) in
  let orbitalVelMag := orbital_speed g (planetOrbitRadius g) in
  let planetVel := Vec3 (fneg orbitalVelMag ⊗ fsin angleRad) f0
                        (orbitalVelMag ⊗ fcos angleRad) in
  CelestialBody_new planetPos planetVel (planetMass g) (planetRadiusScale g)
    (planetModelPtr g) NoMesh
    (angleAxis (radians f0) (Vec3 f0 f1 f0)) false false 1.

(** One iteration of the asteroid loop: the body and the engine after
    its twelve draws.  The three draws inside [glm::vec3(...)] are taken
    left to right. *)
Definition make_asteroid (g : Globals) (rng : mt19937) : CelestialBody * mt19937 :=
  let '(r, rng) := uniform_real (asteroidBeltInnerRadius g) (asteroidBeltOuterRadius g) rng in
  let '(angle, rng) := uniform_real f0 (lit 2 0 ⊗ pi) rng in
  let '(y, rng) := uniform_real (fneg (asteroidBeltHeight g) ⊘ lit 2 0)
                                (asteroidBeltHeight g ⊘ lit 2 0) rng in
  let pos := Vec3 (r ⊗ fcos angle) y (r ⊗ fsin angle) in
  let velMag := orbital_speed g r in
  let vel := Vec3 (fneg velMag ⊗ fsin angle) f0 (velMag ⊗ fcos angle) in
  let lo := fneg velMag ⊗ lit 1 (-1) in
  let hi := velMag ⊗ lit 1 (-1) in
  let '(px, rng) := uniform_real lo hi rng in
  let '(py, rng) := uniform_real lo hi rng in
  let '(pz, rng) := uniform_real lo hi rng in
  let vel := Vec3 (vx vel ⊕ px) (vy vel ⊕ py ⊗ lit 1 (-1)) (vz vel ⊕ pz) in
  let '(mf, rng) := uniform_real (lit 5 (-1)) (lit 15 (-1)) rng in
  let currentAsteroidMass := avgAsteroidMass g ⊗ mf in
  let '(currentAsteroidScale, rng) :=
    uniform_real (minAsteroidScale g) (maxAsteroidScale g) rng in
  let '(ax, rng) := uniform_real f0 (lit 360 0) rng in
  let '(ay, rng) := uniform_real f0 (lit 360 0) rng in
  let '(az, rng) := uniform_real f0 (lit 360 0) rng in
  let randomAxis :=
    normalize (Vec3 (ax ⊕ lit 1 (-1)) (ay ⊕ lit 1 (-1)) (az ⊕ lit 1 (-1))) in
  let '(rot, rng) := uniform_real f0 (lit 360 0) rng in
  let orientation := angleAxis (radians rot) randomAxis in
  (CelestialBody_new pos vel currentAsteroidMass currentAsteroidScale
     (rockModelPtr g) NoMesh orientation false true 2, rng).

(** The loop [for (i = 0; i < asteroidAmount; i++)], [n] iterations left. *)
Fixpoint make_asteroids (g : Globals) (n : nat) (rng : mt19937)
    (bodies : list CelestialBody) : list CelestialBody :=
  match n with
  | O => bodies
  | S n' =>
      let '(b, rng') := make_asteroid g rng in
      make_asteroids g n' rng' (bodies ++ [b])
  end.

(** [seed] is [static_cast<unsigned int>(glfwGetTime())], the whole
    seconds since the window library was started. *)
Definition initializeCelestialBodies (g : Globals) (seed : N) (s : Sim) : Sim :=
  let bodies := [] in
  let bodies := bodies ++ [make_sun g] in
  let bodies := bodies ++ [make_planet g] in
  let models := if decide (0 < asteroidAmount g)
                then replicate (asteroidAmount g) None else [] in
  let normals := if decide (0 < asteroidAmount g)
                 then replicate (asteroidAmount g) None else [] in
  let rng := mt19937_seed seed in
  {| celestialBodies := make_asteroids g (asteroidAmount g) rng bodies;
     asteroidModelMatrices := models;
     asteroidNormalMatrices := normals;
     gl_calls := gl_calls s |}.

(** ** [updatePhysics] *)

Definition epsilon_sq : F := lit 1 (-4).

(** [force_vec] of the inner loop body, for the pair ([bi], [bj]). *)
Definition force_vec (G : F) (bi bj : CelestialBody) : vec3 F :=
  let r_vec := vsub (position bj) (position bi) in
  let r_mag_sq := dot r_vec r_vec in
  let r_mag_sq := if r_mag_sq ≺ epsilon_sq then epsilon_sq else r_mag_sq in
  let r_mag := fsqrt r_mag_sq in
  let r_hat := if f0 ≺ r_mag then vdivs r_vec r_mag else splat f0 in
  let force_mag := (G ⊗ mass bi ⊗ mass bj) ⊘ r_mag_sq in
  smulv force_mag r_hat.

(** The body of the inner loop at ([i], [j]), on the body vector. *)
Definition interact (G : F) (i j : nat) (bodies : list CelestialBody)
    : list CelestialBody :=
  match bodies !! i, bodies !! j with
  | Some bi, Some bj =>
      if decide (i = j) then bodies
      else if isAsteroid bi && isAsteroid bj then bodies
      else <[i := applyForce (force_vec G bi bj) bi]> bodies
  | _, _ => bodies
  end.

(** The inner loop over [j] for a fixed [i]. *)
Definition accumulate_on (G : F) (i : nat) (bodies : list CelestialBody)
    : list CelestialBody :=
  foldl (λ bs j, interact G i j bs) bodies (seq 0 (length bodies)).

(** The force-accumulation loop. *)
Definition accumulate_forces (G : F) (bodies : list CelestialBody)
    : list CelestialBody :=
  foldl (λ bs i,
           match bs !! i with
           | Some bi => if isStatic bi then bs else accumulate_on G i bs
           | None => bs
           end)
        bodies (seq 0 (length bodies)).

(** [buf[k] = x]; writing outside the array has no defined result. *)
Definition store {A : Type} (buf : list (option A)) (k : nat) (x : A)
    : option (list (option A)) :=
  if decide (k < length buf) then Some (<[k := Some x]> buf) else None.

(** What the second loop carries besides the bodies. *)
Record Publish := {
  asteroidInstanceIdx : nat;
  models : list (option mat4);
  normals : list (option mat3)
}.

(** [glm::transpose(glm::inverse(glm::mat3(m)))] *)
Definition normal_matrix (m : mat4) : mat3 :=
  transpose (inverse (mat3_of_mat4 m)).

(** The instance-array writes of one iteration of the second loop, for
    the body [b] just updated. *)
Definition publish_body (amount : nat) (b : CelestialBody) (p : Publish)
    : option Publish :=
  if isAsteroid b && bool_decide (asteroidInstanceIdx p < amount) then
    ms ← store (models p) (asteroidInstanceIdx p) (modelMatrix b);
    ns ← store (normals p) (asteroidInstanceIdx p) (normal_matrix (modelMatrix b));
    Some {| asteroidInstanceIdx := S (asteroidInstanceIdx p);
            models := ms; normals := ns |}
  else Some p.

(** The second loop: each iteration updates body [i] only, then
    publishes it, so it is a pass over the vector in order. *)
Fixpoint integrate_and_publish (dt : F) (amount : nat)
    (bodies : list CelestialBody) (p : Publish)
    : option (list CelestialBody * Publish) :=
  match bodies with
  | [] => Some ([], p)
  | b :: rest =>
      let b' := update dt b in
      p' ← publish_body amount b' p;
      '(rest', p'') ← integrate_and_publish dt amount rest p';
      Some (b' :: rest', p'')
  end.

(** The upload after the loops; [sizeof(glm::mat4)] is 64 bytes and
    [sizeof(glm::mat3)] is 36, and the byte counts are computed in
    [size_t]. *)
Definition upload (g : Globals) (p : Publish) : list (gl_call mat4 mat3) :=
  if bool_decide (0 < asteroidAmount g)
     && bool_decide (0 < asteroidInstanceIdx p)
     && negb (asteroidInstanceVBO g =? 0)%N
     && negb (asteroidNormalInstanceVBO g =? 0)%N
  then
    [ glBindBuffer (asteroidInstanceVBO g);
      glBufferSubData_mat4 0 (N.of_nat (asteroidInstanceIdx p) * 64)
        (take (asteroidInstanceIdx p) (models p));
      glBindBuffer (asteroidNormalInstanceVBO g);
      glBufferSubData_mat3 0 (N.of_nat (asteroidInstanceIdx p) * 36)
        (take (asteroidInstanceIdx p) (normals p));
      glBindBuffer 0%N ]
  else [].

(** [None] when an instance-array write falls outside its array. *)
Definition updatePhysics (g : Globals) (dt : F) (s : Sim) : option Sim :=
  if pauseSimulation g then Some s
  else
    let dt := dt ⊗ simulationSpeed g in
    if dt ≐ f0 then Some s
    else
      let bodies := accumulate_forces (G_scaled g) (celestialBodies s) in
      '(bodies, p) ← integrate_and_publish dt (asteroidAmount g) bodies
                        {| asteroidInstanceIdx := 0;
                           models := asteroidModelMatrices s;
                           normals := asteroidNormalMatrices s |};
      Some {| celestialBodies := bodies;
              asteroidModelMatrices := models p;
              asteroidNormalMatrices := normals p;
              gl_calls := gl_calls s ++ upload g p |}.

(** A run of frames, one [dt] per frame. *)
Fixpoint run (g : Globals) (dts : list F) (s : Sim) : option Sim :=
  match dts with
  | [] => Some s
  | dt :: dts' => s' ← updatePhysics g dt s; run g dts' s'
  end.
(** ** The accumulated acceleration, as a function of the body vector *)

(** The acceleration body [bi] holds after [applyForce] of the pull of
    [bj], when it held [a] before. *)
Definition pull (G : F) (bi bj : CelestialBody) (a : vec3 F) : vec3 F :=
  acceleration (applyForce (force_vec G bi bj) (set_acceleration a bi)).

(** One inner iteration seen from body [i]: index [j] is skipped when it
    is [i] itself or when both bodies are asteroids. *)
Definition acc_step (G : F) (bodies : list CelestialBody) (i : nat)
    (bi : CelestialBody) (a : vec3 F) (j : nat) : vec3 F :=
  match bodies !! j with
  | Some bj =>
      if decide (i = j) then a
      else if isAsteroid bi && isAsteroid bj then a
      else pull G bi bj a
  | None => a
  end.

(** The acceleration of body [i] when the first loop is over. *)
Definition received (G : F) (bodies : list CelestialBody) (i : nat)
    (bi : CelestialBody) : vec3 F :=
  if isStatic bi then acceleration bi
  else foldl (acc_step G bodies i bi) (acceleration bi) (seq 0 (length bodies)).

(** The bodies of category Swarm, in store order. *)
Definition swarm (bodies : list CelestialBody) : list CelestialBody :=
  filter (λ b, isAsteroid b = true) bodies.

(** The instance arrays are the ones the last rebuild allocated. *)
Definition allocated (g : Globals) (s : Sim) : Prop :=
  length (asteroidModelMatrices s) = asteroidAmount g
  ∧ length (asteroidNormalMatrices s) = asteroidAmount g.

(** The publish state after the second loop has passed over [bodies]
    (already updated), in closed form: the first Swarm bodies, as many
    as fit below [amount], fill the slots from the current index on. *)
Definition published (amount : nat) (bodies : list CelestialBody) (p : Publish)
    : Publish :=
  let w := take (amount - asteroidInstanceIdx p) (swarm bodies) in
  {| asteroidInstanceIdx := asteroidInstanceIdx p + length w;
     models := take (asteroidInstanceIdx p) (models p)
               ++ ((λ b, Some (modelMatrix b)) <$> w)
               ++ drop (asteroidInstanceIdx p + length w) (models p);
     normals := take (asteroidInstanceIdx p) (normals p)
                ++ ((λ b, Some (normal_matrix (modelMatrix b))) <$> w)
                ++ drop (asteroidInstanceIdx p + length w) (normals p) |}.

(** A frame that is not skipped: not paused, and a nonzero scaled step. *)
Definition effective (g : Globals) (dt : F) : bool :=
  negb (pauseSimulation g) && negb (dt ⊗ simulationSpeed g ≐ f0).

(** The physical state the procedural generation gives a body. *)
Definition physical (b : CelestialBody) : vec3 F * vec3 F * F * F * quat :=
  (position b, velocity b, mass b, radiusScale b, orientation b).

(** The globals the asteroid loop reads. *)
Definition swarm_config (g : Globals) : nat * (F * F) * (F * F * F) * (F * F * F) :=
  (asteroidAmount g, (sunMass g, G_scaled g),
   (asteroidBeltInnerRadius g, asteroidBeltOuterRadius g, asteroidBeltHeight g),
   (avgAsteroidMass g, minAsteroidScale g, maxAsteroidScale g)).

(** *** The force rule in the specification's words *)

(** [max(x, 1e-4)], the softening floor. *)
Definition soften (x : F) : F := if x ≺ epsilon_sq then epsilon_sq else x.

(** The unit vector along [r]: [r] over its own length. *)
Definition unit_vector (r : vec3 F) : vec3 F := vdivs r (fsqrt (dot r r)).

(** [G * mass[i] * mass[j] / max(|r|^2, 1e-4)] times the unit vector from
    [i] toward [j], divided by [mass[i]]. *)
Definition spec_contribution (G : F) (bi bj : CelestialBody) : vec3 F :=
  let r := vsub (position bj) (position bi) in
  vdivs (smulv ((G ⊗ mass bi ⊗ mass bj) ⊘ soften (dot r r)) (unit_vector r))
        (mass bi).

(** What the code adds instead: the same magnitude, along [r] over the
    softened length. *)
Definition softened_contribution (G : F) (bi bj : CelestialBody) : vec3 F :=
  let r := vsub (position bj) (position bi) in
  vdivs (smulv ((G ⊗ mass bi ⊗ mass bj) ⊘ soften (dot r r))
               (vdivs r (fsqrt (soften (dot r r)))))
        (mass bi).
End Simulation.

Arguments CelestialBody : clear implicits.
Arguments Globals : clear implicits.
Arguments Sim : clear implicits.
Arguments Publish : clear implicits.

(** ** Interpretations of the arithmetic *)

(** *** IEEE-754 binary32, round to nearest even *)
Module B32.
Definition prec : Z := 24.
Definition emax : Z := 128.
Definition b32 : Type := spec_float.

Definition of_Z (z : Z) : b32 :=
  match z with
  | Z0 => S754_zero false
  | Zpos p => S754_finite false p 0
  | Zneg p => S754_finite true p 0
  end.

(** A decimal literal, correctly rounded: an integer is normalised, a
    fraction is the rounded quotient of two integers. *)
Definition decimal (m e : Z) : b32 :=
  if (0 <=? e)%Z then binary_normalize prec emax (m * 10 ^ e) 0 false
  else SFdiv prec emax (of_Z m) (of_Z (10 ^ (- e))).

#[export] Instance ops : FloatOps b32 := {|
  lit := decimal;
  fadd := SFadd prec emax;
  fsub := SFsub prec emax;
  fmul := SFmul prec emax;
  fdiv := SFdiv prec emax;
  fneg := SFopp;
  fsqrt := SFsqrt prec emax;
  feqb := SFeqb;
  fltb := SFltb
|}.
End B32.

(** *** Exact real arithmetic *)
Module Exact.
#[export] Instance ops : FloatOps R := {|
  lit m e := (IZR m * powerRZ 10 e)%R;
  fadd := Rplus;
  fsub := Rminus;
  fmul := Rmult;
  fdiv := Rdiv;
  fneg := Ropp;
  fsqrt := sqrt;
  feqb x y := if Req_dec_T x y then true else false;
  fltb x y := if Rlt_dec x y then true else false
|}.

#[export] Instance libm : Libm R := {| fcos := cos; fsin := sin |}.
End Exact.

(** ** A concrete environment, for evaluating the model *)

(** glm left uninterpreted: quaternions and matrices are the terms built
    from its functions. *)
Inductive quat_term (F : Type) :=
  | QWxyz (w x y z : F)
  | QAngleAxis (angle : F) (axis : vec3 F).
Inductive mat4_term (F : Type) :=
  | M4Diag (d : F)
  | M4Translate (m : mat4_term F) (v : vec3 F)
  | M4Scale (m : mat4_term F) (v : vec3 F)
  | M4Cast (q : quat_term F)
  | M4Mul (a b : mat4_term F).
Inductive mat3_term (F : Type) :=
  | M3Of (m : mat4_term F)
  | M3Inverse (m : mat3_term F)
  | M3Transpose (m : mat3_term F).
Arguments QWxyz {F} _ _ _ _.
Arguments QAngleAxis {F} _ _.
Arguments M4Diag {F} _.
Arguments M4Translate {F} _ _.
Arguments M4Scale {F} _ _.
Arguments M4Cast {F} _.
Arguments M4Mul {F} _ _.
Arguments M3Of {F} _.
Arguments M3Inverse {F} _.
Arguments M3Transpose {F} _.

Module Scenario.
Import B32.

(** Stand-ins for [cosf] and [sinf]: the argument is brought into
    [(-pi, pi]] and a Maclaurin polynomial is evaluated by Horner's rule;
    both are exact at 0. *)
Definition horner (coeffs : list b32) (y : b32) : b32 :=
  foldr (λ c acc, c ⊕ y ⊗ acc) f0 coeffs.
Definition reduce (x : b32) : b32 :=
  if lit 314159265358979323846 (-20) ≺ x
  then x ⊖ lit 628318530717958647692 (-20) else x.
Definition cos_series (x : b32) : b32 :=
  let y := reduce x in
  horner [f1; lit (-1) 0 ⊘ lit 2 0; f1 ⊘ lit 24 0; lit (-1) 0 ⊘ lit 720 0;
          f1 ⊘ lit 40320 0; lit (-1) 0 ⊘ lit 3628800 0;
          f1 ⊘ lit 479001600 0; lit (-1) 0 ⊘ lit 87178291200 0] (y ⊗ y).
Definition sin_series (x : b32) : b32 :=
  let y := reduce x in
  y ⊗ horner [f1; lit (-1) 0 ⊘ lit 6 0; f1 ⊘ lit 120 0; lit (-1) 0 ⊘ lit 5040 0;
               f1 ⊘ lit 362880 0; lit (-1) 0 ⊘ lit 39916800 0;
               f1 ⊘ lit 6227020800 0; lit (-1) 0 ⊘ lit 1307674368000 0] (y ⊗ y).

#[export] Instance libm : Libm b32 := {| fcos := cos_series; fsin := sin_series |}.

#[export] Instance glm
  : GlmOps b32 (quat_term b32) (mat4_term b32) (mat3_term b32) := {|
  quat_wxyz := QWxyz;
  angleAxis := QAngleAxis;
  normalize v := vmuls v (f1 ⊘ fsqrt (dot v v));
  radians d := d ⊗ lit 17453292519943295769 (-21);
  pi := lit 314159265358979323846 (-20);
  mat4_diag := M4Diag;
  translate := M4Translate;
  scale := M4Scale;
  mat4_cast := M4Cast;
  mat4_mul := M4Mul;
  mat3_of_mat4 := M3Of;
  inverse := M3Inverse;
  transpose := M3Transpose
|}.

(** A stand-in for the Mersenne twister: the minimal-standard linear
    congruential engine, a draw scaling its low 24 bits into [[a, b)]. *)
Definition lcg_next (s : N) : N := (s * 48271 mod 2147483647)%N.
Definition lcg_draw (a b : b32) (s : N) : b32 * N :=
  let s' := lcg_next s in
  let u := binary_normalize prec emax (Z.of_N (s' mod 16777216)) (-24) false in
  (a ⊕ (b ⊖ a) ⊗ u, s').

#[export] Instance rng : RngOps b32 := {|
  mt19937 := N;
  mt19937_seed s := (s mod 2147483646 + 1)%N;
  uniform_real := lcg_draw
|}.

Abbreviation Rock := (CelestialBody b32 (quat_term b32) (mat4_term b32)).
Abbreviation Store :=
  (Sim b32 (quat_term b32) (mat4_term b32) (mat3_term b32)).

(** The globals as the source initialises them, with [n] asteroids and
    the two instance buffers generated. *)
Definition defaults (n : nat) : Globals b32 := {|
  simulationSpeed := lit 1 0;
  G_scaled := lit 1000 0;
  pauseSimulation := false;
  asteroidAmount := n;
  asteroidInstanceVBO := 1;
  asteroidNormalInstanceVBO := 2;
  planetModelPtr := ModelAt 1;
  rockModelPtr := ModelAt 2;
  sunMass := lit 20000 0;
  sunRadiusScale := lit 15 0;
  planetMass := lit 200 0;
  planetRadiusScale := lit 4 0;
  planetOrbitRadius := lit 70 0;
  planetInitialAngle := lit 0 0;
  avgAsteroidMass := lit 1 (-1);
  minAsteroidScale := lit 5 (-2);
  maxAsteroidScale := lit 25 (-2);
  asteroidBeltInnerRadius := lit 100 0;
  asteroidBeltOuterRadius := lit 180 0;
  asteroidBeltHeight := lit 10 0
|}.

Definition paused (n : nat) : Globals b32 := {|
  simulationSpeed := lit 1 0;
  G_scaled := lit 1000 0;
  pauseSimulation := true;
  asteroidAmount := n;
  asteroidInstanceVBO := 1;
  asteroidNormalInstanceVBO := 2;
  planetModelPtr := ModelAt 1;
  rockModelPtr := ModelAt 2;
  sunMass := lit 20000 0;
  sunRadiusScale := lit 15 0;
  planetMass := lit 200 0;
  planetRadiusScale := lit 4 0;
  planetOrbitRadius := lit 70 0;
  planetInitialAngle := lit 0 0;
  avgAsteroidMass := lit 1 (-1);
  minAsteroidScale := lit 5 (-2);
  maxAsteroidScale := lit 25 (-2);
  asteroidBeltInnerRadius := lit 100 0;
  asteroidBeltOuterRadius := lit 180 0;
  asteroidBeltHeight := lit 10 0
|}.

(** The state before the first rebuild. *)
Definition blank : Store := {|
  celestialBodies := [];
  asteroidModelMatrices := [];
  asteroidNormalMatrices := [];
  gl_calls := []
|}.

(** Sun and planet alone, and with two asteroids. *)
Definition two_bodies : Store := initializeCelestialBodies (defaults 0) 0 blank.
Definition small_belt : Store := initializeCelestialBodies (defaults 2) 7 blank.

(** A frame of one hundredth of a second. *)
Definition frame : b32 := lit 1 (-2).

(** A body built by hand with the [isStatic] flag set, next to a planet. *)
Definition anchor : Rock :=
  CelestialBody_new (splat f0) (splat f0) (lit 20000 0) (lit 15 0)
    NoModel SphereMesh (quat_wxyz f1 f0 f0 f0) true false 0.
Definition anchored : Store := {|
  celestialBodies := [anchor; make_planet (defaults 0)];
  asteroidModelMatrices := [];
  asteroidNormalMatrices := [];
  gl_calls := []
|}.

(** Two unit masses a thousandth of a unit apart, inside the softening
    radius of one hundredth. *)
Definition near_a : Rock :=
  CelestialBody_new (splat f0) (splat f0) (lit 1 0) (lit 1 0)
    NoModel NoMesh (quat_wxyz f1 f0 f0 f0) false false 1.
Definition near_b : Rock :=
  CelestialBody_new (Vec3 (lit 1 (-3)) f0 f0) (splat f0) (lit 1 0) (lit 1 0)
    NoModel NoMesh (quat_wxyz f1 f0 f0 f0) false false 1.

(** A body of mass [-1], and one of mass [0]. *)
Definition negative_mass : Rock :=
  CelestialBody_new (splat f0) (splat f0) (lit (-1) 0) (lit 1 0)
    NoModel NoMesh (quat_wxyz f1 f0 f0 f0) false false 1.
Definition massless : Rock :=
  CelestialBody_new (Vec3 (lit 3 0) f0 f0) (splat f0) (lit 0 0) (lit 1 0)
    NoModel NoMesh (quat_wxyz f1 f0 f0 f0) false false 1.

(** The first asteroid of [small_belt]. *)
Definition first_rock : Rock :=
  (make_asteroid (defaults 2) (mt19937_seed 7)).1.

(** A store of three asteroids in front of arrays allocated for two. *)
Definition crowded : Store := {|
  celestialBodies := celestialBodies (initializeCelestialBodies (defaults 3) 7 blank);
  asteroidModelMatrices := [None; None];
  asteroidNormalMatrices := [None; None];
  gl_calls := []
|}.
End Scenario.

(** ** The instance buffers and the controls of the main loop *)

(** The OpenGL calls of [setupAsteroidInstanceBuffers], as issued.
    [GlGenBuffers] carries the name the driver returned, [GlBufferData] the
    size in bytes (its data pointer is [nullptr] and its usage
    [GL_DYNAMIC_DRAW]); attribute pointers are [GL_FLOAT], not normalised,
    and carry index, component count, stride and offset in bytes.  All
    buffer calls are on the target [GL_ARRAY_BUFFER]. *)
Variant setup_call :=
  | GlDeleteBuffers (name : N)
  | GlGenBuffers (name : N)
  | GlBindBuffer (name : N)
  | GlBufferData (size : N)
  | GlBindVertexArray (vao : N)
  | GlEnableVertexAttribArray (index : N)
  | GlVertexAttribPointer (index components stride offset : N)
  | GlVertexAttribDivisor (index divisor : N).

(** The attribute set-up of one mesh of the rock model: the four columns
    of the instance matrix at locations 3 to 6, the three columns of the
    normal matrix at locations 7 to 9. *)
Definition instance_attributes (vao vbo nvbo : N) : list setup_call :=
  [ GlBindVertexArray vao;
    GlBindBuffer vbo;
    GlEnableVertexAttribArray 3; GlVertexAttribPointer 3 4 64 0;
    GlEnableVertexAttribArray 4; GlVertexAttribPointer 4 4 64 16;
    GlEnableVertexAttribArray 5; GlVertexAttribPointer 5 4 64 32;
    GlEnableVertexAttribArray 6; GlVertexAttribPointer 6 4 64 48;
    GlVertexAttribDivisor 3 1; GlVertexAttribDivisor 4 1;
    GlVertexAttribDivisor 5 1; GlVertexAttribDivisor 6 1;
    GlBindBuffer nvbo;
    GlEnableVertexAttribArray 7; GlVertexAttribPointer 7 3 36 0;
    GlEnableVertexAttribArray 8; GlVertexAttribPointer 8 3 36 12;
    GlEnableVertexAttribArray 9; GlVertexAttribPointer 9 3 36 24;
    GlVertexAttribDivisor 7 1; GlVertexAttribDivisor 8 1;
    GlVertexAttribDivisor 9 1;
    GlBindVertexArray 0 ]%N.

(** What the widgets of the control panel did in one frame.  A slider is
    [Some v] when it wrote [v] into its variable (it then returns [true])
    and [None] when it left the variable alone or was not shown; the
    check box and the button say whether they were clicked. *)
Record Widgets (F : Type) := {
  pause_clicked : bool;
  speed_slider : option F;
  G_slider : option F;
  sunMass_slider : option F;
  sunRadiusScale_slider : option F;
  planetMass_slider : option F;
  planetRadiusScale_slider : option F;
  planetOrbitRadius_slider : option F;
  planetInitialAngle_slider : option F;
  asteroidCount_slider : option nat;
  avgAsteroidMass_slider : option F;
  minAsteroidScale_slider : option F;
  maxAsteroidScale_slider : option F;
  beltInnerRadius_slider : option F;
  beltOuterRadius_slider : option F;
  beltHeight_slider : option F;
  reset_clicked : bool
}.
Arguments pause_clicked {F} _.
Arguments speed_slider {F} _.
Arguments G_slider {F} _.
Arguments sunMass_slider {F} _.
Arguments sunRadiusScale_slider {F} _.
Arguments planetMass_slider {F} _.
Arguments planetRadiusScale_slider {F} _.
Arguments planetOrbitRadius_slider {F} _.
Arguments planetInitialAngle_slider {F} _.
Arguments asteroidCount_slider {F} _.
Arguments avgAsteroidMass_slider {F} _.
Arguments minAsteroidScale_slider {F} _.
Arguments maxAsteroidScale_slider {F} _.
Arguments beltInnerRadius_slider {F} _.
Arguments beltOuterRadius_slider {F} _.
Arguments beltHeight_slider {F} _.
Arguments reset_clicked {F} _.

(** What one pass of the main loop takes from outside: the widgets, the
    frame time [deltaTime], and, for each of the two places that may call
    [resetSimulation], the clock reading that seeds the engine and the two
    buffer names [glGenBuffers] would return. *)
Record FrameInput (F : Type) := {
  widgets : Widgets F;
  deltaTime : F;
  count_reset_seed : N;
  count_reset_names : N * N;
  button_reset_seed : N;
  button_reset_names : N * N
}.
Arguments widgets {F} _.
Arguments deltaTime {F} _.
Arguments count_reset_seed {F} _.
Arguments count_reset_names {F} _.
Arguments button_reset_seed {F} _.
Arguments button_reset_names {F} _.

Section Application.
Context {F quat mat4 mat3 : Type}.
Context `{FloatOps F} `{Libm F} `{GlmOps F quat mat4 mat3} `{RngOps F}.

Definition set_mass (m : F) (b : CelestialBody F quat mat4) : CelestialBody F quat mat4 :=
  Body (position b) (velocity b) (acceleration b) m (radiusScale b)
       (modelPtr b) (meshPtr b) (orientation b) (modelMatrix b)
       (isStatic b) (isAsteroid b) (type b).

Definition set_radiusScale (r : F) (b : CelestialBody F quat mat4)
    : CelestialBody F quat mat4 :=
  Body (position b) (velocity b) (acceleration b) (mass b) r
       (modelPtr b) (meshPtr b) (orientation b) (modelMatrix b)
       (isStatic b) (isAsteroid b) (type b).

(** The two buffer names are the only globals the set-up writes. *)
Definition set_instance_buffers (vbo nvbo : N) (g : Globals F) : Globals F :=
  {| simulationSpeed := simulationSpeed g;
     G_scaled := G_scaled g;
     pauseSimulation := pauseSimulation g;
     asteroidAmount := asteroidAmount g;
     asteroidInstanceVBO := vbo;
     asteroidNormalInstanceVBO := nvbo;
     planetModelPtr := planetModelPtr g;
     rockModelPtr := rockModelPtr g;
     sunMass := sunMass g;
     sunRadiusScale := sunRadiusScale g;
     planetMass := planetMass g;
     planetRadiusScale := planetRadiusScale g;
     planetOrbitRadius := planetOrbitRadius g;
     planetInitialAngle := planetInitialAngle g;
     avgAsteroidMass := avgAsteroidMass g;
     minAsteroidScale := minAsteroidScale g;
     maxAsteroidScale := maxAsteroidScale g;
     asteroidBeltInnerRadius := asteroidBeltInnerRadius g;
     asteroidBeltOuterRadius := asteroidBeltOuterRadius g;
     asteroidBeltHeight := asteroidBeltHeight g |}.

(** [setupAsteroidInstanceBuffers].  [rock_vaos] are the vertex array
    objects of [rockModelPtr->meshes], in order, and [names] the two names
    [glGenBuffers] returns when it is reached.  The result is the globals
    with the new buffer names and the calls issued. *)
Definition setupAsteroidInstanceBuffers (rock_vaos : list N) (names : N * N)
    (g : Globals F) : Globals F * list setup_call :=
  let deleted :=
    (if (asteroidInstanceVBO g =? 0)%N then []
     else [GlDeleteBuffers (asteroidInstanceVBO g)])
    ++ (if (asteroidNormalInstanceVBO g =? 0)%N then []
        else [GlDeleteBuffers (asteroidNormalInstanceVBO g)]) in
  if bool_decide (asteroidAmount g = 0)
     || (if rockModelPtr g is NoModel then true else false)
  then (set_instance_buffers 0 0 g, deleted)
  else
    let vbo := names.1 in
    let nvbo := names.2 in
    (set_instance_buffers vbo nvbo g,
     deleted
     ++ [ GlGenBuffers vbo; GlBindBuffer vbo;
          GlBufferData (N.of_nat (asteroidAmount g) * 64);
          GlGenBuffers nvbo; GlBindBuffer nvbo;
          GlBufferData (N.of_nat (asteroidAmount g) * 36) ]
     ++ flat_map (λ vao, instance_attributes vao vbo nvbo) rock_vaos
     ++ [ GlBindBuffer 0%N ]).

(** The program between two frames: the globals, the store with its
    arrays, and the set-up calls issued so far. *)
Record App := {
  globals : Globals F;
  sim : Sim F quat mat4 mat3;
  setup_calls : list setup_call
}.

(** [resetSimulation] *)
Definition resetSimulation (rock_vaos : list N) (seed : N) (names : N * N)
    (a : App) : App :=
  let s := initializeCelestialBodies (globals a) seed (sim a) in
  let '(g, calls) := setupAsteroidInstanceBuffers rock_vaos names (globals a) in
  {| globals := g; sim := s; setup_calls := setup_calls a ++ calls |}.

(** The variables after the widgets of the panel have run.  Every widget
    writes a variable of its own, and none is read before the last one has
    run except by the sun's live patch, which reads the two variables of
    the sun's own sliders. *)
Definition apply_widgets (w : Widgets F) (g : Globals F) : Globals F :=
  {| simulationSpeed := default (simulationSpeed g) (speed_slider w);
     G_scaled := default (G_scaled g) (G_slider w);
     pauseSimulation := xorb (pause_clicked w) (pauseSimulation g);
     asteroidAmount := default (asteroidAmount g) (asteroidCount_slider w);
     asteroidInstanceVBO := asteroidInstanceVBO g;
     asteroidNormalInstanceVBO := asteroidNormalInstanceVBO g;
     planetModelPtr := planetModelPtr g;
     rockModelPtr := rockModelPtr g;
     sunMass := default (sunMass g) (sunMass_slider w);
     sunRadiusScale := default (sunRadiusScale g) (sunRadiusScale_slider w);
     planetMass := default (planetMass g) (planetMass_slider w);
     planetRadiusScale := default (planetRadiusScale g) (planetRadiusScale_slider w);
     planetOrbitRadius := default (planetOrbitRadius g) (planetOrbitRadius_slider w);
     planetInitialAngle := default (planetInitialAngle g) (planetInitialAngle_slider w);
     avgAsteroidMass := default (avgAsteroidMass g) (avgAsteroidMass_slider w);
     minAsteroidScale := default (minAsteroidScale g) (minAsteroidScale_slider w);
     maxAsteroidScale := default (maxAsteroidScale g) (maxAsteroidScale_slider w);
     asteroidBeltInnerRadius :=
       default (asteroidBeltInnerRadius g) (beltInnerRadius_slider w);
     asteroidBeltOuterRadius :=
       default (asteroidBeltOuterRadius g) (beltOuterRadius_slider w);
     asteroidBeltHeight := default (asteroidBeltHeight g) (beltHeight_slider w) |}.

(** [sunChanged]: one of the sun's two sliders wrote its variable. *)
Definition sunChanged (w : Widgets F) : bool :=
  bool_decide (is_Some (sunMass_slider w))
  || bool_decide (is_Some (sunRadiusScale_slider w)).

(** The live patch of the sun: mass and scale of body 0 are overwritten,
    nothing is recomputed. *)
Definition patch_sun (w : Widgets F) (g : Globals F)
    (bodies : list (CelestialBody F quat mat4)) : list (CelestialBody F quat mat4) :=
  if sunChanged w then
    match bodies with
    | [] => []
    | b0 :: rest =>
        set_radiusScale (sunRadiusScale g) (set_mass (sunMass g) b0) :: rest
    end
  else bodies.

Definition set_celestialBodies (bodies : list (CelestialBody F quat mat4))
    (s : Sim F quat mat4 mat3) : Sim F quat mat4 mat3 :=
  {| celestialBodies := bodies;
     asteroidModelMatrices := asteroidModelMatrices s;
     asteroidNormalMatrices := asteroidNormalMatrices s;
     gl_calls := gl_calls s |}.

(** The panel of one pass of the main loop down to the end of the
    asteroid header: the widgets, the sun's live patch, and
    [resetSimulation] when the asteroid count slider moved. *)
Definition after_count_reset (rock_vaos : list N) (i : FrameInput F) (a : App)
    : App :=
  let w := widgets i in
  let g := apply_widgets w (globals a) in
  let s := set_celestialBodies (patch_sun w g (celestialBodies (sim a))) (sim a) in
  let a := {| globals := g; sim := s; setup_calls := setup_calls a |} in
  if bool_decide (is_Some (asteroidCount_slider w))
  then resetSimulation rock_vaos (count_reset_seed i) (count_reset_names i) a
  else a.

(** The whole panel: the button resets once more when clicked. *)
Definition before_physics (rock_vaos : list N) (i : FrameInput F) (a : App) : App :=
  let a := after_count_reset rock_vaos i a in
  if reset_clicked (widgets i)
  then resetSimulation rock_vaos (button_reset_seed i) (button_reset_names i) a
  else a.

(** The panel and the physics call of one pass of the main loop:
    [updatePhysics(deltaTime)] runs unless the store is empty.  Rendering,
    camera and lighting are outside this model.  [None] when
    [updatePhysics] fails. *)
Definition control_frame (rock_vaos : list N) (i : FrameInput F) (a : App)
    : option App :=
  let a := before_physics rock_vaos i a in
  match celestialBodies (sim a) with
  | [] => Some a
  | _ :: _ =>
      s' ← updatePhysics (globals a) (deltaTime i) (sim a);
      Some {| globals := globals a; sim := s'; setup_calls := setup_calls a |}
  end.

(** The state [main] enters its loop with: [resetSimulation] on the
    initial globals and an empty store. *)
Definition startup (rock_vaos : list N) (seed : N) (names : N * N)
    (g : Globals F) : App :=
  resetSimulation rock_vaos seed names
    {| globals := g;
       sim := {| celestialBodies := [];
                 asteroidModelMatrices := [];
                 asteroidNormalMatrices := [];
                 gl_calls := [] |};
       setup_calls := [] |}.

(** A session: the passes of the loop, in order. *)
Fixpoint run_frames (rock_vaos : list N) (inputs : list (FrameInput F)) (a : App)
    : option App :=
  match inputs with
  | [] => Some a
  | i :: rest => a' ← control_frame rock_vaos i a; run_frames rock_vaos rest a'
  end.


(** What holds between frames: the arrays have the size of the asteroid
    count, the store holds that many Swarm bodies, and it is not empty. *)
Definition between_frames (a : App) : Prop :=
  allocated (globals a) (sim a)
  ∧ length (swarm (celestialBodies (sim a))) = asteroidAmount (globals a)
  ∧ celestialBodies (sim a) ≠ [].

(** The end of [main]: the two instance buffers are deleted if their
    names are not zero.  The result is the list of set-up calls of the
    whole run. *)
Definition shutdown (a : App) : list setup_call :=
  setup_calls a
  ++ (if (asteroidInstanceVBO (globals a) =? 0)%N then []
      else [GlDeleteBuffers (asteroidInstanceVBO (globals a))])
  ++ (if (asteroidNormalInstanceVBO (globals a) =? 0)%N then []
      else [GlDeleteBuffers (asteroidNormalInstanceVBO (globals a))]).

(** The buffer names generated, and the ones deleted, in call order. *)
Definition generated (calls : list setup_call) : list N :=
  omap (λ c, if c is GlGenBuffers name then Some name else None) calls.
Definition deleted (calls : list setup_call) : list N :=
  omap (λ c, if c is GlDeleteBuffers name then Some name else None) calls.

(** The buffers the globals name. *)
Definition live_buffers (g : Globals F) : list N :=
  (if (asteroidInstanceVBO g =? 0)%N then [] else [asteroidInstanceVBO g])
  ++ (if (asteroidNormalInstanceVBO g =? 0)%N then []
      else [asteroidNormalInstanceVBO g]).

(** The instance buffers the globals name are the ones the last set-up
    created, with data stores for [asteroidAmount] matrices and normal
    matrices, or there are none. *)
Definition buffers_current (rock_vaos : list N) (a : App) : Prop :=
  let g := globals a in
  (asteroidInstanceVBO g = 0%N ∧ asteroidNormalInstanceVBO g = 0%N)
  ∨ ∃ earlier,
      setup_calls a
      = earlier
        ++ [ GlGenBuffers (asteroidInstanceVBO g);
             GlBindBuffer (asteroidInstanceVBO g);
             GlBufferData (N.of_nat (asteroidAmount g) * 64);
             GlGenBuffers (asteroidNormalInstanceVBO g);
             GlBindBuffer (asteroidNormalInstanceVBO g);
             GlBufferData (N.of_nat (asteroidAmount g) * 36) ]
        ++ flat_map (λ vao, instance_attributes vao (asteroidInstanceVBO g)
                              (asteroidNormalInstanceVBO g)) rock_vaos
        ++ [ GlBindBuffer 0%N ].
End Application.

Arguments App : clear implicits.

(** ** The sphere mesh of [SphereCreator::CreateSphere] *)

(** glm's constants [half_pi<float>()] and [two_pi<float>()]; [pi] is
    taken from [GlmOps]. *)
Class GlmConstants (F : Type) := {
  half_pi : F;
  two_pi : F
}.

(** [Vertex] as [CreateSphere] fills it.  The two bone arrays have
    [MAX_BONE_INFLUENCE] entries, a constant of [mesh.h]. *)
Record Vertex (F : Type) := {
  Position : vec3 F;
  Normal : vec3 F;
  TexCoords : F * F;
  Tangent : vec3 F;
  Bitangent : vec3 F;
  m_BoneIDs : list Z;
  m_Weights : list F
}.
Arguments Position {F} _.
Arguments Normal {F} _.
Arguments TexCoords {F} _.
Arguments Tangent {F} _.
Arguments Bitangent {F} _.
Arguments m_BoneIDs {F} _.
Arguments m_Weights {F} _.

(** The two vectors [CreateSphere] hands to the constructor of [Mesh],
    with an empty texture list. *)
Record MeshData (F : Type) := {
  vertices : list (Vertex F);
  indices : list Z
}.
Arguments vertices {F} _.
Arguments indices {F} _.

Section Sphere.
Context {F quat mat4 mat3 : Type}.
Context `{FloatOps F} `{Libm F} `{GlmOps F quat mat4 mat3} `{GlmConstants F}.
Variable MAX_BONE_INFLUENCE : nat.
Local Open Scope Z_scope.

(** [unsigned int]: 32 bits, arithmetic modulo [2^32]. *)
Definition UINT_MAX : Z := 2 ^ 32 - 1.
Definition wrap (z : Z) : Z := z mod 2 ^ 32.

(** The conversion of an [unsigned int] to [float]: the value, rounded. *)
Definition of_uint (n : Z) : F := lit n 0.

(** The vertex pushed by the iteration [(i, j)] of the first loop nest. *)
Definition sphere_vertex (radius : F) (sectorCount stackCount i j : Z)
    : Vertex F :=
  let stackAngle := half_pi ⊖ of_uint i ⊗ (pi ⊘ of_uint stackCount) in
  let xy := radius ⊗ fcos stackAngle in
  let z := radius ⊗ fsin stackAngle in
  let sectorAngle := of_uint j ⊗ (two_pi ⊘ of_uint sectorCount) in
  let x := xy ⊗ fcos sectorAngle in
  let y := xy ⊗ fsin sectorAngle in
  {| Position := Vec3 x y z;
     Normal := normalize (Vec3 x y z);
     TexCoords := (of_uint j ⊘ of_uint sectorCount, of_uint i ⊘ of_uint stackCount);
     Tangent := Vec3 f0 f0 f0;
     Bitangent := Vec3 f0 f0 f0;
     m_BoneIDs := replicate MAX_BONE_INFLUENCE (-1);
     m_Weights := replicate MAX_BONE_INFLUENCE f0 |}.

(** The six indices pushed by the iteration [(i, j)] of the second loop
    nest. *)
Definition quad_indices (sectorCount i j : Z) : list Z :=
  let first := wrap (wrap (i * wrap (sectorCount + 1)) + j) in
  let second := wrap (wrap (first + sectorCount) + 1) in
  [ first; second; wrap (first + 1);
    second; wrap (second + 1); wrap (first + 1) ].

(** [CreateSphere].  The loops [i <= stackCount] and [j <= sectorCount]
    have no exit when the bound is [UINT_MAX]: the call then does not
    return, which is [None]. *)
Definition CreateSphere (radius : F) (sectorCount stackCount : Z)
    : option (MeshData F) :=
  if (stackCount =? UINT_MAX) || (sectorCount =? UINT_MAX) then None
  else
    Some {| vertices :=
              mjoin ((λ i, sphere_vertex radius sectorCount stackCount i
                           <$> seqZ 0 (sectorCount + 1))
                     <$> seqZ 0 (stackCount + 1));
            indices :=
              mjoin ((λ i, mjoin (quad_indices sectorCount i
                                  <$> seqZ 0 sectorCount))
                     <$> seqZ 0 stackCount) |}.
End Sphere.

(** ** Keyboard and mouse *)

(** [Camera_Movement] of [camera.h], as [processInput] names its values. *)
Variant Camera_Movement := FORWARD | BACKWARD | LEFT | RIGHT | UP | DOWN.

Variant cursor_mode := GLFW_CURSOR_NORMAL | GLFW_CURSOR_DISABLED.

(** The calls the input functions make on the window and on the camera,
    in the order they are issued. *)
Variant input_call (F : Type) :=
  | glfwSetWindowShouldClose
  | glfwSetInputMode (mode : cursor_mode)
  | ProcessKeyboard (direction : Camera_Movement) (dt : F)
  | ProcessMouseMovement (xoffset yoffset : F)
  | ProcessMouseScroll (yoffset : F).
Arguments glfwSetWindowShouldClose {F}.
Arguments glfwSetInputMode {F} _.
Arguments ProcessKeyboard {F} _ _.
Arguments ProcessMouseMovement {F} _ _.
Arguments ProcessMouseScroll {F} _.

(** The keys [processInput] polls: [true] for [GLFW_PRESS]. *)
Record Keys := {
  key_escape : bool;
  key_backspace : bool;
  key_left_shift : bool;
  key_w : bool;
  key_s : bool;
  key_a : bool;
  key_d : bool;
  key_space : bool;
  key_left_control : bool
}.

(** The globals of the input functions, the function-local static
    [backspacePressed], and the calls made so far. *)
Record Input (F : Type) := {
  lastX : F;
  lastY : F;
  firstMouse : bool;
  cameraEnabled : bool;
  backspacePressed : bool;
  input_calls : list (input_call F)
}.
Arguments lastX {F} _.
Arguments lastY {F} _.
Arguments firstMouse {F} _.
Arguments cameraEnabled {F} _.
Arguments backspacePressed {F} _.
Arguments input_calls {F} _.

Section Controls.
Context {F : Type} `{FloatOps F}.

Definition call (c : input_call F) (st : Input F) : Input F :=
  {| lastX := lastX st; lastY := lastY st; firstMouse := firstMouse st;
     cameraEnabled := cameraEnabled st;
     backspacePressed := backspacePressed st;
     input_calls := input_calls st ++ [c] |}.

Definition set_backspacePressed (v : bool) (st : Input F) : Input F :=
  {| lastX := lastX st; lastY := lastY st; firstMouse := firstMouse st;
     cameraEnabled := cameraEnabled st;
     backspacePressed := v;
     input_calls := input_calls st |}.

(** The body of [if (!backspacePressed)]. *)
Definition toggle_camera (st : Input F) : Input F :=
  let enabled := negb (cameraEnabled st) in
  {| lastX := lastX st; lastY := lastY st;
     firstMouse := if enabled then true else firstMouse st;
     cameraEnabled := enabled;
     backspacePressed := true;
     input_calls :=
       input_calls st
       ++ [glfwSetInputMode
             (if enabled then GLFW_CURSOR_DISABLED else GLFW_CURSOR_NORMAL)] |}.

(** The camera movement keys, polled in the source's order. *)
Definition move_camera (keys : Keys) (dt : F) (st : Input F) : Input F :=
  let st := if key_w keys then call (ProcessKeyboard FORWARD dt) st else st in
  let st := if key_s keys then call (ProcessKeyboard BACKWARD dt) st else st in
  let st := if key_a keys then call (ProcessKeyboard LEFT dt) st else st in
  let st := if key_d keys then call (ProcessKeyboard RIGHT dt) st else st in
  let st := if key_space keys then call (ProcessKeyboard UP dt) st else st in
  if key_left_control keys then call (ProcessKeyboard DOWN dt) st else st.

(** [processInput]; [want_keyboard] is [io.WantCaptureKeyboard] and
    [deltaTime] the global of that name. *)
Definition processInput (want_keyboard : bool) (keys : Keys) (deltaTime : F)
    (st : Input F) : Input F :=
  let st := if key_escape keys then call glfwSetWindowShouldClose st else st in
  if want_keyboard && negb (cameraEnabled st) then st
  else
    let st :=
      if key_backspace keys then
        if negb (backspacePressed st) then toggle_camera st else st
      else set_backspacePressed false st in
    if want_keyboard && negb (cameraEnabled st) then st
    else if cameraEnabled st || negb want_keyboard then
      let actualDeltaTime :=
        if key_left_shift keys then deltaTime ⊗ lit 35 (-1) else deltaTime in
      move_camera keys actualDeltaTime st
    else st.

(** [mouse_callback]; [want_mouse] is [io.WantCaptureMouse], [xpos] and
    [ypos] are the two coordinates after their conversion to [float]. *)
Definition mouse_callback (want_mouse : bool) (xpos ypos : F) (st : Input F)
    : Input F :=
  if want_mouse || negb (cameraEnabled st) then st
  else
    let '(lx, ly) := if firstMouse st then (xpos, ypos) else (lastX st, lastY st) in
    let xoffset := xpos ⊖ lx in
    let yoffset := ly ⊖ ypos in
    {| lastX := xpos; lastY := ypos; firstMouse := false;
       cameraEnabled := cameraEnabled st;
       backspacePressed := backspacePressed st;
       input_calls := input_calls st ++ [ProcessMouseMovement xoffset yoffset] |}.

(** [scroll_callback] *)
Definition scroll_callback (want_mouse : bool) (yoffset : F) (st : Input F)
    : Input F :=
  if want_mouse || negb (cameraEnabled st) then st
  else call (ProcessMouseScroll yoffset) st.

(** What reaches the input functions, in order of arrival: a poll of the
    keyboard by the main loop, or a callback of the window library. *)
Variant input_event :=
  | Poll (want_keyboard : bool) (keys : Keys) (deltaTime : F)
  | MouseMoved (want_mouse : bool) (xpos ypos : F)
  | Scrolled (want_mouse : bool) (yoffset : F).

Definition handle (st : Input F) (e : input_event) : Input F :=
  match e with
  | Poll want keys dt => processInput want keys dt st
  | MouseMoved want x y => mouse_callback want x y st
  | Scrolled want y => scroll_callback want y st
  end.

(** The camera calls among the calls made. *)
Definition is_camera_call (c : input_call F) : bool :=
  match c with
  | ProcessKeyboard _ _ | ProcessMouseMovement _ _ | ProcessMouseScroll _ => true
  | _ => false
  end.

(** Kinds of events: a poll that finds backspace down; a poll made while
    the user interface wants the keyboard; an event of the mouse. *)
Definition holds_backspace (e : input_event) : Prop :=
  match e with
  | Poll _ keys _ => key_backspace keys = true
  | _ => True
  end.

Definition keyboard_captured (e : input_event) : Prop :=
  match e with
  | Poll want_keyboard _ _ => want_keyboard = true
  | _ => True
  end.

Definition from_mouse (e : input_event) : Prop :=
  match e with
  | Poll _ _ _ => False
  | _ => True
  end.
End Controls.

Arguments input_event : clear implicits.

(** ** Concrete sessions, for evaluating the model *)

Module Panel.
Import B32 Scenario.

(** glm's two constants, as [float]. *)
#[export] Instance constants : GlmConstants b32 := {|
  half_pi := lit 157079632679489661923 (-20);
  two_pi := lit 628318530717958647692 (-20)
|}.

(** No widget touched. *)
Definition untouched : Widgets b32 := {|
  pause_clicked := false;
  speed_slider := None; G_slider := None;
  sunMass_slider := None; sunRadiusScale_slider := None;
  planetMass_slider := None; planetRadiusScale_slider := None;
  planetOrbitRadius_slider := None; planetInitialAngle_slider := None;
  asteroidCount_slider := None;
  avgAsteroidMass_slider := None;
  minAsteroidScale_slider := None; maxAsteroidScale_slider := None;
  beltInnerRadius_slider := None; beltOuterRadius_slider := None;
  beltHeight_slider := None;
  reset_clicked := false
|}.

(** The pause box ticked and the button clicked in the same frame. *)
Definition pause_and_reset : Widgets b32 := {|
  pause_clicked := true;
  speed_slider := None; G_slider := None;
  sunMass_slider := None; sunRadiusScale_slider := None;
  planetMass_slider := None; planetRadiusScale_slider := None;
  planetOrbitRadius_slider := None; planetInitialAngle_slider := None;
  asteroidCount_slider := None;
  avgAsteroidMass_slider := None;
  minAsteroidScale_slider := None; maxAsteroidScale_slider := None;
  beltInnerRadius_slider := None; beltOuterRadius_slider := None;
  beltHeight_slider := None;
  reset_clicked := true
|}.

(** The sun's mass slider dragged to 40000 while the pause box is
    ticked. *)
Definition heavier_sun : Widgets b32 := {|
  pause_clicked := true;
  speed_slider := None; G_slider := None;
  sunMass_slider := Some (lit 40000 0); sunRadiusScale_slider := None;
  planetMass_slider := None; planetRadiusScale_slider := None;
  planetOrbitRadius_slider := None; planetInitialAngle_slider := None;
  asteroidCount_slider := None;
  avgAsteroidMass_slider := None;
  minAsteroidScale_slider := None; maxAsteroidScale_slider := None;
  beltInnerRadius_slider := None; beltOuterRadius_slider := None;
  beltHeight_slider := None;
  reset_clicked := false
|}.

(** The asteroid count slider dragged to three. *)
Definition three_rocks : Widgets b32 := {|
  pause_clicked := false;
  speed_slider := None; G_slider := None;
  sunMass_slider := None; sunRadiusScale_slider := None;
  planetMass_slider := None; planetRadiusScale_slider := None;
  planetOrbitRadius_slider := None; planetInitialAngle_slider := None;
  asteroidCount_slider := Some 3;
  avgAsteroidMass_slider := None;
  minAsteroidScale_slider := None; maxAsteroidScale_slider := None;
  beltInnerRadius_slider := None; beltOuterRadius_slider := None;
  beltHeight_slider := None;
  reset_clicked := false
|}.


(** A frame of one hundredth of a second with the given widgets; the
    driver would hand out the names 5 and 6, then 7 and 8. *)
Definition pass (w : Widgets b32) : FrameInput b32 := {|
  widgets := w;
  deltaTime := frame;
  count_reset_seed := 1;
  count_reset_names := (5, 6)%N;
  button_reset_seed := 2;
  button_reset_names := (7, 8)%N
|}.

(** The rock model has one mesh, of vertex array 4; the program starts
    with the source's defaults, two asteroids and no buffer yet. *)
Definition rock_vaos : list N := [4%N].
Definition launch : App b32 (quat_term b32) (mat4_term b32) (mat3_term b32) :=
  startup rock_vaos 0 (1, 2)%N
    (set_instance_buffers 0 0 (defaults 2)).

(** The input state [main] enters its loop with, for a window of 1280
    by 720, and a state with the camera switched off. *)
Definition fresh : Input b32 := {|
  lastX := lit 640 0; lastY := lit 360 0; firstMouse := true;
  cameraEnabled := true; backspacePressed := false; input_calls := []
|}.
Definition menu : Input b32 := {|
  lastX := lit 400 0; lastY := lit 300 0; firstMouse := false;
  cameraEnabled := false; backspacePressed := false; input_calls := []
|}.

Definition no_keys : Keys := {|
  key_escape := false; key_backspace := false; key_left_shift := false;
  key_w := false; key_s := false; key_a := false; key_d := false;
  key_space := false; key_left_control := false
|}.
Definition backspace : Keys := {|
  key_escape := false; key_backspace := true; key_left_shift := false;
  key_w := false; key_s := false; key_a := false; key_d := false;
  key_space := false; key_left_control := false
|}.
Definition backspace_and_w : Keys := {|
  key_escape := false; key_backspace := true; key_left_shift := false;
  key_w := true; key_s := false; key_a := false; key_d := false;
  key_space := false; key_left_control := false
|}.
End Panel.

(** glm's constants and functions in exact arithmetic, matrices and
    quaternions left as terms. *)
Module ExactGlm.
Import Exact.

#[export] Instance glm : GlmOps R (quat_term R) (mat4_term R) (mat3_term R) := {|
  quat_wxyz := QWxyz;
  angleAxis := QAngleAxis;
  normalize v := vdivs v (sqrt (dot v v));
  radians d := (d * (PI / 180))%R;
  pi := PI;
  mat4_diag := M4Diag;
  translate := M4Translate;
  scale := M4Scale;
  mat4_cast := M4Cast;
  mat4_mul := M4Mul;
  mat3_of_mat4 := M3Of;
  inverse := M3Inverse;
  transpose := M3Transpose
|}.

#[export] Instance constants : GlmConstants R := {|
  half_pi := (PI / 2)%R;
  two_pi := (2 * PI)%R
|}.
End ExactGlm.

(** ** Momentum *)

Section Momentum.
Context {F quat mat4 : Type} `{FloatOps F}.

(** The total momentum of the store: mass times velocity, summed over
    the bodies. *)
Definition momentum (bodies : list (CelestialBody F quat mat4)) : vec3 F :=
  foldr (λ b p, vadd (smulv (mass b) (velocity b)) p) (splat f0) bodies.

(** The force the first loop computes for body [i] from body [j]; zero
    where the loop skips the pair. *)
Definition pair_force (G : F) (bodies : list (CelestialBody F quat mat4))
    (i j : nat) : vec3 F :=
  match bodies !! i, bodies !! j with
  | Some bi, Some bj =>
      if decide (i = j) then splat f0
      else if isAsteroid bi && isAsteroid bj then splat f0
      else force_vec G bi bj
  | _, _ => splat f0
  end.

(** No body is static and every acceleration is zero, as after a
    rebuild and after every frame that is not skipped. *)
Definition free_and_settled (bodies : list (CelestialBody F quat mat4)) : Prop :=
  Forall (λ b, isStatic b = false ∧ acceleration b = splat f0) bodies.
End Momentum.

(** A store in exact arithmetic: the sun and the planet of the source's
    defaults, no asteroids. *)
Module ExactScenario.
Import Exact ExactGlm.

Definition defaults : Globals R := {|
  simulationSpeed := 1;
  G_scaled := 1000;
  pauseSimulation := false;
  asteroidAmount := 0;
  asteroidInstanceVBO := 0;
  asteroidNormalInstanceVBO := 0;
  planetModelPtr := ModelAt 1;
  rockModelPtr := ModelAt 2;
  sunMass := 20000;
  sunRadiusScale := 15;
  planetMass := 200;
  planetRadiusScale := 4;
  planetOrbitRadius := 70;
  planetInitialAngle := 0;
  avgAsteroidMass := 1 / 10;
  minAsteroidScale := 5 / 100;
  maxAsteroidScale := 25 / 100;
  asteroidBeltInnerRadius := 100;
  asteroidBeltOuterRadius := 180;
  asteroidBeltHeight := 10
|}%R.

Definition two_bodies : Sim R (quat_term R) (mat4_term R) (mat3_term R) := {|
  celestialBodies := [make_sun defaults; make_planet defaults];
  asteroidModelMatrices := [];
  asteroidNormalMatrices := [];
  gl_calls := []
|}.
End ExactScenario.

(** * Properties *)

(** Names every draw of the engine in the goal. *)
Ltac draw_all :=
  repeat match goal with
         | |- context [uniform_real ?a ?b ?r] =>
             destruct (uniform_real a b r) as [? ?]
         end.

Lemma foldl_ext_in {A B : Type} (f g : A → B → A) (l : list B) (a : A) :
  (∀ x y, y ∈ l → f x y = g x y) → foldl f a l = foldl g a l.
Proof.
  revert a. induction l as [|y l IH]; intros a Hfg; simpl; [done|].
  rewrite Hfg by left. apply IH. intros x z Hz. apply Hfg. by right.
Qed.

Lemma foldl_ext {A B : Type} (f g : A → B → A) (l : list B) (a : A) :
  (∀ x y, f x y = g x y) → foldl f a l = foldl g a l.
Proof. intros Hfg. apply foldl_ext_in. auto. Qed.

(** A fold that looks every index of a list up is a fold over the list. *)
Lemma foldl_seq_lookup {A B : Type} (f : A → B → A) (l : list B) (a : A) :
  foldl (λ x j, match l !! j with Some y => f x y | None => x end) a
        (seq 0 (length l))
  = foldl f a l.
Proof.
  induction l as [|y l IH] using rev_ind; [done|].
  rewrite length_app, Nat.add_1_r, seq_S, !foldl_snoc. simpl.
  rewrite list_lookup_middle by done.
  f_equal. rewrite <- IH.
  apply foldl_ext_in. intros x j Hj.
  apply elem_of_seq in Hj. by rewrite lookup_app_l by lia.
Qed.

Section ForcePhase.
Context {F quat mat4 mat3 : Type} `{FloatOps F} `{GlmOps F quat mat4 mat3}.
Implicit Types (b bi bj : CelestialBody F quat mat4) (bs : list (CelestialBody F quat mat4)).
Implicit Types (a : vec3 F) (G : F).

Lemma set_acceleration_id b : set_acceleration (acceleration b) b = b.
Proof. by destruct b. Qed.

Lemma applyForce_pull G bi bj a :
  applyForce (force_vec G bi bj) (set_acceleration a bi)
  = set_acceleration (pull G bi bj a) bi.
Proof.
  unfold pull, applyForce. simpl.
  by destruct (isStatic bi || (mass bi ≐ f0)).
Qed.

(** One inner iteration writes body [i]'s acceleration and nothing else. *)
Lemma interact_at G i j bs bi a :
  bs !! i = Some (set_acceleration a bi) →
  interact G i j bs = <[i := set_acceleration (acc_step G bs i bi a j) bi]> bs.
Proof.
  intros Hi. unfold interact, acc_step. rewrite Hi.
  destruct (bs !! j) as [bj|] eqn:Hj; [|by rewrite list_insert_id].
  destruct (decide (i = j)); [by rewrite list_insert_id|].
  simpl. destruct (isAsteroid bi && isAsteroid bj); [by rewrite list_insert_id|].
  f_equal. apply (applyForce_pull G bi bj a).
Qed.

Lemma acc_step_insert G i x bs bi a j :
  acc_step G (<[i := x]> bs) i bi a j = acc_step G bs i bi a j.
Proof.
  unfold acc_step. destruct (decide (i = j)) as [->|Hne].
  - by destruct (<[j := x]> bs !! j), (bs !! j).
  - by rewrite list_lookup_insert_ne.
Qed.

(** The inner loop, over any list of indices. *)
Lemma inner_loop_at G i bi js : ∀ bs a,
  bs !! i = Some (set_acceleration a bi) →
  foldl (λ bs j, interact G i j bs) bs js
  = <[i := set_acceleration (foldl (acc_step G bs i bi) a js) bi]> bs.
Proof.
  induction js as [|j js IH]; intros bs a Hi; simpl.
  - by rewrite list_insert_id.
  - rewrite (interact_at G i j bs bi a Hi).
    rewrite (IH _ (acc_step G bs i bi a j)).
    + rewrite list_insert_insert_eq. do 2 f_equal.
      apply foldl_ext. intros; apply acc_step_insert.
    + apply list_lookup_insert_eq. by eapply lookup_lt_Some.
Qed.

Lemma accumulate_on_at G i bs bi :
  bs !! i = Some bi →
  accumulate_on G i bs
  = <[i := set_acceleration
             (foldl (acc_step G bs i bi) (acceleration bi) (seq 0 (length bs))) bi]> bs.
Proof.
  intros Hi. unfold accumulate_on. apply inner_loop_at.
  by rewrite set_acceleration_id.
Qed.

(** The bodies after [n] iterations of the outer loop. *)
Lemma outer_loop_prefix G bs0 n :
  n ≤ length bs0 →
  let bs := foldl (λ bs i,
                     match bs !! i with
                     | Some bi => if isStatic bi then bs else accumulate_on G i bs
                     | None => bs
                     end) bs0 (seq 0 n) in
  length bs = length bs0
  ∧ ∀ k, bs !! k
         = (λ bk, if decide (k < n)
                  then set_acceleration (received G bs0 k bk) bk else bk)
           <$> bs0 !! k.
Proof.
  induction n as [|n IH]; intros Hn; cbv zeta.
  { simpl. split; [done|]. intros k. by destruct (bs0 !! k). }
  rewrite seq_S, foldl_snoc. cbv zeta in IH. simpl.
  destruct IH as [Hlen IH]; [lia|].
  set (bs := foldl _ bs0 (seq 0 n)) in *.
  destruct (lookup_lt_is_Some_2 bs0 n) as [bn Hbn]; [lia|].
  assert (bs !! n = Some bn) as Hn'.
  { rewrite IH, Hbn. simpl. by rewrite decide_False by lia. }
  rewrite Hn'.
  destruct (isStatic bn) eqn:Hstat.
  - split; [done|]. intros k. rewrite IH.
    destruct (bs0 !! k) as [bk|] eqn:Hk; simpl; [|done].
    destruct (decide (k = n)) as [->|Hkn].
    + assert (bk = bn) as -> by congruence.
      rewrite decide_False, decide_True by lia.
      unfold received. by rewrite Hstat, set_acceleration_id.
    + destruct (decide (k < n)).
      * by rewrite decide_True by lia.
      * by rewrite decide_False by lia.
  - rewrite (accumulate_on_at G n bs bn Hn').
    split; [by rewrite length_insert|]. intros k.
    destruct (decide (k = n)) as [->|Hkn].
    + rewrite list_lookup_insert_eq by (by eapply lookup_lt_Some).
      rewrite Hbn. simpl. rewrite decide_True by lia.
      do 2 f_equal. unfold received. rewrite Hstat, Hlen.
      apply foldl_ext. intros a j. unfold acc_step.
      rewrite IH. destruct (bs0 !! j) as [bj|]; simpl; [|done].
      by destruct (decide (j < n)).
    + rewrite list_lookup_insert_ne by done. rewrite IH.
      destruct (bs0 !! k) as [bk|]; simpl; [|done].
      destruct (decide (k < n)).
      * by rewrite decide_True by lia.
      * by rewrite decide_False by lia.
Qed.

(** The first loop of [updatePhysics] changes accelerations only: body
    [k] ends with [received G bs k bk] and is otherwise as before. *)
Lemma accumulate_forces_lookup G bs k :
  accumulate_forces G bs !! k
  = (λ bk, set_acceleration (received G bs k bk) bk) <$> bs !! k.
Proof.
  destruct (outer_loop_prefix G bs (length bs)) as [_ Hk]; [done|].
  unfold accumulate_forces. rewrite Hk.
  destruct (bs !! k) as [bk|] eqn:Hbk; simpl; [|done].
  by rewrite decide_True by (by eapply lookup_lt_Some).
Qed.

Lemma accumulate_forces_length G bs :
  length (accumulate_forces G bs) = length bs.
Proof. by destruct (outer_loop_prefix G bs (length bs)) as [Hl _]. Qed.

(** The force loop as a whole: every body keeps all its fields but the
    acceleration, which becomes [received]. *)
Theorem force_loop_writes_accelerations_only G bs :
  accumulate_forces G bs
  = imap (λ k bk, set_acceleration (received G bs k bk) bk) bs.
Proof.
  apply list_eq. intros k.
  by rewrite accumulate_forces_lookup, list_lookup_imap.
Qed.
End ForcePhase.

Section IntegrationPhase.
Context {F quat mat4 mat3 : Type} `{FloatOps F} `{GlmOps F quat mat4 mat3}.
Implicit Types (b : CelestialBody F quat mat4) (bs : list (CelestialBody F quat mat4)).
Implicit Types (p : Publish mat4 mat3) (g : Globals F) (s : Sim F quat mat4 mat3) (dt : F).

Lemma update_isAsteroid dt b : isAsteroid (update dt b) = isAsteroid b.
Proof. unfold update. by destruct (isStatic b). Qed.

Lemma update_isStatic dt b : isStatic (update dt b) = isStatic b.
Proof. unfold update. by destruct (isStatic b) eqn:E. Qed.

Lemma update_acceleration dt b : acceleration (update dt b) = splat f0.
Proof. unfold update. by destruct (isStatic b). Qed.


Lemma store_Some {A : Type} (buf : list (option A)) k x :
  k < length buf → store buf k x = Some (<[k := Some x]> buf).
Proof. intros Hk. unfold store. by rewrite decide_True. Qed.

Lemma take_S_insert {A : Type} (l : list A) k x :
  k < length l → take (S k) (<[k := x]> l) = take k l ++ [x].
Proof.
  intros Hk.
  rewrite (take_S_r _ _ x) by (by apply list_lookup_insert_eq).
  by rewrite take_insert_ge.
Qed.

(** A slot written at [k] sits between the untouched prefix and suffix. *)
Lemma insert_take_drop_shift {A : Type} (l : list A) k x (w : list A) n :
  k < length l →
  take (S k) (<[k := x]> l) ++ w ++ drop (S k + n) (<[k := x]> l)
  = take k l ++ (x :: w) ++ drop (k + S n) l.
Proof.
  intros Hk. rewrite take_S_insert by done.
  rewrite drop_insert_lt by lia. simpl.
  rewrite <- app_assoc. simpl. by rewrite Nat.add_succ_r.
Qed.

Lemma swarm_cons b bs :
  swarm (b :: bs) = if isAsteroid b then b :: swarm bs else swarm bs.
Proof.
  unfold swarm. rewrite filter_cons.
  destruct (isAsteroid b); by case_decide.
Qed.

(** The second loop never fails when both arrays have room for [amount]
    instances, and then it ends in [published]. *)
Lemma integrate_and_publish_closed dt amount bs : ∀ p,
  amount ≤ length (models p) → amount ≤ length (normals p) →
  integrate_and_publish dt amount bs p
  = Some (update dt <$> bs, published amount (update dt <$> bs) p).
Proof.
  induction bs as [|b bs IH]; intros [idx ms ns] Hm Hn.
  - unfold published, swarm. simpl.
    rewrite filter_nil, take_nil. simpl.
    by rewrite Nat.add_0_r, !take_drop.
  - rewrite fmap_cons. set (bs' := update dt <$> bs) in *.
    cbn [integrate_and_publish]. fold bs'.
    unfold publish_body, published.
    cbn [asteroidInstanceIdx models normals] in *.
    rewrite swarm_cons.
    destruct (isAsteroid (update dt b)) eqn:Hast; cbn [andb].
    + case_bool_decide as Hidx.
      * rewrite !store_Some by lia. cbn [mbind option_bind].
        rewrite IH by (cbn [models normals]; rewrite length_insert; lia).
        cbn [mbind option_bind]. unfold published.
        cbn [asteroidInstanceIdx models normals].
        replace (amount - idx) with (S (amount - S idx)) by lia.
        rewrite firstn_cons, !fmap_cons.
        set (w := take (amount - S idx) (swarm bs')).
        cbn [length]. rewrite !insert_take_drop_shift by lia.
        do 3 f_equal. lia.
      * cbn [mbind option_bind]. rewrite IH by done.
        cbn [mbind option_bind]. unfold published.
        cbn [asteroidInstanceIdx models normals].
        by replace (amount - idx) with 0 by lia.
    + cbn [mbind option_bind]. rewrite IH by done.
      by cbn [mbind option_bind].
Qed.

(** A skipped frame. *)
Lemma updatePhysics_skipped g dt s :
  effective g dt = false → updatePhysics g dt s = Some s.
Proof.
  unfold effective, updatePhysics. intros Heff.
  destruct (pauseSimulation g); [done|].
  by destruct (dt ⊗ simulationSpeed g ≐ f0).
Qed.

(** The bodies and the publish state after a frame that is not skipped. *)
Lemma updatePhysics_effective g dt s :
  allocated g s → effective g dt = true →
  let bodies := update (dt ⊗ simulationSpeed g)
                <$> accumulate_forces (G_scaled g) (celestialBodies s) in
  let p := published (asteroidAmount g) bodies
             {| asteroidInstanceIdx := 0;
                models := asteroidModelMatrices s;
                normals := asteroidNormalMatrices s |} in
  updatePhysics g dt s
  = Some {| celestialBodies := bodies;
            asteroidModelMatrices := models p;
            asteroidNormalMatrices := normals p;
            gl_calls := gl_calls s ++ upload g p |}.
Proof.
  intros [Hm Hn] Heff. unfold effective in Heff. unfold updatePhysics.
  destruct (pauseSimulation g); [done|].
  destruct (dt ⊗ simulationSpeed g ≐ f0); [done|].
  by rewrite integrate_and_publish_closed by (simpl; lia).
Qed.
End IntegrationPhase.

Section Stepper.
Context {F quat mat4 mat3 : Type} `{FloatOps F} `{GlmOps F quat mat4 mat3}.
Implicit Types (b bi bj : CelestialBody F quat mat4) (bs : list (CelestialBody F quat mat4)).
Implicit Types (p : Publish mat4 mat3) (g : Globals F) (s : Sim F quat mat4 mat3) (dt G : F).

Lemma published_lengths amount bs p :
  asteroidInstanceIdx p = 0 →
  amount ≤ length (models p) → amount ≤ length (normals p) →
  length (models (published amount bs p)) = length (models p)
  ∧ length (normals (published amount bs p)) = length (normals p).
Proof.
  intros Hidx Hm Hn. unfold published. rewrite Hidx. simpl.
  rewrite !length_app, !length_fmap, !length_drop, Nat.sub_0_r.
  pose proof (length_take_le_bound := length_take (swarm bs) amount).
  lia.
Qed.

(** The arrays stay the ones the rebuild allocated. *)
Lemma updatePhysics_allocated g dt s s' :
  allocated g s → updatePhysics g dt s = Some s' → allocated g s'.
Proof.
  intros Ha Hs. destruct (effective g dt) eqn:Heff.
  - rewrite (updatePhysics_effective g dt s Ha Heff) in Hs.
    injection Hs as <-. destruct Ha as [Hm Hn].
    set (bodies := update _ <$> _).
    set (p0 := {| asteroidInstanceIdx := 0;
                  models := asteroidModelMatrices s;
                  normals := asteroidNormalMatrices s |}).
    destruct (published_lengths (asteroidAmount g) bodies p0) as [Hm' Hn'];
      [done | simpl; lia | simpl; lia |].
    split; [exact (eq_trans Hm' Hm) | exact (eq_trans Hn' Hn)].
  - rewrite updatePhysics_skipped in Hs by done. by injection Hs as <-.
Qed.

Lemma updatePhysics_total g dt s :
  allocated g s → is_Some (updatePhysics g dt s).
Proof.
  intros Ha. destruct (effective g dt) eqn:Heff.
  - by rewrite (updatePhysics_effective g dt s Ha Heff).
  - by rewrite updatePhysics_skipped.
Qed.

(** Body [k] after a frame that is not skipped: the force loop's
    acceleration, then [update]. *)
Lemma updatePhysics_body g dt s s' k b :
  allocated g s → effective g dt = true →
  updatePhysics g dt s = Some s' →
  celestialBodies s !! k = Some b →
  celestialBodies s' !! k
  = Some (update (dt ⊗ simulationSpeed g)
            (set_acceleration (received (G_scaled g) (celestialBodies s) k b) b)).
Proof.
  intros Ha Heff Hs Hk.
  rewrite (updatePhysics_effective g dt s Ha Heff) in Hs.
  injection Hs as <-. simpl.
  by rewrite list_lookup_fmap, accumulate_forces_lookup, Hk.
Qed.

Lemma pull_static G bi bj a : isStatic bi = true → pull G bi bj a = a.
Proof. intros Hs. unfold pull, applyForce. simpl. by rewrite Hs. Qed.

(** One frame leaves a body with [isStatic] set where it is. *)
Lemma static_body_frame g dt s k b :
  allocated g s → celestialBodies s !! k = Some b → isStatic b = true →
  ∃ s' b', updatePhysics g dt s = Some s' ∧ allocated g s'
    ∧ celestialBodies s' !! k = Some b'
    ∧ position b' = position b ∧ velocity b' = velocity b
    ∧ isStatic b' = true
    ∧ acceleration b' = if effective g dt then splat f0 else acceleration b.
Proof.
  intros Ha Hk Hstat.
  destruct (updatePhysics_total g dt s Ha) as [s' Hs'].
  pose proof (updatePhysics_allocated g dt s s' Ha Hs') as Ha'.
  destruct (effective g dt) eqn:Heff.
  - pose proof (updatePhysics_body g dt s s' k b Ha Heff Hs' Hk) as Hk'.
    eexists s', _. split_and!; [done|done|exact Hk'| | | |].
    + unfold update. simpl. by rewrite Hstat.
    + unfold update. simpl. by rewrite Hstat.
    + by rewrite update_isStatic.
    + apply update_acceleration.
  - rewrite updatePhysics_skipped in Hs' by done. injection Hs' as <-.
    exists s, b. by rewrite updatePhysics_skipped.
Qed.

(** C5: when the pause flag is set, or the scaled step [dt *
    simulationSpeed] compares equal to zero, [updatePhysics] returns the
    state it was given: bodies (position, velocity, acceleration and
    matrix), both instance arrays and the list of OpenGL calls are the
    same, so nothing is uploaded. *)
Theorem step_skipped_is_noop g dt s :
  pauseSimulation g = true ∨ (dt ⊗ simulationSpeed g ≐ f0) = true →
  updatePhysics g dt s = Some s
  ∧ (∀ s', updatePhysics g dt s = Some s' →
           celestialBodies s' = celestialBodies s ∧ gl_calls s' = gl_calls s).
Proof.
  intros Hskip.
  assert (updatePhysics g dt s = Some s) as Hs.
  { apply updatePhysics_skipped. unfold effective.
    destruct Hskip as [-> | ->]; [done|]. by rewrite andb_false_r. }
  split; [done|]. intros s'. rewrite Hs. by intros [= <-].
Qed.

(** C3: after a frame that is not skipped, a Swarm body has been
    integrated with the acceleration accumulated, in store order, from
    the bodies that are not Swarm, and from no other: no Swarm body
    contributes to it. *)
Theorem swarm_bodies_ignore_each_other g dt s k b :
  allocated g s → effective g dt = true →
  celestialBodies s !! k = Some b → isAsteroid b = true →
  ∃ s', updatePhysics g dt s = Some s'
    ∧ celestialBodies s' !! k
      = Some (update (dt ⊗ simulationSpeed g)
                (set_acceleration
                   (foldl (λ a bj, pull (G_scaled g) b bj a) (acceleration b)
                      (filter (λ bj, isAsteroid bj = false) (celestialBodies s)))
                   b)).
Proof.
  intros Ha Heff Hk Hast.
  destruct (updatePhysics_total g dt s Ha) as [s' Hs'].
  exists s'. split; [done|].
  rewrite (updatePhysics_body g dt s s' k b Ha Heff Hs' Hk).
  do 3 f_equal. set (bs := celestialBodies s) in *.
  assert (∀ l a,
    foldl (λ a bj, if isAsteroid bj then a else pull (G_scaled g) b bj a) a l
    = foldl (λ a bj, pull (G_scaled g) b bj a) a
        (filter (λ bj, isAsteroid bj = false) l)) as Hfilter.
  { induction l as [|bj l IH]; intros a; [done|].
    rewrite filter_cons. simpl. destruct (isAsteroid bj) eqn:Hj.
    - rewrite decide_False by done. apply IH.
    - rewrite decide_True by done. simpl. apply IH. }
  rewrite <- Hfilter, <- foldl_seq_lookup.
  unfold received. destruct (isStatic b) eqn:Hstat.
  - generalize (seq 0 (length bs)). intros js.
    induction js as [|j js IH]; simpl; [done|].
    destruct (bs !! j) as [bj|]; [|done].
    destruct (isAsteroid bj); [done|]. by rewrite pull_static.
  - apply foldl_ext. intros a j. unfold acc_step.
    destruct (bs !! j) as [bj|] eqn:Hj; [|done].
    rewrite Hast. simpl.
    destruct (decide (k = j)) as [->|]; [|done].
    assert (bj = b) as -> by congruence. by rewrite Hast.
Qed.

(** C4: after a frame that is not skipped, every body without
    [isStatic] has been advanced by semi-implicit Euler with the step
    [dt * simulationSpeed]: the new velocity is the old one plus the
    accumulated acceleration times the step, the new position is the old
    one plus the new velocity times the step, the acceleration is zero
    again, and the matrix is translate * rotate * scale of the new
    position, the orientation and the scale; the other fields are as
    before. *)
Theorem bodies_advance_by_semi_implicit_euler g dt s i b :
  allocated g s → pauseSimulation g = false →
  (dt ⊗ simulationSpeed g ≐ f0) = false →
  celestialBodies s !! i = Some b → isStatic b = false →
  let dt' := dt ⊗ simulationSpeed g in
  let a := received (G_scaled g) (celestialBodies s) i b in
  ∃ s' b', updatePhysics g dt s = Some s'
    ∧ length (celestialBodies s') = length (celestialBodies s)
    ∧ celestialBodies s' !! i = Some b'
    ∧ velocity b' = vadd (velocity b) (vmuls a dt')
    ∧ position b' = vadd (position b) (vmuls (velocity b') dt')
    ∧ acceleration b' = splat f0
    ∧ modelMatrix b'
      = mat4_mul (mat4_mul (translate (mat4_diag f1) (position b'))
                           (mat4_cast (orientation b')))
                 (scale (mat4_diag f1) (splat (radiusScale b')))
    ∧ (mass b', radiusScale b', orientation b', isStatic b', isAsteroid b')
      = (mass b, radiusScale b, orientation b, isStatic b, isAsteroid b).
Proof.
  intros Ha Hpause Hdt Hi Hstat dt' a.
  assert (effective g dt = true) as Heff.
  { unfold effective. by rewrite Hpause, Hdt. }
  destruct (updatePhysics_total g dt s Ha) as [s' Hs'].
  pose proof (updatePhysics_body g dt s s' i b Ha Heff Hs' Hi) as Hi'.
  eexists s', _. split; [done|]. split.
  { rewrite (updatePhysics_effective g dt s Ha Heff) in Hs'.
    injection Hs' as <-. simpl.
    by rewrite length_fmap, accumulate_forces_length. }
  split; [exact Hi'|].
  unfold update. simpl. rewrite Hstat. simpl. by rewrite Hstat.
Qed.
End Stepper.

Section Frames.
Context {F quat mat4 mat3 : Type} `{FloatOps F} `{GlmOps F quat mat4 mat3}.
Implicit Types (b bi bj : CelestialBody F quat mat4) (bs : list (CelestialBody F quat mat4)).
Implicit Types (p : Publish mat4 mat3) (g : Globals F) (s : Sim F quat mat4 mat3) (dt G : F).

(** Any number of frames leaves a body with [isStatic] set where it is. *)
Lemma static_body_run g k dts : ∀ s b,
  allocated g s → celestialBodies s !! k = Some b → isStatic b = true →
  ∃ s' b', run g dts s = Some s'
    ∧ celestialBodies s' !! k = Some b'
    ∧ position b' = position b ∧ velocity b' = velocity b
    ∧ isStatic b' = true
    ∧ acceleration b'
      = if existsb (effective g) dts then splat f0 else acceleration b.
Proof.
  induction dts as [|dt dts IH]; intros s b Ha Hk Hstat.
  { by exists s, b. }
  destruct (static_body_frame g dt s k b Ha Hk Hstat)
    as (s1 & b1 & Hs1 & Ha1 & Hk1 & Hp1 & Hv1 & Hst1 & Hacc1).
  destruct (IH s1 b1 Ha1 Hk1 Hst1) as (s' & b' & Hs' & Hk' & Hp & Hv & Hst & Hacc).
  exists s', b'. simpl. rewrite Hs1. simpl.
  split_and!; [done|done|congruence|congruence|done|].
  rewrite Hacc, Hacc1.
  by destruct (effective g dt), (existsb (effective g) dts).
Qed.

Lemma swarm_length_pointwise bs bs' :
  Forall2 (λ b b', isAsteroid b = isAsteroid b') bs bs' →
  length (swarm bs) = length (swarm bs').
Proof.
  induction 1 as [|b b' bs bs' Hb _ IH]; [done|].
  rewrite !swarm_cons, Hb. destruct (isAsteroid b'); simpl; by rewrite IH.
Qed.

(** The step neither adds nor removes Swarm bodies. *)
Lemma swarm_length_step G dt bs :
  length (swarm (update dt <$> accumulate_forces G bs)) = length (swarm bs).
Proof.
  apply swarm_length_pointwise, Forall2_same_length_lookup. split.
  - by rewrite length_fmap, accumulate_forces_length.
  - intros k b' b. rewrite list_lookup_fmap, accumulate_forces_lookup.
    intros Hb' Hb. rewrite Hb in Hb'. simpl in Hb'.
    injection Hb' as <-. by rewrite update_isAsteroid.
Qed.

(** What a frame that is not skipped leaves in the instance arrays and
    in the list of OpenGL calls. *)
Lemma updatePhysics_published g dt s :
  allocated g s → effective g dt = true →
  let n := min (length (swarm (celestialBodies s))) (asteroidAmount g) in
  ∃ s', updatePhysics g dt s = Some s'
    ∧ length (asteroidModelMatrices s') = asteroidAmount g
    ∧ length (asteroidNormalMatrices s') = asteroidAmount g
    ∧ n ≤ asteroidAmount g
    ∧ take n (asteroidModelMatrices s')
      = (λ b, Some (modelMatrix b)) <$> take n (swarm (celestialBodies s'))
    ∧ take n (asteroidNormalMatrices s')
      = (λ b, Some (normal_matrix (modelMatrix b)))
        <$> take n (swarm (celestialBodies s'))
    ∧ drop n (asteroidModelMatrices s') = drop n (asteroidModelMatrices s)
    ∧ drop n (asteroidNormalMatrices s') = drop n (asteroidNormalMatrices s)
    ∧ gl_calls s'
      = gl_calls s
        ++ if bool_decide (0 < n)
              && negb (asteroidInstanceVBO g =? 0)%N
              && negb (asteroidNormalInstanceVBO g =? 0)%N
           then [ glBindBuffer (asteroidInstanceVBO g);
                  glBufferSubData_mat4 0 (N.of_nat n * 64)
                    (take n (asteroidModelMatrices s'));
                  glBindBuffer (asteroidNormalInstanceVBO g);
                  glBufferSubData_mat3 0 (N.of_nat n * 36)
                    (take n (asteroidNormalMatrices s'));
                  glBindBuffer 0%N ]
           else [].
Proof.
  intros Ha Heff n.
  destruct (updatePhysics_total g dt s Ha) as [s' Hs'].
  pose proof (updatePhysics_allocated g dt s s' Ha Hs') as [Hm' Hn'].
  exists s'. split_and!; [done|done|done|lia|..];
    rewrite (updatePhysics_effective g dt s Ha Heff) in Hs';
    injection Hs' as <-; unfold published, upload;
    cbn [celestialBodies asteroidModelMatrices asteroidNormalMatrices gl_calls
         asteroidInstanceIdx models normals];
    set (bodies := update _ <$> _);
    rewrite Nat.sub_0_r;
    pose proof (swarm_length_step (G_scaled g) (dt ⊗ simulationSpeed g)
                  (celestialBodies s)) as Hlen; fold bodies in Hlen;
    assert (length (take (asteroidAmount g) (swarm bodies)) = n) as Hw
      by (rewrite length_take; lia);
    assert (take (asteroidAmount g) (swarm bodies) = take n (swarm bodies)) as Hwn
      by (destruct (decide (asteroidAmount g ≤ length (swarm bodies)));
          [by replace n with (asteroidAmount g) by lia
          |by rewrite !take_ge by lia]);
    rewrite Hw; simpl.
  - rewrite take_app_length' by (by rewrite length_fmap). by rewrite Hwn.
  - rewrite take_app_length' by (by rewrite length_fmap). by rewrite Hwn.
  - by rewrite drop_app_length' by (by rewrite length_fmap).
  - by rewrite drop_app_length' by (by rewrite length_fmap).
  - f_equal. rewrite !take_app_length' by (by rewrite length_fmap).
    destruct (decide (0 < n)) as [Hpos|Hz].
    + by rewrite !bool_decide_eq_true_2 by lia.
    + rewrite (bool_decide_eq_false_2 (0 < n)) by done.
      by rewrite andb_false_r.
Qed.

(** C10: in a frame that is not skipped, started with both instance
    arrays of the size [asteroidAmount] the rebuild gave them, every write
    lands inside the arrays whatever the number of Swarm bodies in the
    store: the step succeeds, the arrays keep their size, exactly
    [n = min (Swarm bodies) asteroidAmount] slots are written, with the
    matrices of the first [n] Swarm bodies in store order, every slot from
    [n] on is untouched, and the upload, when there is one, covers [n]
    instances. *)
Theorem publish_stays_within_allocation g dt s :
  allocated g s → pauseSimulation g = false →
  (dt ⊗ simulationSpeed g ≐ f0) = false →
  let n := min (length (swarm (celestialBodies s))) (asteroidAmount g) in
  ∃ s', updatePhysics g dt s = Some s'
    ∧ length (asteroidModelMatrices s') = asteroidAmount g
    ∧ length (asteroidNormalMatrices s') = asteroidAmount g
    ∧ n ≤ asteroidAmount g
    ∧ take n (asteroidModelMatrices s')
      = (λ b, Some (modelMatrix b)) <$> take n (swarm (celestialBodies s'))
    ∧ take n (asteroidNormalMatrices s')
      = (λ b, Some (normal_matrix (modelMatrix b)))
        <$> take n (swarm (celestialBodies s'))
    ∧ drop n (asteroidModelMatrices s') = drop n (asteroidModelMatrices s)
    ∧ drop n (asteroidNormalMatrices s') = drop n (asteroidNormalMatrices s)
    ∧ gl_calls s'
      = gl_calls s
        ++ if bool_decide (0 < n)
              && negb (asteroidInstanceVBO g =? 0)%N
              && negb (asteroidNormalInstanceVBO g =? 0)%N
           then [ glBindBuffer (asteroidInstanceVBO g);
                  glBufferSubData_mat4 0 (N.of_nat n * 64)
                    (take n (asteroidModelMatrices s'));
                  glBindBuffer (asteroidNormalInstanceVBO g);
                  glBufferSubData_mat3 0 (N.of_nat n * 36)
                    (take n (asteroidNormalMatrices s'));
                  glBindBuffer 0%N ]
           else [].
Proof.
  intros Ha Hpause Hdt. apply updatePhysics_published; [done|].
  unfold effective. by rewrite Hpause, Hdt.
Qed.
End Frames.

Section Rebuild.
Context {F quat mat4 mat3 : Type}.
Context `{FloatOps F} `{Libm F} `{GlmOps F quat mat4 mat3} `{RngOps F}.
Implicit Types (b : CelestialBody F quat mat4) (bs : list (CelestialBody F quat mat4)).
Implicit Types (g : Globals F) (s : Sim F quat mat4 mat3) (dt : F) (rng : mt19937).

Lemma make_asteroid_isAsteroid g rng : isAsteroid (make_asteroid g rng).1 = true.
Proof. unfold make_asteroid. by draw_all. Qed.

(** The generated state of an asteroid and the engine after it depend
    on the globals through [swarm_config] only. *)
Lemma make_asteroid_config g1 g2 rng :
  swarm_config g1 = swarm_config g2 →
  physical (make_asteroid g1 rng).1 = physical (make_asteroid g2 rng).1
  ∧ (make_asteroid g1 rng).2 = (make_asteroid g2 rng).2.
Proof.
  unfold swarm_config. intros [= Hn Hsun HG Hin Hout Hh Havg Hmin Hmax].
  unfold make_asteroid, orbital_speed.
  rewrite Hsun, HG, Hin, Hout, Hh, Havg, Hmin, Hmax.
  by draw_all.
Qed.

(** The asteroid loop appends [n] Swarm bodies to the vector. *)
Lemma make_asteroids_app g n : ∀ rng bs,
  ∃ rocks, make_asteroids g n rng bs = bs ++ rocks
    ∧ length rocks = n ∧ swarm rocks = rocks.
Proof.
  induction n as [|n IH]; intros rng bs; simpl.
  { exists []. by rewrite app_nil_r. }
  pose proof (make_asteroid_isAsteroid g rng) as Hast.
  destruct (make_asteroid g rng) as [b rng']. simpl in Hast.
  destruct (IH rng' (bs ++ [b])) as (rocks & -> & Hlen & Hsw).
  exists (b :: rocks). rewrite <- app_assoc. simpl.
  split_and!; [done|by rewrite Hlen|].
  by rewrite swarm_cons, Hast, Hsw.
Qed.

Lemma make_asteroids_config g1 g2 n : ∀ rng bs1 bs2,
  swarm_config g1 = swarm_config g2 →
  physical <$> swarm bs1 = physical <$> swarm bs2 →
  physical <$> swarm (make_asteroids g1 n rng bs1)
  = physical <$> swarm (make_asteroids g2 n rng bs2).
Proof.
  induction n as [|n IH]; intros rng bs1 bs2 Hcfg Hbs; simpl; [done|].
  destruct (make_asteroid_config g1 g2 rng Hcfg) as [Hphys Hrng].
  pose proof (make_asteroid_isAsteroid g1 rng) as Hast1.
  pose proof (make_asteroid_isAsteroid g2 rng) as Hast2.
  destruct (make_asteroid g1 rng) as [b1 rng1].
  destruct (make_asteroid g2 rng) as [b2 rng2]. simpl in *. subst rng2.
  apply IH; [done|]. unfold swarm in *.
  rewrite !filter_app, !fmap_app, Hbs. f_equal.
  rewrite !filter_cons, !decide_True by done. simpl. by rewrite Hphys.
Qed.

(** After a rebuild the store is the sun, the planet and
    [asteroidAmount] Swarm bodies, and both arrays have that size. *)
Lemma initializeCelestialBodies_store g seed s :
  ∃ rocks,
    celestialBodies (initializeCelestialBodies g seed s)
    = make_sun g :: make_planet g :: rocks
    ∧ length rocks = asteroidAmount g ∧ swarm rocks = rocks.
Proof.
  unfold initializeCelestialBodies. simpl.
  destruct (make_asteroids_app g (asteroidAmount g) (mt19937_seed seed)
              [make_sun g; make_planet g]) as (rocks & -> & Hlen & Hsw).
  by exists rocks.
Qed.

Lemma initializeCelestialBodies_swarm g seed s :
  length (swarm (celestialBodies (initializeCelestialBodies g seed s)))
  = asteroidAmount g.
Proof.
  destruct (initializeCelestialBodies_store g seed s) as (rocks & -> & Hlen & Hsw).
  rewrite !swarm_cons. simpl. by rewrite Hsw.
Qed.

Lemma initializeCelestialBodies_allocated g seed s :
  allocated g (initializeCelestialBodies g seed s).
Proof.
  unfold allocated, initializeCelestialBodies. simpl.
  destruct (decide (0 < asteroidAmount g)); simpl;
    rewrite ?length_replicate; lia.
Qed.

Lemma initializeCelestialBodies_arrays g seed s :
  asteroidModelMatrices (initializeCelestialBodies g seed s)
  = replicate (asteroidAmount g) None
  ∧ asteroidNormalMatrices (initializeCelestialBodies g seed s)
    = replicate (asteroidAmount g) None.
Proof.
  unfold initializeCelestialBodies. simpl.
  destruct (decide (0 < asteroidAmount g)); [done|].
  by replace (asteroidAmount g) with 0 by lia.
Qed.

(** A rebuild leaves the sun at the origin and at rest in slot 0, the
    planet in slot 1, [asteroidAmount] further bodies behind them, and both
    instance arrays with [asteroidAmount] slots, none of them written. *)
Theorem rebuild_store_layout g seed s0 :
  let s := initializeCelestialBodies g seed s0 in
  celestialBodies s !! 0 = Some (make_sun g)
  ∧ position (make_sun g) = splat f0 ∧ velocity (make_sun g) = splat f0
  ∧ celestialBodies s !! 1 = Some (make_planet g)
  ∧ length (celestialBodies s) = 2 + asteroidAmount g
  ∧ asteroidModelMatrices s = replicate (asteroidAmount g) None
  ∧ asteroidNormalMatrices s = replicate (asteroidAmount g) None
  ∧ gl_calls s = gl_calls s0.
Proof.
  intros s.
  destruct (initializeCelestialBodies_store g seed s0) as (rocks & Hs & Hlen & _).
  destruct (initializeCelestialBodies_arrays g seed s0) as [Hm Hn].
  fold s in Hs, Hm, Hn. rewrite Hs, Hm, Hn. simpl. by rewrite Hlen.
Qed.

(** C1 (as the code has it): the sun [initializeCelestialBodies] creates
    does not carry [isStatic].  For a body that does carry it, position
    and velocity are the same after any number of frames, whatever the
    [dt] of each, and its acceleration is zero once a frame has not been
    skipped, whatever force was applied to it. *)
Theorem static_bodies_stay_put g seed s0 dts s k b :
  allocated g s → celestialBodies s !! k = Some b → isStatic b = true →
  (celestialBodies (initializeCelestialBodies g seed s0) !! 0 = Some (make_sun g)
   ∧ isStatic (make_sun g) = false)
  ∧ ∃ s' b', run g dts s = Some s'
      ∧ celestialBodies s' !! k = Some b'
      ∧ position b' = position b ∧ velocity b' = velocity b
      ∧ acceleration b'
        = if existsb (effective g) dts then splat f0 else acceleration b.
Proof.
  intros Ha Hk Hstat. split.
  - destruct (initializeCelestialBodies_store g seed s0) as (rocks & -> & _).
    done.
  - destruct (static_body_run g k dts s b Ha Hk Hstat)
      as (s' & b' & Hrun & Hk' & Hp & Hv & _ & Hacc).
    by exists s', b'.
Qed.

(** C9: two rebuilds with the same seed, from globals that agree on what
    the asteroid loop reads (count, sun mass, gravitational constant, belt
    geometry, mass and scale ranges), give the same Swarm population,
    body by body in position, velocity, mass, scale and orientation,
    whatever the store held before and whatever the other globals are. *)
Theorem rebuild_is_deterministic g1 g2 seed s1 s2 :
  swarm_config g1 = swarm_config g2 →
  physical <$> swarm (celestialBodies (initializeCelestialBodies g1 seed s1))
  = physical <$> swarm (celestialBodies (initializeCelestialBodies g2 seed s2)).
Proof.
  intros Hcfg. unfold initializeCelestialBodies.
  cbn [celestialBodies].
  assert (asteroidAmount g1 = asteroidAmount g2) as ->.
  { unfold swarm_config in Hcfg. by injection Hcfg. }
  by apply make_asteroids_config.
Qed.

(** C8: after a rebuild with [asteroidAmount = N] the store holds exactly
    [N] Swarm bodies; a following frame that is not skipped succeeds and
    leaves in the two instance arrays exactly [N] pairs, slot [k] holding
    the matrix [m] of the [k]-th Swarm body in store order and
    [glm::transpose(glm::inverse(glm::mat3(m)))], the transposed inverse
    of its upper 3x3; the upload, made when [N > 0] and both buffer
    objects exist, covers [N] instances. *)
Theorem rebuild_then_step_publishes_swarm g seed s0 dt :
  pauseSimulation g = false → (dt ⊗ simulationSpeed g ≐ f0) = false →
  let s1 := initializeCelestialBodies g seed s0 in
  let N := asteroidAmount g in
  length (swarm (celestialBodies s1)) = N
  ∧ ∃ s2, updatePhysics g dt s1 = Some s2
      ∧ length (swarm (celestialBodies s2)) = N
      ∧ asteroidModelMatrices s2
        = (λ b, Some (modelMatrix b)) <$> swarm (celestialBodies s2)
      ∧ asteroidNormalMatrices s2
        = (λ b, Some (transpose (inverse (mat3_of_mat4 (modelMatrix b)))))
          <$> swarm (celestialBodies s2)
      ∧ gl_calls s2
        = gl_calls s0
          ++ if bool_decide (0 < N)
                && negb (asteroidInstanceVBO g =? 0)%N
                && negb (asteroidNormalInstanceVBO g =? 0)%N
             then [ glBindBuffer (asteroidInstanceVBO g);
                    glBufferSubData_mat4 0 (N.of_nat N * 64)
                      (asteroidModelMatrices s2);
                    glBindBuffer (asteroidNormalInstanceVBO g);
                    glBufferSubData_mat3 0 (N.of_nat N * 36)
                      (asteroidNormalMatrices s2);
                    glBindBuffer 0%N ]
             else [].
Proof.
  intros Hpause Hdt s1 N.
  pose proof (initializeCelestialBodies_swarm g seed s0) as Hsw. fold s1 N in Hsw.
  pose proof (initializeCelestialBodies_allocated g seed s0) as Ha. fold s1 in Ha.
  split; [done|].
  assert (effective g dt = true) as Heff
    by (unfold effective; by rewrite Hpause, Hdt).
  destruct (updatePhysics_published g dt s1 Ha Heff)
    as (s2 & Hs2 & Hm & Hn & _ & Htm & Htn & _ & _ & Hgl).
  rewrite Hsw, Nat.min_id in Htm, Htn, Hgl. fold N in Hm, Hn, Htm, Htn, Hgl.
  assert (length (swarm (celestialBodies s2)) = N) as Hsw2.
  { rewrite (updatePhysics_effective g dt s1 Ha Heff) in Hs2.
    injection Hs2 as <-. cbn [celestialBodies].
    by rewrite swarm_length_step. }
  rewrite !take_ge in Htm by lia. rewrite !take_ge in Htn by lia.
  rewrite !take_ge in Hgl by lia.
  unfold normal_matrix in Htn.
  exists s2. split_and!; [done..|].
  rewrite Hgl. by unfold s1, initializeCelestialBodies.
Qed.
End Rebuild.

Section ForceRule.
Context {F quat mat4 mat3 : Type} `{FloatOps F} `{GlmOps F quat mat4 mat3}.
Implicit Types (b bi bj : CelestialBody F quat mat4) (bs : list (CelestialBody F quat mat4)).
Implicit Types (G : F) (force : vec3 F).

(** What one inner iteration does for a pair that is not skipped. *)
Lemma interact_applies G bs i j bi bj :
  bs !! i = Some bi → bs !! j = Some bj → i ≠ j →
  isAsteroid bi && isAsteroid bj = false →
  interact G i j bs = <[i := applyForce (force_vec G bi bj) bi]> bs.
Proof.
  intros Hi Hj Hij Hpair. unfold interact.
  by rewrite Hi, Hj, decide_False, Hpair by done.
Qed.

Lemma applyForce_massless force b :
  (mass b ≐ f0) = true → applyForce force b = b.
Proof. intros Hm. unfold applyForce. by rewrite Hm, orb_true_r. Qed.

(** C2 (as the code has it): for a pair ([i], [j]) of distinct bodies, not
    both Swarm, with body [i] neither static nor of zero mass, the inner
    iteration adds to the acceleration of body [i], and changes nothing
    else, [G * mass[i] * mass[j] / max(|r|^2, 1e-4)] times
    [r / sqrt(max(|r|^2, 1e-4))], divided by [mass[i]], with
    [r = position[j] - position[i]].  The direction is [r] over the
    softened length; it is the unit vector from [i] toward [j] when the floor
    does not apply, that is when [|r|^2 < 1e-4] is false. *)
Theorem pair_contribution_is_softened G bs i j bi bj :
  bs !! i = Some bi → bs !! j = Some bj → i ≠ j →
  isAsteroid bi && isAsteroid bj = false →
  isStatic bi = false → (mass bi ≐ f0) = false →
  let r := vsub (position bj) (position bi) in
  (f0 ≺ fsqrt (soften (dot r r))) = true →
  interact G i j bs
  = <[i := set_acceleration
             (vadd (acceleration bi) (softened_contribution G bi bj)) bi]> bs
  ∧ ((dot r r ≺ epsilon_sq) = false →
     softened_contribution G bi bj = spec_contribution G bi bj).
Proof.
  intros Hi Hj Hij Hpair Hstat Hmass r Hpos. split.
  - rewrite (interact_applies G bs i j bi bj) by done.
    f_equal. unfold applyForce. rewrite Hstat, Hmass. simpl.
    do 2 f_equal. unfold force_vec, softened_contribution.
    fold r. fold (soften (dot r r)). by rewrite Hpos.
  - intros Hfar. unfold softened_contribution, spec_contribution, unit_vector.
    fold r. unfold soften. by rewrite Hfar.
Qed.

(** C6 (as the code has it): a body whose mass compares equal to zero
    receives no force: [applyForce] returns it unchanged, and the inner
    iteration that would pull it leaves the store as it is.  It still
    pulls every other body by the common rule: the iteration for body [i]
    applies [force_vec] of the pair, computed from its position and its
    mass like for any other body. *)
Theorem massless_bodies_receive_no_force G bs i j bi bj force :
  bs !! i = Some bi → bs !! j = Some bj → i ≠ j →
  isAsteroid bi && isAsteroid bj = false →
  (mass bj ≐ f0) = true →
  applyForce force bj = bj
  ∧ interact G j i bs = bs
  ∧ interact G i j bs = <[i := applyForce (force_vec G bi bj) bi]> bs.
Proof.
  intros Hi Hj Hij Hpair Hm. split_and!.
  - by apply applyForce_massless.
  - rewrite (interact_applies G bs j i bj bi) by (by rewrite 1?andb_comm).
    rewrite applyForce_massless by done. by apply list_insert_id.
  - by apply interact_applies.
Qed.
End ForceRule.

Section ExactArithmetic.
Import Exact.
Context {quat mat4 mat3 : Type} `{GlmOps R quat mat4 mat3} `{RngOps R}.
Implicit Types (g : Globals R) (s : Sim R quat mat4 mat3).

Lemma f0_exact : f0 = 0%R.
Proof. unfold f0. simpl. lra. Qed.



(** Newton's third law holds in exact arithmetic: the forces a pair of
    bodies exert on each other sum to zero, softened or not. *)
Theorem forces_are_opposite_in_exact_arithmetic (G : R)
    (bi bj : CelestialBody R quat mat4) :
  vadd (force_vec G bi bj) (force_vec G bj bi) = splat f0.
Proof.
  unfold force_vec.
  set (r := vsub (position bj) (position bi)).
  set (r' := vsub (position bi) (position bj)).
  assert (dot r' r' = dot r r) as ->.
  { unfold dot, r, r', vsub. simpl. ring. }
  set (d := if dot r r ≺ epsilon_sq then epsilon_sq else dot r r).
  assert (G ⊗ mass bj ⊗ mass bi = G ⊗ mass bi ⊗ mass bj) as ->.
  { simpl. ring. }
  unfold vadd, smulv, vdivs, splat. rewrite f0_exact.
  unfold r, r', vsub. simpl.
  destruct (Rlt_dec 0 (sqrt d)); simpl; f_equal; unfold Rdiv; ring.
Qed.

End ExactArithmetic.

Section Orbit.
Import Exact.

End Orbit.

Section Session.
Context {F quat mat4 mat3 : Type}.
Context `{FloatOps F} `{Libm F} `{GlmOps F quat mat4 mat3} `{RngOps F}.
Implicit Types (b : CelestialBody F quat mat4) (bs : list (CelestialBody F quat mat4)).
Implicit Types (g : Globals F) (s : Sim F quat mat4 mat3) (a : App F quat mat4 mat3).
Implicit Types (w : Widgets F) (i : FrameInput F) (vaos : list N).

Lemma setup_globals vaos names g :
  ∃ vbo nvbo,
    (setupAsteroidInstanceBuffers vaos names g).1 = set_instance_buffers vbo nvbo g.
Proof.
  unfold setupAsteroidInstanceBuffers.
  destruct (bool_decide (asteroidAmount g = 0) || _); simpl; eauto.
Qed.

Lemma resetSimulation_sim vaos seed names a :
  sim (resetSimulation vaos seed names a)
  = initializeCelestialBodies (globals a) seed (sim a).
Proof.
  unfold resetSimulation.
  by destruct (setupAsteroidInstanceBuffers vaos names (globals a)).
Qed.

Lemma resetSimulation_globals vaos seed names a :
  ∃ vbo nvbo,
    globals (resetSimulation vaos seed names a)
    = set_instance_buffers vbo nvbo (globals a).
Proof.
  unfold resetSimulation.
  destruct (setup_globals vaos names (globals a)) as (vbo & nvbo & Hg).
  destruct (setupAsteroidInstanceBuffers vaos names (globals a)) as [g' calls].
  simpl in *. eauto.
Qed.

Lemma resetSimulation_amount vaos seed names a :
  asteroidAmount (globals (resetSimulation vaos seed names a))
  = asteroidAmount (globals a).
Proof.
  by destruct (resetSimulation_globals vaos seed names a) as (? & ? & ->).
Qed.

Lemma resetSimulation_pause vaos seed names a :
  pauseSimulation (globals (resetSimulation vaos seed names a))
  = pauseSimulation (globals a).
Proof.
  by destruct (resetSimulation_globals vaos seed names a) as (? & ? & ->).
Qed.

(** [resetSimulation] establishes what holds between frames, from any
    state. *)
Lemma resetSimulation_between_frames vaos seed names a :
  between_frames (resetSimulation vaos seed names a).
Proof.
  unfold between_frames, allocated.
  rewrite resetSimulation_sim, resetSimulation_amount.
  pose proof (initializeCelestialBodies_allocated (globals a) seed (sim a)) as [Hm Hn].
  destruct (initializeCelestialBodies_store (globals a) seed (sim a))
    as (rocks & Hs & _).
  split_and!; [done|done| |by rewrite Hs].
  apply initializeCelestialBodies_swarm.
Qed.

Lemma patch_sun_swarm w g bs :
  length (swarm (patch_sun w g bs)) = length (swarm bs).
Proof.
  unfold patch_sun. destruct (sunChanged w); [|done].
  destruct bs as [|b0 rest]; [done|]. rewrite !swarm_cons. simpl.
  by destruct (isAsteroid b0).
Qed.

Lemma patch_sun_nil w g bs : patch_sun w g bs = [] ↔ bs = [].
Proof.
  unfold patch_sun. destruct (sunChanged w); [|done].
  by destruct bs.
Qed.

Lemma updatePhysics_between_frames g dt s :
  allocated g s → length (swarm (celestialBodies s)) = asteroidAmount g →
  celestialBodies s ≠ [] →
  ∃ s', updatePhysics g dt s = Some s'
    ∧ allocated g s'
    ∧ length (swarm (celestialBodies s')) = asteroidAmount g
    ∧ celestialBodies s' ≠ [].
Proof.
  intros Ha Hsw Hne.
  destruct (updatePhysics_total g dt s Ha) as [s' Hs'].
  exists s'. split; [done|]. split; [by eapply updatePhysics_allocated|].
  destruct (effective g dt) eqn:Heff.
  - rewrite (updatePhysics_effective g dt s Ha Heff) in Hs'.
    injection Hs' as <-. cbn [celestialBodies].
    rewrite swarm_length_step. split; [done|].
    intros Hnil. apply Hne.
    apply (f_equal length) in Hnil.
    rewrite length_fmap, accumulate_forces_length in Hnil.
    by destruct (celestialBodies s).
  - rewrite updatePhysics_skipped in Hs' by done. by injection Hs' as <-.
Qed.

Lemma before_physics_between_frames vaos i a :
  between_frames a → between_frames (before_physics vaos i a).
Proof.
  intros (Ha & Hsw & Hne). unfold before_physics.
  assert (between_frames (after_count_reset vaos i a)) as Hbetween.
  { unfold after_count_reset. case_bool_decide as Hmoved.
    - apply resetSimulation_between_frames.
    - assert (asteroidCount_slider (widgets i) = None) as Hnone.
      { destruct (asteroidCount_slider (widgets i)); [|done]. by destruct Hmoved. }
      unfold between_frames, allocated. simpl.
      rewrite Hnone, patch_sun_swarm. simpl.
      split_and!; [apply Ha|apply Ha|done|].
      by rewrite patch_sun_nil. }
  destruct (reset_clicked (widgets i)); [|done].
  apply resetSimulation_between_frames.
Qed.

(** What a pass of the loop is, from a state as it is between frames:
    the panel, then a call of [updatePhysics] that succeeds. *)
Lemma control_frame_physics vaos i a :
  between_frames a →
  ∃ s', updatePhysics (globals (before_physics vaos i a)) (deltaTime i)
          (sim (before_physics vaos i a)) = Some s'
    ∧ control_frame vaos i a
      = Some {| globals := globals (before_physics vaos i a);
                sim := s';
                setup_calls := setup_calls (before_physics vaos i a) |}.
Proof.
  intros Hinv.
  destruct (before_physics_between_frames vaos i a Hinv) as (Ha & Hsw & Hne).
  destruct (updatePhysics_total _ (deltaTime i) _ Ha) as [s' Hs'].
  exists s'. split; [done|]. unfold control_frame.
  destruct (celestialBodies (sim (before_physics vaos i a))); [done|].
  by rewrite Hs'.
Qed.

(** A pass of the loop never fails from a state as it is between frames,
    and ends in such a state. *)
Lemma control_frame_between_frames vaos i a :
  between_frames a →
  ∃ a', control_frame vaos i a = Some a' ∧ between_frames a'.
Proof.
  intros Hinv.
  destruct (control_frame_physics vaos i a Hinv) as (s' & Hs' & ->).
  destruct (before_physics_between_frames vaos i a Hinv) as (Ha & Hsw & Hne).
  destruct (updatePhysics_between_frames _ (deltaTime i) _ Ha Hsw Hne)
    as (s'' & Hs'' & Hinv').
  rewrite Hs' in Hs''. injection Hs'' as <-. by eexists.
Qed.

(** Over a whole session, from the state [main] enters its loop with and
    for every sequence of widget events, frame times, clock readings and
    buffer names, no call of [updatePhysics] writes outside the instance
    arrays: every pass succeeds.  Between passes the arrays have
    [asteroidAmount] slots and the store holds exactly [asteroidAmount]
    Swarm bodies, whatever the asteroid count slider did. *)
Theorem session_never_leaves_the_arrays vaos seed names g inputs :
  ∃ a, run_frames vaos inputs (startup vaos seed names g) = Some a
    ∧ length (asteroidModelMatrices (sim a)) = asteroidAmount (globals a)
    ∧ length (asteroidNormalMatrices (sim a)) = asteroidAmount (globals a)
    ∧ length (swarm (celestialBodies (sim a))) = asteroidAmount (globals a).
Proof.
  assert (∀ a0, between_frames a0 →
            ∃ a, run_frames vaos inputs a0 = Some a ∧ between_frames a) as Hrun.
  { induction inputs as [|i inputs IH]; intros a0 Hinv; simpl.
    - by exists a0.
    - destruct (control_frame_between_frames vaos i a0 Hinv) as (a1 & -> & Hinv1).
      simpl. by apply IH. }
  destruct (Hrun (startup vaos seed names g)) as (a & Ha & (Hm & Hn) & Hsw & _).
  { apply resetSimulation_between_frames. }
  by exists a.
Qed.

(** *** What the panel leaves for the physics call *)

Lemma set_instance_buffers_same g :
  set_instance_buffers (asteroidInstanceVBO g) (asteroidNormalInstanceVBO g) g = g.
Proof. by destruct g. Qed.

Lemma effective_buffers vbo nvbo g dt :
  effective (set_instance_buffers vbo nvbo g) dt = effective g dt.
Proof. done. Qed.

Lemma initializeCelestialBodies_gl_calls g seed s :
  gl_calls (initializeCelestialBodies g seed s) = gl_calls s.
Proof. done. Qed.

Lemma resetSimulation_gl_calls vaos seed names a :
  gl_calls (sim (resetSimulation vaos seed names a)) = gl_calls (sim a).
Proof. by rewrite resetSimulation_sim. Qed.

(** What [resetSimulation] does to the buffers: the names, and the calls
    it appends. *)
Lemma resetSimulation_buffers vaos seed names a :
  let g := globals a in
  let no_buffers :=
    bool_decide (asteroidAmount g = 0)
    || (if rockModelPtr g is NoModel then true else false) in
  globals (resetSimulation vaos seed names a)
  = set_instance_buffers (if no_buffers then 0%N else names.1)
      (if no_buffers then 0%N else names.2) g
  ∧ ∃ deleted,
      setup_calls (resetSimulation vaos seed names a)
      = setup_calls a ++ deleted
        ++ if no_buffers then []
           else [ GlGenBuffers names.1; GlBindBuffer names.1;
                  GlBufferData (N.of_nat (asteroidAmount g) * 64);
                  GlGenBuffers names.2; GlBindBuffer names.2;
                  GlBufferData (N.of_nat (asteroidAmount g) * 36) ]
                ++ flat_map (λ vao, instance_attributes vao names.1 names.2) vaos
                ++ [ GlBindBuffer 0%N ].
Proof.
  intros g no_buffers. unfold resetSimulation, setupAsteroidInstanceBuffers.
  fold g. fold no_buffers. destruct no_buffers; simpl.
  - split; [done|]. eexists. by rewrite app_nil_r.
  - split; [done|]. by eexists.
Qed.

Lemma before_physics_after_count_reset vaos i a :
  before_physics vaos i a
  = if reset_clicked (widgets i)
    then resetSimulation vaos (button_reset_seed i) (button_reset_names i)
           (after_count_reset vaos i a)
    else after_count_reset vaos i a.
Proof. done. Qed.

Lemma after_count_reset_globals vaos i a :
  ∃ vbo nvbo,
    globals (after_count_reset vaos i a)
    = set_instance_buffers vbo nvbo (apply_widgets (widgets i) (globals a)).
Proof.
  unfold after_count_reset. case_bool_decide.
  - destruct (resetSimulation_globals vaos (count_reset_seed i) (count_reset_names i)
                {| globals := apply_widgets (widgets i) (globals a);
                   sim := set_celestialBodies
                            (patch_sun (widgets i)
                               (apply_widgets (widgets i) (globals a))
                               (celestialBodies (sim a))) (sim a);
                   setup_calls := setup_calls a |}) as (vbo & nvbo & ->).
    by exists vbo, nvbo.
  - eexists _, _. simpl. symmetry. apply set_instance_buffers_same.
Qed.

Lemma after_count_reset_gl_calls vaos i a :
  gl_calls (sim (after_count_reset vaos i a)) = gl_calls (sim a).
Proof.
  unfold after_count_reset. case_bool_decide; [|done].
  by rewrite resetSimulation_gl_calls.
Qed.

Lemma before_physics_globals vaos i a :
  ∃ vbo nvbo,
    globals (before_physics vaos i a)
    = set_instance_buffers vbo nvbo (apply_widgets (widgets i) (globals a)).
Proof.
  rewrite before_physics_after_count_reset.
  destruct (after_count_reset_globals vaos i a) as (vbo & nvbo & Hg).
  destruct (reset_clicked (widgets i)); [|by eauto].
  destruct (resetSimulation_globals vaos (button_reset_seed i) (button_reset_names i)
              (after_count_reset vaos i a)) as (vbo' & nvbo' & ->).
  rewrite Hg. by exists vbo', nvbo'.
Qed.

Lemma before_physics_gl_calls vaos i a :
  gl_calls (sim (before_physics vaos i a)) = gl_calls (sim a).
Proof.
  rewrite before_physics_after_count_reset.
  destruct (reset_clicked (widgets i)).
  - by rewrite resetSimulation_gl_calls, after_count_reset_gl_calls.
  - apply after_count_reset_gl_calls.
Qed.

Lemma before_physics_effective vaos i a dt :
  effective (globals (before_physics vaos i a)) dt
  = effective (apply_widgets (widgets i) (globals a)) dt.
Proof. by destruct (before_physics_globals vaos i a) as (? & ? & ->). Qed.

Lemma control_frame_skipped vaos i a :
  effective (apply_widgets (widgets i) (globals a)) (deltaTime i) = false →
  control_frame vaos i a = Some (before_physics vaos i a).
Proof.
  intros Heff. unfold control_frame.
  destruct (celestialBodies (sim (before_physics vaos i a))); [done|].
  rewrite updatePhysics_skipped by by rewrite before_physics_effective.
  simpl. by destruct (before_physics vaos i a).
Qed.

(** A call that is not skipped, on a store whose Swarm bodies are as many
    as the arrays have slots: every slot is written, and the upload, when
    issued, carries both arrays whole. *)
Lemma updatePhysics_publishes_all g dt s :
  allocated g s → length (swarm (celestialBodies s)) = asteroidAmount g →
  effective g dt = true →
  ∃ s', updatePhysics g dt s = Some s'
    ∧ celestialBodies s'
      = update (dt ⊗ simulationSpeed g)
        <$> accumulate_forces (G_scaled g) (celestialBodies s)
    ∧ length (swarm (celestialBodies s')) = asteroidAmount g
    ∧ asteroidModelMatrices s'
      = (λ b, Some (modelMatrix b)) <$> swarm (celestialBodies s')
    ∧ asteroidNormalMatrices s'
      = (λ b, Some (normal_matrix (modelMatrix b))) <$> swarm (celestialBodies s')
    ∧ gl_calls s'
      = gl_calls s
        ++ if bool_decide (0 < asteroidAmount g)
              && negb (asteroidInstanceVBO g =? 0)%N
              && negb (asteroidNormalInstanceVBO g =? 0)%N
           then [ glBindBuffer (asteroidInstanceVBO g);
                  glBufferSubData_mat4 0 (N.of_nat (asteroidAmount g) * 64)
                    (asteroidModelMatrices s');
                  glBindBuffer (asteroidNormalInstanceVBO g);
                  glBufferSubData_mat3 0 (N.of_nat (asteroidAmount g) * 36)
                    (asteroidNormalMatrices s');
                  glBindBuffer 0%N ]
           else [].
Proof.
  intros Ha Hsw Heff.
  destruct (updatePhysics_published g dt s Ha Heff)
    as (s' & Hs' & Hm & Hn & _ & Htm & Htn & _ & _ & Hgl).
  rewrite Hsw, Nat.min_id in Htm, Htn, Hgl.
  assert (celestialBodies s'
          = update (dt ⊗ simulationSpeed g)
            <$> accumulate_forces (G_scaled g) (celestialBodies s)) as Hbs.
  { rewrite (updatePhysics_effective g dt s Ha Heff) in Hs'. by injection Hs' as <-. }
  assert (length (swarm (celestialBodies s')) = asteroidAmount g) as Hsw'
    by (by rewrite Hbs, swarm_length_step).
  rewrite !take_ge in Htm by lia. rewrite !take_ge in Htn by lia.
  rewrite !take_ge in Hgl by lia.
  exists s'. by split_and!.
Qed.





(** *** Frames *)

(** A pass of the loop whose physics call is not skipped, from a state
    as it is between frames: whatever the widgets did, the resets
    included, the call writes every slot of both arrays, one per Swarm
    body in store order, and the upload, when issued, carries
    [asteroidAmount] matrices of each kind, the instance count of the
    frame's draw call. *)
Theorem effective_frame_publishes_every_asteroid vaos i a :
  between_frames a →
  effective (apply_widgets (widgets i) (globals a)) (deltaTime i) = true →
  ∃ a', control_frame vaos i a = Some a'
    ∧ let g := globals a' in
      let N := asteroidAmount g in
      N = default (asteroidAmount (globals a)) (asteroidCount_slider (widgets i))
      ∧ length (swarm (celestialBodies (sim a'))) = N
      ∧ asteroidModelMatrices (sim a')
        = (λ b, Some (modelMatrix b)) <$> swarm (celestialBodies (sim a'))
      ∧ asteroidNormalMatrices (sim a')
        = (λ b, Some (normal_matrix (modelMatrix b)))
          <$> swarm (celestialBodies (sim a'))
      ∧ gl_calls (sim a')
        = gl_calls (sim a)
          ++ if bool_decide (0 < N)
                && negb (asteroidInstanceVBO g =? 0)%N
                && negb (asteroidNormalInstanceVBO g =? 0)%N
             then [ glBindBuffer (asteroidInstanceVBO g);
                    glBufferSubData_mat4 0 (N.of_nat N * 64)
                      (asteroidModelMatrices (sim a'));
                    glBindBuffer (asteroidNormalInstanceVBO g);
                    glBufferSubData_mat3 0 (N.of_nat N * 36)
                      (asteroidNormalMatrices (sim a'));
                    glBindBuffer 0%N ]
             else [].
Proof.
  intros Hinv Heff.
  destruct (before_physics_between_frames vaos i a Hinv) as (Ha & Hsw & Hne).
  rewrite <- (before_physics_effective vaos i a) in Heff.
  destruct (updatePhysics_publishes_all _ _ _ Ha Hsw Heff)
    as (s' & Hs' & _ & Hsw' & Hm & Hn & Hgl).
  destruct (control_frame_physics vaos i a Hinv) as (s'' & Hs'' & ->).
  rewrite Hs' in Hs''. injection Hs'' as <-.
  eexists. split; [done|]. cbn [globals sim].
  rewrite before_physics_gl_calls in Hgl.
  split_and!; [|done..].
  by destruct (before_physics_globals vaos i a) as (? & ? & ->).
Qed.

(** The button clicked in a frame whose physics call is skipped (paused,
    or a zero scaled step): the store is rebuilt and both instance
    buffers are created anew without data, but nothing is uploaded and
    no slot of the arrays is written.  The buffer names are nonzero
    names of the driver whenever the count is positive and the rock
    model is loaded. *)
Theorem reset_in_a_skipped_frame_uploads_nothing vaos i a :
  reset_clicked (widgets i) = true →
  effective (apply_widgets (widgets i) (globals a)) (deltaTime i) = false →
  ∃ a', control_frame vaos i a = Some a'
    ∧ let g := globals a' in
      let N := asteroidAmount g in
      let no_buffers :=
        bool_decide (N = 0) || (if rockModelPtr g is NoModel then true else false) in
      let names := button_reset_names i in
      N = default (asteroidAmount (globals a)) (asteroidCount_slider (widgets i))
      ∧ length (swarm (celestialBodies (sim a'))) = N
      ∧ asteroidModelMatrices (sim a') = replicate N None
      ∧ asteroidNormalMatrices (sim a') = replicate N None
      ∧ gl_calls (sim a') = gl_calls (sim a)
      ∧ asteroidInstanceVBO g = (if no_buffers then 0%N else names.1)
      ∧ asteroidNormalInstanceVBO g = (if no_buffers then 0%N else names.2)
      ∧ ∃ earlier, setup_calls a'
          = earlier
            ++ if no_buffers then []
               else [ GlGenBuffers names.1; GlBindBuffer names.1;
                      GlBufferData (N.of_nat N * 64);
                      GlGenBuffers names.2; GlBindBuffer names.2;
                      GlBufferData (N.of_nat N * 36) ]
                    ++ flat_map (λ vao, instance_attributes vao names.1 names.2) vaos
                    ++ [ GlBindBuffer 0%N ].
Proof.
  intros Hclick Heff.
  rewrite (control_frame_skipped vaos i a Heff).
  eexists. split; [done|].
  rewrite before_physics_after_count_reset, Hclick.
  destruct (after_count_reset_globals vaos i a) as (vbo & nvbo & Hg).
  pose proof (after_count_reset_gl_calls vaos i a) as Hgl.
  set (a2 := after_count_reset vaos i a) in *.
  destruct (resetSimulation_buffers vaos (button_reset_seed i)
              (button_reset_names i) a2) as [Hg' [deleted Hcalls]].
  cbv zeta in Hg', Hcalls. cbv zeta.
  rewrite resetSimulation_sim, initializeCelestialBodies_gl_calls, Hcalls, Hg'.
  destruct (initializeCelestialBodies_arrays (globals a2) (button_reset_seed i) (sim a2))
    as [-> ->].
  rewrite initializeCelestialBodies_swarm, Hg.
  cbn [asteroidAmount rockModelPtr asteroidInstanceVBO asteroidNormalInstanceVBO
       set_instance_buffers apply_widgets].
  split_and!; [done..|].
  exists (setup_calls a2 ++ deleted). by rewrite (assoc_L (++)).
Qed.


(** A slider of the sun moved in a pass without a reset: body 0 gets the
    two variables of the sun as its mass and scale and keeps everything
    else, its matrix included; no other body is touched by the panel.
    The physics call of the same pass, if not skipped, runs on the
    patched store. *)
Theorem sun_sliders_patch_body_zero_only vaos i a b0 rest :
  allocated (globals a) (sim a) →
  celestialBodies (sim a) = b0 :: rest →
  sunChanged (widgets i) = true →
  asteroidCount_slider (widgets i) = None →
  reset_clicked (widgets i) = false →
  let g := apply_widgets (widgets i) (globals a) in
  let patched :=
    set_radiusScale (sunRadiusScale g) (set_mass (sunMass g) b0) :: rest in
  ∃ a', control_frame vaos i a = Some a'
    ∧ globals a' = g
    ∧ celestialBodies (sim a')
      = if effective g (deltaTime i)
        then update (deltaTime i ⊗ simulationSpeed g)
             <$> accumulate_forces (G_scaled g) patched
        else patched.
Proof.
  intros [Hm Hn] Hbs Hsun Hcount Hclick g patched.
  assert (before_physics vaos i a
          = {| globals := g;
               sim := set_celestialBodies patched (sim a);
               setup_calls := setup_calls a |}) as Hbefore.
  { unfold before_physics, after_count_reset. rewrite Hclick, Hcount.
    rewrite bool_decide_eq_false_2 by (by intros [? ?]).
    unfold patch_sun. by rewrite Hsun, Hbs. }
  destruct (effective g (deltaTime i)) eqn:Heff.
  - unfold control_frame. rewrite Hbefore. cbn [sim globals setup_calls celestialBodies
      set_celestialBodies].
    unfold patched at 1.
    rewrite (updatePhysics_effective g (deltaTime i) (set_celestialBodies patched (sim a)))
      by (done || (split; simpl; by rewrite ?Hm, ?Hn, ?Hcount)).
    simpl. eexists. by split_and!.
  - rewrite (control_frame_skipped vaos i a Heff), Hbefore.
    eexists. by split_and!.
Qed.

(** *** The buffers across a session *)

Lemma resetSimulation_buffers_current vaos seed names a :
  buffers_current vaos (resetSimulation vaos seed names a).
Proof.
  destruct (resetSimulation_buffers vaos seed names a) as [Hg [deleted Hcalls]].
  cbv zeta in Hg, Hcalls. unfold buffers_current. cbv zeta.
  rewrite Hg, Hcalls.
  cbn [asteroidInstanceVBO asteroidNormalInstanceVBO asteroidAmount
       set_instance_buffers].
  destruct (bool_decide (asteroidAmount (globals a) = 0) || _).
  - by left.
  - right. exists (setup_calls a ++ deleted). by rewrite (assoc_L (++)).
Qed.

Lemma before_physics_buffers_current vaos i a :
  buffers_current vaos a → buffers_current vaos (before_physics vaos i a).
Proof.
  intros Hcur. rewrite before_physics_after_count_reset.
  destruct (reset_clicked (widgets i)).
  { apply resetSimulation_buffers_current. }
  unfold after_count_reset. case_bool_decide as Hmoved.
  { apply resetSimulation_buffers_current. }
  assert (asteroidCount_slider (widgets i) = None) as Hnone.
  { destruct (asteroidCount_slider (widgets i)); [|done]. by destruct Hmoved. }
  unfold buffers_current in *. cbn [globals setup_calls apply_widgets
    asteroidInstanceVBO asteroidNormalInstanceVBO asteroidAmount].
  by rewrite Hnone.
Qed.

(** Over a whole session the instance buffers follow the asteroid
    count: between passes either both buffer names are zero, or the
    set-up calls issued so far end with the creation of exactly the two
    buffers the globals name, with data stores of [asteroidAmount * 64]
    and [asteroidAmount * 36] bytes, the sizes of the uploads of
    [updatePhysics], and with the attribute set-up of every mesh of the
    rock model. *)
Theorem session_buffers_follow_the_count vaos seed names g inputs :
  ∃ a, run_frames vaos inputs (startup vaos seed names g) = Some a
    ∧ let g := globals a in
      let N := asteroidAmount g in
      (asteroidInstanceVBO g = 0%N ∧ asteroidNormalInstanceVBO g = 0%N)
      ∨ ∃ earlier,
          setup_calls a
          = earlier
            ++ [ GlGenBuffers (asteroidInstanceVBO g);
                 GlBindBuffer (asteroidInstanceVBO g);
                 GlBufferData (N.of_nat N * 64);
                 GlGenBuffers (asteroidNormalInstanceVBO g);
                 GlBindBuffer (asteroidNormalInstanceVBO g);
                 GlBufferData (N.of_nat N * 36) ]
            ++ flat_map (λ vao, instance_attributes vao (asteroidInstanceVBO g)
                                  (asteroidNormalInstanceVBO g)) vaos
            ++ [ GlBindBuffer 0%N ].
Proof.
  assert (∀ a0, between_frames a0 → buffers_current vaos a0 →
            ∃ a, run_frames vaos inputs a0 = Some a ∧ buffers_current vaos a) as Hrun.
  { induction inputs as [|i inputs IH]; intros a0 Hinv Hcur; simpl.
    - by exists a0.
    - destruct (control_frame_between_frames vaos i a0 Hinv) as (a1 & Ha1 & Hinv1).
      destruct (control_frame_physics vaos i a0 Hinv) as (s' & _ & Hframe).
      rewrite Ha1 in Hframe. injection Hframe as ->.
      rewrite Ha1. simpl. apply IH; [done|].
      apply (before_physics_buffers_current vaos i a0) in Hcur.
      by unfold buffers_current in *. }
  destruct (Hrun (startup vaos seed names g)) as (a & Ha & Hcur).
  { apply resetSimulation_between_frames. }
  { apply resetSimulation_buffers_current. }
  by exists a.
Qed.

(** *** Buffers generated and deleted *)

Lemma generated_attributes vaos vbo nvbo :
  generated (flat_map (λ vao, instance_attributes vao vbo nvbo) vaos) = []
  ∧ deleted (flat_map (λ vao, instance_attributes vao vbo nvbo) vaos) = [].
Proof.
  unfold generated, deleted.
  induction vaos as [|vao vaos [IHg IHd]]; [done|].
  cbn [flat_map]. rewrite !omap_app, IHg, IHd. by split.
Qed.

(** [resetSimulation] deletes the buffers the globals named and
    generates the ones they name afterwards. *)
Lemma resetSimulation_releases vaos seed names a :
  names.1 ≠ 0%N → names.2 ≠ 0%N →
  generated (setup_calls a) = deleted (setup_calls a) ++ live_buffers (globals a) →
  generated (setup_calls (resetSimulation vaos seed names a))
  = deleted (setup_calls (resetSimulation vaos seed names a))
    ++ live_buffers (globals (resetSimulation vaos seed names a)).
Proof.
  intros Hn1 Hn2 Hbal.
  unfold resetSimulation, setupAsteroidInstanceBuffers.
  set (dels := (if (asteroidInstanceVBO (globals a) =? 0)%N then [] else _) ++ _).
  assert (generated dels = [] ∧ deleted dels = live_buffers (globals a)) as [Hg Hd].
  { unfold dels, live_buffers, generated, deleted.
    by destruct (asteroidInstanceVBO (globals a) =? 0)%N,
      (asteroidNormalInstanceVBO (globals a) =? 0)%N. }
  destruct (bool_decide (asteroidAmount (globals a) = 0) || _);
    cbn [setup_calls globals].
  - unfold generated, deleted in *. rewrite !omap_app, Hg, Hd, Hbal.
    unfold live_buffers. simpl. by rewrite !app_nil_r.
  - destruct (generated_attributes vaos names.1 names.2) as [Hag Had].
    unfold generated, deleted in *.
    assert (live_buffers (set_instance_buffers names.1 names.2 (globals a))
            = [names.1; names.2]) as ->.
    { unfold live_buffers. simpl. apply N.eqb_neq in Hn1, Hn2. by rewrite Hn1, Hn2. }
    rewrite !omap_app, Hg, Hd, Hbal, Hag, Had. simpl.
    unfold live_buffers. by rewrite !app_nil_r, <- !(assoc_L (++)).
Qed.

Lemma before_physics_releases vaos i a :
  (count_reset_names i).1 ≠ 0%N → (count_reset_names i).2 ≠ 0%N →
  (button_reset_names i).1 ≠ 0%N → (button_reset_names i).2 ≠ 0%N →
  generated (setup_calls a) = deleted (setup_calls a) ++ live_buffers (globals a) →
  generated (setup_calls (before_physics vaos i a))
  = deleted (setup_calls (before_physics vaos i a))
    ++ live_buffers (globals (before_physics vaos i a)).
Proof.
  intros Hc1 Hc2 Hb1 Hb2 Hbal.
  assert (generated (setup_calls (after_count_reset vaos i a))
          = deleted (setup_calls (after_count_reset vaos i a))
            ++ live_buffers (globals (after_count_reset vaos i a))) as Hbal'.
  { unfold after_count_reset. case_bool_decide; [|done].
    by apply resetSimulation_releases. }
  rewrite before_physics_after_count_reset.
  destruct (reset_clicked (widgets i)); [|done].
  by apply resetSimulation_releases.
Qed.

(** Over a whole run of the program, from the first rebuild to the end
    of [main], the instance buffers are released as they were acquired:
    the names passed to [glDeleteBuffers] are the names [glGenBuffers]
    returned, in the same order, however often the store was rebuilt.
    The driver never returns the name zero. *)
Theorem instance_buffers_are_released_as_acquired vaos seed names g inputs :
  asteroidInstanceVBO g = 0%N → asteroidNormalInstanceVBO g = 0%N →
  names.1 ≠ 0%N ∧ names.2 ≠ 0%N →
  Forall (λ i, ((count_reset_names i).1 ≠ 0 ∧ (count_reset_names i).2 ≠ 0
                ∧ (button_reset_names i).1 ≠ 0 ∧ (button_reset_names i).2 ≠ 0)%N)
    inputs →
  ∃ a, run_frames vaos inputs (startup vaos seed names g) = Some a
    ∧ deleted (shutdown a) = generated (shutdown a).
Proof.
  intros Hvbo Hnvbo [Hn1 Hn2] Hinputs.
  assert (∀ a0, between_frames a0 →
            generated (setup_calls a0)
            = deleted (setup_calls a0) ++ live_buffers (globals a0) →
            ∃ a, run_frames vaos inputs a0 = Some a
              ∧ generated (setup_calls a)
                = deleted (setup_calls a) ++ live_buffers (globals a)) as Hrun.
  { induction Hinputs as [|i inputs (Hc1 & Hc2 & Hb1 & Hb2) _ IH];
      intros a0 Hinv Hbal; simpl.
    - by exists a0.
    - destruct (control_frame_between_frames vaos i a0 Hinv) as (a1 & Ha1 & Hinv1).
      destruct (control_frame_physics vaos i a0 Hinv) as (s' & _ & Hframe).
      rewrite Ha1 in Hframe. injection Hframe as ->.
      rewrite Ha1. simpl. apply IH; [done|].
      by apply before_physics_releases. }
  destruct (Hrun (startup vaos seed names g)) as (a & Ha & Hbal).
  { apply resetSimulation_between_frames. }
  { apply resetSimulation_releases; [done..|].
    unfold live_buffers. simpl. by rewrite Hvbo, Hnvbo. }
  exists a. split; [done|].
  unfold shutdown, generated, deleted in *. rewrite !omap_app, Hbal.
  unfold live_buffers.
  by destruct (asteroidInstanceVBO (globals a) =? 0)%N,
    (asteroidNormalInstanceVBO (globals a) =? 0)%N; simpl; rewrite ?app_nil_r.
Qed.
End Session.

Section SphereMesh.
Context {F quat mat4 mat3 : Type}.
Context `{FloatOps F} `{Libm F} `{GlmOps F quat mat4 mat3} `{GlmConstants F}.
Variable MAX_BONE_INFLUENCE : nat.
Local Open Scope Z_scope.

Lemma wrap_small z : 0 ≤ z < 2 ^ 32 → wrap z = z.
Proof. intros Hz. unfold wrap. by apply Z.mod_small. Qed.

(** Without wrap-around the six indices of a quad are the four corners
    of the grid cell, row-major with rows of [sectorCount + 1]. *)
Lemma quad_indices_small sectorCount stackCount i j :
  0 ≤ i < stackCount → 0 ≤ j < sectorCount →
  (stackCount + 1) * (sectorCount + 1) ≤ 2 ^ 32 →
  let at_ (i j : Z) := i * (sectorCount + 1) + j in
  quad_indices sectorCount i j
  = [ at_ i j; at_ (i + 1) j; at_ i (j + 1);
      at_ (i + 1) j; at_ (i + 1) (j + 1); at_ i (j + 1) ].
Proof.
  intros Hi Hj Hfit at_. unfold quad_indices, at_.
  assert ((i + 1) * (sectorCount + 1) + (j + 1) < (stackCount + 1) * (sectorCount + 1))
    as Hlast by nia.
  rewrite (wrap_small (sectorCount + 1)) by nia.
  rewrite (wrap_small (i * (sectorCount + 1))) by nia.
  rewrite (wrap_small (i * (sectorCount + 1) + j)) by nia.
  rewrite (wrap_small (i * (sectorCount + 1) + j + sectorCount)) by nia.
  rewrite (wrap_small (i * (sectorCount + 1) + j + sectorCount + 1)) by nia.
  rewrite (wrap_small (i * (sectorCount + 1) + j + 1)) by nia.
  rewrite (wrap_small (i * (sectorCount + 1) + j + sectorCount + 1 + 1)) by nia.
  repeat (apply (f_equal2 (@cons Z)); [lia|]). done.
Qed.

(** Lookup in a row-major table of [rows] rows of [cols] entries. *)
Lemma table_lookup {A : Type} (f : Z → Z → A) rows cols i j :
  0 ≤ i < rows → 0 ≤ j < cols →
  mjoin ((λ i, f i <$> seqZ 0 cols) <$> seqZ 0 rows) !! Z.to_nat (i * cols + j)
  = Some (f i j).
Proof.
  intros Hi Hj.
  replace (Z.to_nat (i * cols + j))
    with (Z.to_nat i * Z.to_nat cols + Z.to_nat j)%nat
    by (rewrite Z2Nat.inj_add, Z2Nat.inj_mul; nia).
  apply (join_lookup_Some_same_length' (Z.to_nat cols)).
  - apply Forall_fmap, Forall_forall. intros k _. simpl.
    by rewrite length_fmap, length_seqZ.
  - lia.
  - exists (f i <$> seqZ 0 cols). split.
    + rewrite list_lookup_fmap, lookup_seqZ_lt by lia. simpl.
      do 3 f_equal. lia.
    + rewrite list_lookup_fmap, lookup_seqZ_lt by lia. simpl.
      do 2 f_equal. lia.
Qed.

Lemma table_length {A : Type} (f : Z → Z → A) rows cols :
  0 ≤ rows → 0 ≤ cols →
  Z.of_nat (length (mjoin ((λ i, f i <$> seqZ 0 cols) <$> seqZ 0 rows)))
  = rows * cols.
Proof.
  intros Hr Hc. rewrite length_join, <- list_fmap_compose.
  rewrite (sum_list_fmap_same (Z.to_nat cols)).
  - rewrite length_seqZ. nia.
  - apply Forall_forall. intros k _. simpl. by rewrite length_fmap, length_seqZ.
Qed.

(** Lookup in the index vector: the six indices of the quad [(i, j)]
    start at [6 * (i * sectorCount + j)]. *)
Lemma quads_lookup (q : Z → Z → list Z) rows cols i j k :
  (∀ i j, length (q i j) = 6%nat) →
  0 ≤ i < rows → 0 ≤ j < cols → (k < 6)%nat →
  mjoin ((λ i, mjoin (q i <$> seqZ 0 cols)) <$> seqZ 0 rows)
    !! (Z.to_nat (6 * (i * cols + j)) + k)%nat
  = q i j !! k.
Proof.
  intros Hq Hi Hj Hk.
  destruct (lookup_lt_is_Some_2 (q i j) k) as [x Hx]; [by rewrite Hq|].
  rewrite Hx.
  replace (Z.to_nat (6 * (i * cols + j)) + k)%nat
    with (Z.to_nat i * (Z.to_nat cols * 6) + (Z.to_nat j * 6 + k))%nat
    by (rewrite Z2Nat.inj_mul, Z2Nat.inj_add, Z2Nat.inj_mul; nia).
  apply (join_lookup_Some_same_length' (Z.to_nat cols * 6)).
  - apply Forall_fmap, Forall_forall. intros r _. simpl.
    rewrite length_join, <- list_fmap_compose.
    rewrite (sum_list_fmap_same 6); [by rewrite length_seqZ|].
    apply Forall_forall. intros c _. apply Hq.
  - nia.
  - exists (mjoin (q i <$> seqZ 0 cols)). split.
    + rewrite list_lookup_fmap, lookup_seqZ_lt by lia. simpl.
      do 4 f_equal. lia.
    + apply (join_lookup_Some_same_length' 6); [|done|].
      * apply Forall_fmap, Forall_forall. intros c _. apply Hq.
      * exists (q i j). split; [|done].
        rewrite list_lookup_fmap, lookup_seqZ_lt by lia. simpl.
        do 2 f_equal. lia.
Qed.

Lemma quads_length (q : Z → Z → list Z) rows cols :
  (∀ i j, length (q i j) = 6%nat) → 0 ≤ rows → 0 ≤ cols →
  Z.of_nat (length (mjoin ((λ i, mjoin (q i <$> seqZ 0 cols)) <$> seqZ 0 rows)))
  = 6 * rows * cols.
Proof.
  intros Hq Hr Hc. rewrite length_join, <- list_fmap_compose.
  rewrite (sum_list_fmap_same (Z.to_nat cols * 6)).
  - rewrite length_seqZ. nia.
  - apply Forall_forall. intros r _. simpl.
    rewrite length_join, <- list_fmap_compose.
    rewrite (sum_list_fmap_same 6); [by rewrite length_seqZ|].
    apply Forall_forall. intros c _. apply Hq.
Qed.

Lemma CreateSphere_returns radius sectorCount stackCount :
  0 ≤ sectorCount < UINT_MAX → 0 ≤ stackCount < UINT_MAX →
  CreateSphere MAX_BONE_INFLUENCE radius sectorCount stackCount
  = Some {| vertices :=
              mjoin ((λ i, sphere_vertex MAX_BONE_INFLUENCE radius
                             sectorCount stackCount i
                           <$> seqZ 0 (sectorCount + 1))
                     <$> seqZ 0 (stackCount + 1));
            indices :=
              mjoin ((λ i, mjoin (quad_indices sectorCount i
                                  <$> seqZ 0 sectorCount))
                     <$> seqZ 0 stackCount) |}.
Proof.
  intros Hsec Hst. unfold CreateSphere.
  destruct (Z.eqb_spec stackCount UINT_MAX); [lia|].
  destruct (Z.eqb_spec sectorCount UINT_MAX); [lia|]. done.
Qed.

(** For counts whose grid of [(stackCount + 1) * (sectorCount + 1)]
    vertices can be indexed in 32 bits, [CreateSphere] returns that many
    vertices and six indices per cell of the grid, and every index
    addresses a vertex of the mesh. *)
Theorem sphere_indices_address_vertices radius sectorCount stackCount :
  0 ≤ sectorCount < UINT_MAX → 0 ≤ stackCount < UINT_MAX →
  (stackCount + 1) * (sectorCount + 1) ≤ 2 ^ 32 →
  ∃ m, CreateSphere MAX_BONE_INFLUENCE radius sectorCount stackCount = Some m
    ∧ Z.of_nat (length (vertices m)) = (stackCount + 1) * (sectorCount + 1)
    ∧ Z.of_nat (length (indices m)) = 6 * stackCount * sectorCount
    ∧ Forall (λ k, 0 ≤ k < Z.of_nat (length (vertices m))) (indices m).
Proof.
  intros Hsec Hst Hfit.
  rewrite CreateSphere_returns by done. eexists. split; [done|].
  cbn [vertices indices].
  rewrite table_length by lia.
  rewrite quads_length by (done || lia).
  split_and!; [done..|].
  apply Forall_forall. intros k Hk.
  apply list_elem_of_join in Hk as (row & Hk & Hrow).
  apply list_elem_of_fmap in Hrow as (i & -> & Hi).
  apply list_elem_of_join in Hk as (quad & Hk & Hquad).
  apply list_elem_of_fmap in Hquad as (j & -> & Hj).
  apply elem_of_seqZ in Hi, Hj.
  rewrite (quad_indices_small sectorCount stackCount) in Hk by (done || lia).
  cbv zeta in Hk.
  repeat (apply elem_of_cons in Hk as [->|Hk]; [nia|]).
  by apply elem_of_nil in Hk.
Qed.

(** Under the same bound the two triangles of the cell [(i, j)] are
    made of the vertices of the grid positions [(i, j)], [(i+1, j)],
    [(i, j+1)] and [(i+1, j)], [(i+1, j+1)], [(i, j+1)], in this order. *)
Theorem sphere_triangles_join_grid_neighbours radius sectorCount stackCount i j :
  0 ≤ sectorCount < UINT_MAX → 0 ≤ stackCount < UINT_MAX →
  (stackCount + 1) * (sectorCount + 1) ≤ 2 ^ 32 →
  0 ≤ i < stackCount → 0 ≤ j < sectorCount →
  ∃ m, CreateSphere MAX_BONE_INFLUENCE radius sectorCount stackCount = Some m
    ∧ let corner (k : nat) :=
        index ← indices m !! (Z.to_nat (6 * (i * sectorCount + j)) + k)%nat;
        vertices m !! Z.to_nat index in
      let v := sphere_vertex MAX_BONE_INFLUENCE radius sectorCount stackCount in
      corner 0%nat = Some (v i j)
      ∧ corner 1%nat = Some (v (i + 1) j)
      ∧ corner 2%nat = Some (v i (j + 1))
      ∧ corner 3%nat = Some (v (i + 1) j)
      ∧ corner 4%nat = Some (v (i + 1) (j + 1))
      ∧ corner 5%nat = Some (v i (j + 1)).
Proof.
  intros Hsec Hst Hfit Hi Hj.
  rewrite CreateSphere_returns by done. eexists. split; [done|].
  intros corner v.
  assert (∀ k i' j', (k < 6)%nat → 0 ≤ i' < stackCount + 1 → 0 ≤ j' < sectorCount + 1 →
            quad_indices sectorCount i j !! k = Some (i' * (sectorCount + 1) + j') →
            corner k = Some (v i' j')) as Hcorner.
  { intros k i' j' Hk Hi' Hj' Hq. unfold corner. cbn [vertices indices].
    rewrite quads_lookup by done. rewrite Hq. simpl.
    by apply (table_lookup v). }
  rewrite (quad_indices_small sectorCount stackCount) in Hcorner by done.
  cbv zeta in Hcorner.
  split_and!; apply Hcorner; (done || lia).
Qed.
End SphereMesh.

Section ExactSphere.
Import Exact.
Context {quat mat4 mat3 : Type} `{GlmOps R quat mat4 mat3} `{GlmConstants R}.
Variable MAX_BONE_INFLUENCE : nat.

(** With the arithmetic read as exact real arithmetic, and for positive
    counts (with a count of zero the source divides by zero), every
    vertex of the mesh lies on the sphere of the given radius around the
    origin, whatever the values of glm's constants are. *)
Theorem sphere_vertices_lie_on_the_sphere (radius : R) sectorCount stackCount :
  (0 < sectorCount < UINT_MAX)%Z → (0 < stackCount < UINT_MAX)%Z →
  ∃ m, CreateSphere MAX_BONE_INFLUENCE radius sectorCount stackCount = Some m
    ∧ Forall (λ v, dot (Position v) (Position v) = (radius * radius)%R)
        (vertices m).
Proof.
  intros Hsec Hst. rewrite CreateSphere_returns by lia.
  eexists. split; [done|]. cbn [vertices].
  apply Forall_forall. intros v Hv.
  apply list_elem_of_join in Hv as (row & Hv & Hrow).
  apply list_elem_of_fmap in Hrow as (i & -> & _).
  apply list_elem_of_fmap in Hv as (j & -> & _).
  unfold sphere_vertex, dot. cbn [Position vx vy vz fadd fsub fmul fdiv ops libm fcos fsin].
  set (a := (half_pi - of_uint i * (pi / of_uint stackCount))%R).
  set (b := (of_uint j * (two_pi / of_uint sectorCount))%R).
  pose proof (sin2_cos2 a) as Ha. pose proof (sin2_cos2 b) as Hb.
  unfold Rsqr in Ha, Hb.
  transitivity (radius * radius
                * (cos a * cos a * (sin b * sin b + cos b * cos b) + sin a * sin a))%R;
    [ring|].
  rewrite Hb. transitivity (radius * radius * (sin a * sin a + cos a * cos a))%R; [ring|].
  rewrite Ha. ring.
Qed.
End ExactSphere.

Section ExactSphereShape.
Import Exact ExactGlm.
Variable MAX_BONE_INFLUENCE : nat.
Local Open Scope R_scope.

Lemma of_uint_exact (n : Z) : of_uint n = IZR n.
Proof. unfold of_uint. simpl. lra. Qed.

(** With exact arithmetic and glm's constants at their mathematical
    values the grid closes up: the last vertex of every row coincides
    with the first, the first row collapses to the pole [(0, 0, radius)]
    and the last one to [(0, 0, -radius)]. *)
Theorem sphere_grid_closes_up (radius : R) (sectorCount stackCount i j : Z) :
  (0 < sectorCount)%Z → (0 < stackCount)%Z →
  let v := sphere_vertex MAX_BONE_INFLUENCE radius sectorCount stackCount in
  Position (v i sectorCount) = Position (v i 0%Z)
  ∧ Position (v 0%Z j) = Vec3 0 0 radius
  ∧ Position (v stackCount j) = Vec3 0 0 (- radius).
Proof.
  intros Hsec Hst v. unfold v, sphere_vertex.
  cbn [Position half_pi two_pi pi glm constants fadd fsub fmul fdiv ops libm fcos fsin].
  rewrite !of_uint_exact.
  assert (IZR sectorCount ≠ 0) as Hsec' by (apply not_0_IZR; lia).
  assert (IZR stackCount ≠ 0) as Hst' by (apply not_0_IZR; lia).
  replace (IZR sectorCount * (2 * PI / IZR sectorCount)) with (2 * PI) by (by field).
  replace (PI / 2 - IZR stackCount * (PI / IZR stackCount)) with (- (PI / 2))
    by (by field).
  replace (PI / 2 - 0 * (PI / IZR stackCount)) with (PI / 2) by lra.
  replace (0 * (2 * PI / IZR sectorCount)) with 0 by lra.
  rewrite cos_2PI, sin_2PI, cos_0, sin_0, cos_neg, sin_neg, cos_PI2, sin_PI2.
  split_and!; f_equal; lra.
Qed.
End ExactSphereShape.

Section InputHandling.
Context {F : Type} `{FloatOps F}.
Implicit Types (st : Input F) (e : input_event F) (keys : Keys).

Lemma call_when (pressed : bool) (c : input_call F) st :
  (if pressed then call c st else st)
  = {| lastX := lastX st; lastY := lastY st; firstMouse := firstMouse st;
       cameraEnabled := cameraEnabled st;
       backspacePressed := backspacePressed st;
       input_calls := input_calls st ++ if pressed then [c] else [] |}.
Proof. destruct pressed, st; simpl; by rewrite ?app_nil_r. Qed.

(** The movement keys append camera calls and touch nothing else. *)
Lemma move_camera_appends keys dt st :
  ∃ calls,
    move_camera keys dt st
    = {| lastX := lastX st; lastY := lastY st; firstMouse := firstMouse st;
         cameraEnabled := cameraEnabled st;
         backspacePressed := backspacePressed st;
         input_calls := input_calls st ++ calls |}.
Proof.
  unfold move_camera. rewrite !call_when.
  cbn [lastX lastY firstMouse cameraEnabled backspacePressed input_calls].
  rewrite <- !(assoc_L (++)). by eexists.
Qed.

(** What [processInput] does to the two switches and to [firstMouse]:
    the poll is shut out when the user interface wants the keyboard and
    the camera is off; otherwise backspace toggles on its edge. *)
Lemma processInput_switches want keys dt st :
  let shut := want && negb (cameraEnabled st) in
  let edge := negb shut && key_backspace keys && negb (backspacePressed st) in
  cameraEnabled (processInput want keys dt st) = xorb edge (cameraEnabled st)
  ∧ backspacePressed (processInput want keys dt st)
    = (if shut then backspacePressed st else key_backspace keys)
  ∧ firstMouse (processInput want keys dt st)
    = (if edge && negb (cameraEnabled st) then true else firstMouse st)
  ∧ lastX (processInput want keys dt st) = lastX st
  ∧ lastY (processInput want keys dt st) = lastY st.
Proof.
  unfold processInput.
  set (dt' := if key_left_shift keys then dt ⊗ lit 35 (-1) else dt).
  destruct st as [lx ly fm ce bp calls].
  destruct (key_escape keys), want, ce, (key_backspace keys), bp;
    cbn [call toggle_camera set_backspacePressed cameraEnabled backspacePressed
         firstMouse lastX lastY input_calls andb orb negb xorb];
    try done;
    match goal with
    | |- context [move_camera keys dt' ?s] =>
        destruct (move_camera_appends keys dt' s) as [more ->]
    end; done.
Qed.

(** An event that finds backspace still down after the toggle leaves
    both switches alone. *)
Lemma held_backspace_keeps_switches st e :
  holds_backspace e → backspacePressed st = true →
  cameraEnabled (handle st e) = cameraEnabled st
  ∧ backspacePressed (handle st e) = true.
Proof.
  intros Hheld Hpressed. destruct e as [want keys dt|want x y|want y]; simpl.
  - simpl in Hheld.
    destruct (processInput_switches want keys dt st) as (-> & -> & _).
    rewrite Hheld, Hpressed. simpl.
    rewrite andb_false_r. simpl. by destruct (want && negb (cameraEnabled st)).
  - unfold mouse_callback.
    destruct (want || negb (cameraEnabled st)); [done|].
    by destruct (firstMouse st).
  - unfold scroll_callback.
    by destruct (want || negb (cameraEnabled st)).
Qed.

(** Backspace is edge-triggered on the flag [backspacePressed]: a press
    that a poll sees (the camera is on, or the user interface does not
    want the keyboard), and that is held through any number of further
    polls and mouse events, switches the camera mode exactly once when
    the flag was clear at that poll, and not at all when it was set;
    afterwards the flag is set. *)
Theorem held_backspace_toggles_once st want keys dt (later : list (input_event F)) :
  key_backspace keys = true →
  cameraEnabled st = true ∨ want = false →
  Forall holds_backspace later →
  let st' := foldl handle st (Poll want keys dt :: later) in
  cameraEnabled st'
  = (if backspacePressed st then cameraEnabled st else negb (cameraEnabled st))
  ∧ backspacePressed st' = true.
Proof.
  intros Hkey Hseen Hlater. cbn [foldl].
  assert (cameraEnabled (handle st (Poll want keys dt))
          = (if backspacePressed st then cameraEnabled st
             else negb (cameraEnabled st))
          ∧ backspacePressed (handle st (Poll want keys dt)) = true) as [Hcam Hpressed].
  { simpl. destruct (processInput_switches want keys dt st) as (-> & -> & _).
    assert (want && negb (cameraEnabled st) = false) as ->
      by (destruct Hseen as [Hs|Hs]; rewrite Hs; [by destruct want|done]).
    rewrite Hkey. simpl.
    by destruct (backspacePressed st), (cameraEnabled st). }
  revert Hcam Hpressed. generalize (handle st (Poll want keys dt)).
  induction Hlater as [|e later He Hlater IH]; intros st1 Hcam Hpressed; [done|].
  destruct (held_backspace_keeps_switches st1 e He Hpressed) as [Hcam' Hpressed'].
  simpl. apply IH; [by rewrite Hcam'|done].
Qed.

(** While the camera is off and the user interface wants the keyboard,
    nothing reaches the camera and backspace does not switch it back on:
    through any run of such polls and of mouse events the switches, the
    recorded mouse position and the camera are left as they were. *)
Theorem camera_stays_off_while_keyboard_is_captured st (events : list (input_event F)) :
  cameraEnabled st = false → Forall keyboard_captured events →
  let st' := foldl handle st events in
  cameraEnabled st' = false
  ∧ backspacePressed st' = backspacePressed st
  ∧ (lastX st', lastY st', firstMouse st') = (lastX st, lastY st, firstMouse st)
  ∧ filter (λ c, is_camera_call c = true) (input_calls st')
    = filter (λ c, is_camera_call c = true) (input_calls st).
Proof.
  intros Hoff Hevents. revert st Hoff.
  induction Hevents as [|e events He Hevents IH]; intros st Hoff; [done|].
  cbn [foldl].
  assert (cameraEnabled (handle st e) = false
          ∧ backspacePressed (handle st e) = backspacePressed st
          ∧ (lastX (handle st e), lastY (handle st e), firstMouse (handle st e))
            = (lastX st, lastY st, firstMouse st)
          ∧ filter (λ c, is_camera_call c = true) (input_calls (handle st e))
            = filter (λ c, is_camera_call c = true) (input_calls st))
    as (Hoff' & Hpressed & Hmouse & Hcalls).
  { destruct e as [want keys dt|want x y|want y]; simpl.
    - simpl in He. subst want. unfold processInput.
      destruct (key_escape keys); cbn [call cameraEnabled]; rewrite Hoff; simpl;
        [|done].
      split_and!; [done..|]. by rewrite filter_app, app_nil_r.
    - unfold mouse_callback. rewrite Hoff, orb_true_r. done.
    - unfold scroll_callback. rewrite Hoff, orb_true_r. done. }
  destruct (IH (handle st e) Hoff') as (Hoff'' & Hpressed' & Hmouse' & Hcalls').
  cbv zeta. by rewrite Hoff'', Hpressed', Hmouse', Hcalls'.
Qed.

(** Mouse events that arrive while the camera is off are dropped
    without a trace; when backspace then switches the camera on, the
    next mouse event is measured against its own position, not against
    the position recorded before the camera was switched off. *)
Theorem mouse_look_resumes_from_the_new_position st keys dt
    (dropped : list (input_event F)) (xpos ypos : F) :
  cameraEnabled st = false → backspacePressed st = false →
  key_backspace keys = true → Forall from_mouse dropped →
  let st1 := foldl handle st dropped in
  let st2 := processInput false keys dt st1 in
  let st3 := mouse_callback false xpos ypos st2 in
  st1 = st
  ∧ cameraEnabled st2 = true
  ∧ cameraEnabled st3 = true
  ∧ (lastX st3, lastY st3, firstMouse st3) = (xpos, ypos, false)
  ∧ input_calls st3
    = input_calls st2 ++ [ProcessMouseMovement (xpos ⊖ xpos) (ypos ⊖ ypos)].
Proof.
  intros Hoff Hfree Hkey Hdropped.
  assert (foldl handle st dropped = st) as ->.
  { induction Hdropped as [|e dropped He Hdropped IH]; [done|].
    cbn [foldl].
    assert (handle st e = st) as ->; [|done].
    destruct e as [want keys' dt'|want x y|want y]; simpl; [done|..].
    - unfold mouse_callback. by rewrite Hoff, orb_true_r.
    - unfold scroll_callback. by rewrite Hoff, orb_true_r. }
  cbv zeta.
  destruct (processInput_switches false keys dt st) as (Hon & _ & Hfirst & _).
  rewrite Hkey, Hfree, Hoff in Hon, Hfirst. simpl in Hon, Hfirst.
  unfold mouse_callback. rewrite Hon, Hfirst. by simpl.
Qed.
End InputHandling.

Section ExactMomentum.
Import Exact.
Context {quat mat4 mat3 : Type} `{GlmOps R quat mat4 mat3}.
Implicit Types (b : CelestialBody R quat mat4) (bs : list (CelestialBody R quat mat4)).
Implicit Types (g : Globals R) (s : Sim R quat mat4 mat3).
Local Open Scope R_scope.

(** *** Sums of reals over lists *)

Lemma sum_ext {A : Type} (f g : A → R) (l : list A) :
  (∀ x, x ∈ l → f x = g x) →
  foldr Rplus 0 (f <$> l) = foldr Rplus 0 (g <$> l).
Proof.
  induction l as [|x l IH]; intros Hfg; csimpl; [done|].
  rewrite Hfg by left. rewrite IH; [done|].
  intros y Hy. apply Hfg. by right.
Qed.

Lemma sum_plus_scaled {A : Type} (f g : A → R) (c : R) (l : list A) :
  foldr Rplus 0 ((λ x, f x + c * g x) <$> l)
  = foldr Rplus 0 (f <$> l) + c * foldr Rplus 0 (g <$> l).
Proof. induction l as [|x l IH]; csimpl; [lra|]. rewrite IH. lra. Qed.

Lemma sum_app (l1 l2 : list R) :
  foldr Rplus 0 (l1 ++ l2) = foldr Rplus 0 l1 + foldr Rplus 0 l2.
Proof. induction l1 as [|x l1 IH]; simpl; [lra|]. rewrite IH. lra. Qed.

(** A sum over a list, by index. *)
Lemma sum_by_index {A : Type} (h : A → R) (l : list A) :
  foldr Rplus 0 (h <$> l)
  = foldr Rplus 0 ((λ k, from_option h 0 (l !! k)) <$> seq 0 (length l)).
Proof.
  f_equal. apply list_eq. intros k.
  rewrite !list_lookup_fmap.
  destruct (l !! k) as [x|] eqn:Hk; simpl.
  - rewrite lookup_seq_lt by (by eapply lookup_lt_Some). simpl. by rewrite Hk.
  - rewrite lookup_seq_ge; [done|]. by apply lookup_ge_None.
Qed.

(** A double sum of an antisymmetric table vanishes. *)
Lemma antisymmetric_sum (f : nat → nat → R) n :
  (∀ i j, f i j + f j i = 0) →
  foldr Rplus 0 ((λ i, foldr Rplus 0 (f i <$> seq 0 n)) <$> seq 0 n) = 0.
Proof.
  intros Hf. induction n as [|n IH]; [done|].
  rewrite seq_S. csimpl. rewrite fmap_app, sum_app. csimpl.
  rewrite (sum_ext _ (λ i, foldr Rplus 0 (f i <$> seq 0 n) + 1 * f i n)).
  2:{ intros i _. rewrite fmap_app, sum_app. csimpl. lra. }
  rewrite sum_plus_scaled, IH, fmap_app, sum_app. csimpl.
  pose proof (Hf n n).
  assert (foldr Rplus 0 ((λ i, f i n) <$> seq 0 n)
          + foldr Rplus 0 (f n <$> seq 0 n) = 0) as Hcross.
  { clear IH. generalize (seq 0 n). intros l.
    induction l as [|x l IH]; csimpl; [lra|]. pose proof (Hf x n). lra. }
  lra.
Qed.

(** *** Forces *)

Lemma force_vec_opposite G b1 b2 :
  vadd (force_vec G b1 b2) (force_vec G b2 b1) = Vec3 0 0 0.
Proof.
  unfold force_vec.
  set (r := vsub (position b2) (position b1)).
  set (r' := vsub (position b1) (position b2)).
  assert (dot r' r' = dot r r) as ->.
  { unfold dot, r, r', vsub. simpl. ring. }
  set (d := if dot r r ≺ epsilon_sq then epsilon_sq else dot r r).
  assert (G ⊗ mass b2 ⊗ mass b1 = G ⊗ mass b1 ⊗ mass b2) as ->.
  { simpl. ring. }
  unfold vadd, smulv, vdivs, splat. rewrite f0_exact.
  unfold r, r', vsub. simpl.
  destruct (Rlt_dec 0 (sqrt d)); simpl; f_equal; unfold Rdiv; ring.
Qed.

Lemma force_vec_massless G b1 b2 :
  mass b1 = 0 → force_vec G b1 b2 = Vec3 0 0 0.
Proof.
  intros Hm. unfold force_vec. rewrite Hm. unfold smulv. simpl.
  f_equal; unfold Rdiv; ring.
Qed.

Lemma pair_force_opposite G bs i j :
  vadd (pair_force G bs i j) (pair_force G bs j i) = Vec3 0 0 0.
Proof.
  unfold pair_force.
  destruct (bs !! i) as [bi|], (bs !! j) as [bj|];
    try (unfold vadd, splat; rewrite f0_exact; simpl; f_equal; lra).
  destruct (decide (i = j)) as [->|Hij].
  { rewrite decide_True by done.
    unfold vadd, splat; rewrite f0_exact; simpl; f_equal; lra. }
  rewrite decide_False by done.
  rewrite (andb_comm (isAsteroid bj)).
  destruct (isAsteroid bi && isAsteroid bj).
  { unfold vadd, splat; rewrite f0_exact; simpl; f_equal; lra. }
  apply force_vec_opposite.
Qed.

(** One inner iteration, in terms of momentum: mass times the new
    acceleration is mass times the old one plus the force of the pair. *)
Lemma acc_step_momentum G bs i bi a j :
  bs !! i = Some bi → isStatic bi = false →
  smulv (mass bi) (acc_step G bs i bi a j)
  = vadd (smulv (mass bi) a) (pair_force G bs i j).
Proof.
  intros Hi Hfree. unfold acc_step, pair_force. rewrite Hi.
  destruct (bs !! j) as [bj|];
    [|unfold vadd, smulv, splat; rewrite f0_exact; simpl; f_equal; lra].
  destruct (decide (i = j));
    [unfold vadd, smulv, splat; rewrite f0_exact; simpl; f_equal; lra|].
  destruct (isAsteroid bi && isAsteroid bj);
    [unfold vadd, smulv, splat; rewrite f0_exact; simpl; f_equal; lra|].
  unfold pull, applyForce. cbn [isStatic mass acceleration set_acceleration].
  rewrite Hfree. cbn [orb feqb ops]. rewrite f0_exact.
  destruct (Req_dec_T (mass bi) 0) as [Hm|Hm].
  - rewrite (force_vec_massless G bi bj Hm), Hm.
    unfold vadd, smulv; simpl; f_equal; lra.
  - cbn [acceleration set_acceleration].
    destruct (force_vec G bi bj) as [fx fy fz], a as [ax ay az].
    unfold vadd, smulv, vdivs; simpl; f_equal; by field.
Qed.

(** The acceleration a body has received when the first loop is over,
    times its mass, is the sum of the forces of its pairs. *)
Lemma received_momentum G bs i bi (p : vec3 R → R) :
  (∀ u v, p (vadd u v) = p u + p v) →
  bs !! i = Some bi → isStatic bi = false → acceleration bi = splat f0 →
  p (smulv (mass bi) (received G bs i bi))
  = foldr Rplus 0 ((λ j, p (pair_force G bs i j)) <$> seq 0 (length bs)).
Proof.
  intros Hp Hi Hfree Hzero. unfold received. rewrite Hfree, Hzero.
  assert (∀ js a, p (smulv (mass bi) (foldl (acc_step G bs i bi) a js))
                  = p (smulv (mass bi) a)
                    + foldr Rplus 0 ((λ j, p (pair_force G bs i j)) <$> js)) as Hloop.
  { induction js as [|j js IH]; intros a; csimpl; [lra|].
    rewrite IH, (acc_step_momentum G bs i bi a j Hi Hfree), Hp. lra. }
  rewrite Hloop.
  assert (smulv (mass bi) (splat f0) = vadd (Vec3 0 0 0) (Vec3 0 0 0)) as ->.
  { unfold smulv, vadd, splat. rewrite f0_exact. simpl. f_equal; lra. }
  rewrite Hp.
  assert (vadd (Vec3 0 0 0) (Vec3 0 0 0) = Vec3 0 0 0) as Hz
    by (unfold vadd; simpl; f_equal; lra).
  pose proof (Hp (Vec3 0 0 0) (Vec3 0 0 0)) as Hp0. rewrite Hz in Hp0.
  lra.
Qed.

Lemma momentum_component (p : vec3 R → R) bs :
  (∀ u v, p (vadd u v) = p u + p v) → p (Vec3 0 0 0) = 0 →
  p (momentum bs)
  = foldr Rplus 0 ((λ b, p (smulv (mass b) (velocity b))) <$> bs).
Proof.
  intros Hp Hp0. unfold momentum.
  assert (splat f0 = Vec3 0 0 0) as -> by (unfold splat; by rewrite f0_exact).
  induction bs as [|b bs IH]; csimpl; [done|].
  by rewrite Hp, IH.
Qed.

(** One component of the momentum after a frame that is not skipped. *)
Lemma momentum_component_step (p : vec3 R → R) G dt bs :
  (∀ u v, p (vadd u v) = p u + p v) →
  (∀ c v, p (smulv c v) = c * p v) →
  (∀ v c, p (vmuls v c) = p v * c) →
  p (Vec3 0 0 0) = 0 →
  free_and_settled bs →
  p (momentum (update dt <$> accumulate_forces G bs)) = p (momentum bs).
Proof.
  intros Hadd Hsmul Hmuls Hzero Hfree.
  rewrite !momentum_component by done.
  rewrite (sum_by_index _ (update dt <$> _)), (sum_by_index _ bs).
  rewrite length_fmap, accumulate_forces_length.
  rewrite (sum_ext _
    (λ k, from_option (λ b, p (smulv (mass b) (velocity b))) 0 (bs !! k)
          + dt * foldr Rplus 0 ((λ j, p (pair_force G bs k j))
                                <$> seq 0 (length bs)))).
  - rewrite sum_plus_scaled.
    rewrite (antisymmetric_sum (λ i j, p (pair_force G bs i j))); [lra|].
    intros i j. rewrite <- Hadd, pair_force_opposite. done.
  - intros k Hk. apply elem_of_seq in Hk as [_ Hk]. simpl in Hk.
    destruct (lookup_lt_is_Some_2 bs k Hk) as [b Hb].
    rewrite list_lookup_fmap, accumulate_forces_lookup, Hb. simpl.
    apply (Forall_lookup_1 _ _ _ _ Hfree) in Hb as Hb'. destruct Hb' as [Hstatic Hacc].
    rewrite <- (received_momentum G bs k b p Hadd Hb Hstatic Hacc).
    unfold update. cbn [isStatic set_acceleration]. rewrite Hstatic.
    cbn [mass velocity updateModelMatrix set_modelMatrix set_acceleration
         set_position set_velocity acceleration position].
    assert (∀ m v a, smulv m (vadd v (vmuls a dt))
                     = vadd (smulv m v) (vmuls (smulv m a) dt)) as Hdist.
    { intros m [] []. unfold smulv, vadd, vmuls. simpl. f_equal; ring. }
    rewrite Hdist, Hadd, Hmuls. lra.
Qed.

Lemma update_settles dt b :
  isStatic b = false →
  isStatic (update dt b) = false ∧ acceleration (update dt b) = splat f0.
Proof. intros Hb. by rewrite update_isStatic, update_acceleration. Qed.

Lemma frame_momentum g dt s :
  allocated g s → free_and_settled (celestialBodies s) →
  ∃ s', updatePhysics g dt s = Some s'
    ∧ allocated g s'
    ∧ momentum (celestialBodies s') = momentum (celestialBodies s)
    ∧ free_and_settled (celestialBodies s').
Proof.
  intros Ha Hfree.
  destruct (updatePhysics_total g dt s Ha) as [s' Hs'].
  exists s'. split; [done|]. split; [by eapply updatePhysics_allocated|].
  destruct (effective g dt) eqn:Heff.
  2:{ rewrite updatePhysics_skipped in Hs' by done. by injection Hs' as <-. }
  rewrite (updatePhysics_effective g dt s Ha Heff) in Hs'.
  injection Hs' as <-. cbn [celestialBodies]. split.
  - set (bs' := update _ <$> _).
    assert (∀ u v : vec3 R, vx u = vx v → vy u = vy v → vz u = vz v → u = v) as Heq.
    { intros [] []. simpl. by intros -> -> ->. }
    apply Heq; apply momentum_component_step; try done;
      try (by intros [] []); try (by intros ? []); by intros [] ?.
  - apply Forall_fmap, Forall_forall. intros b Hb.
    apply list_elem_of_lookup in Hb as [k Hk].
    rewrite accumulate_forces_lookup in Hk.
    destruct (celestialBodies s !! k) as [b0|] eqn:Hb0; [|done].
    injection Hk as <-.
    apply (Forall_lookup_1 _ _ _ _ Hfree) in Hb0 as [Hstatic _].
    simpl. by apply update_settles.
Qed.

(** With the arithmetic read as exact real arithmetic the stepper
    conserves momentum: over any run of frames on a store without
    static bodies whose accelerations are zero (as after a rebuild),
    the sum of mass times velocity is the same afterwards, whatever the
    frame times are, massless bodies and the pairs of asteroids the loop
    skips included. *)
Theorem momentum_is_conserved_in_exact_arithmetic g dts s :
  allocated g s → free_and_settled (celestialBodies s) →
  ∃ s', run g dts s = Some s'
    ∧ momentum (celestialBodies s') = momentum (celestialBodies s).
Proof.
  revert s. induction dts as [|dt dts IH]; intros s Ha Hfree; simpl.
  { by exists s. }
  destruct (frame_momentum g dt s Ha Hfree) as (s1 & -> & Ha1 & <- & Hfree1).
  simpl. by apply IH.
Qed.
End ExactMomentum.

Section ExactForceBound.
Import Exact.
Context {quat mat4 mat3 : Type} `{GlmOps R quat mat4 mat3}.
Local Open Scope R_scope.

Lemma epsilon_sq_pos : 0 < epsilon_sq.
Proof.
  unfold epsilon_sq. simpl. rewrite Rmult_1_l.
  apply Rinv_0_lt_compat. lra.
Qed.

(** With the arithmetic read as exact real arithmetic the softening
    bounds the force of a pair: however close the two bodies are, even
    at the same place, its length is at most [G * m_i * m_j / 1e-4]. *)
Theorem softening_bounds_the_force_in_exact_arithmetic (G : R)
    (bi bj : CelestialBody R quat mat4) :
  let bound := G * mass bi * mass bj / epsilon_sq in
  dot (force_vec G bi bj) (force_vec G bi bj) <= bound * bound.
Proof.
  intros bound. unfold bound, force_vec.
  pose proof epsilon_sq_pos as Heps.
  set (r := vsub (position bj) (position bi)).
  set (K := G ⊗ mass bi ⊗ mass bj).
  assert (G * mass bi * mass bj = K) as -> by done.
  assert (0 <= dot r r) as Hrr.
  { unfold dot. cbn [fadd fmul ops].
    pose proof (Rle_0_sqr (vx r)). pose proof (Rle_0_sqr (vy r)).
    pose proof (Rle_0_sqr (vz r)). unfold Rsqr in *. lra. }
  set (d := if dot r r ≺ epsilon_sq then epsilon_sq else dot r r).
  assert (epsilon_sq <= d ∧ dot r r <= d) as [Hd Hrd].
  { unfold d.
    change (dot r r ≺ epsilon_sq)
      with (if Rlt_dec (dot r r) epsilon_sq then true else false).
    destruct (Rlt_dec (dot r r) epsilon_sq); lra. }
  assert (0 < sqrt d) as Hsqrt by (apply sqrt_lt_R0; lra).
  assert (sqrt d * sqrt d = d) as Hsq by (apply sqrt_sqrt; lra).
  rewrite f0_exact.
  change (0 ≺ fsqrt d) with (if Rlt_dec 0 (sqrt d) then true else false).
  destruct (Rlt_dec 0 (sqrt d)); [|done].
  unfold dot, smulv, vdivs in *. cbn [vx vy vz fadd fmul fdiv ops] in *.
  set (x := vx r) in *. set (y := vy r) in *. set (z := vz r) in *.
  assert (/ d <= / epsilon_sq) as Hinv by (apply Rinv_le_contravar; lra).
  assert (0 < / d) as Hinvd by (apply Rinv_0_lt_compat; lra).
  assert (0 < / sqrt d) as Hinvs by (by apply Rinv_0_lt_compat).
  assert (/ sqrt d * / sqrt d = / d) as Hinvsq.
  { rewrite <- Rinv_mult. by rewrite Hsq. }
  transitivity ((K * / d) * (K * / d) * ((x * x + y * y + z * z) * / d)).
  { right. change (fsqrt d) with (sqrt d). unfold Rdiv. rewrite <- Hinvsq. ring. }
  assert (0 <= (x * x + y * y + z * z) * / d <= 1) as Hq.
  { split; [apply Rmult_le_pos; lra|].
    apply (Rmult_le_reg_r d); [lra|]. rewrite Rmult_assoc, Rinv_l by lra. lra. }
  assert ((K * / d) * (K * / d) <= (K / epsilon_sq) * (K / epsilon_sq)) as Hfm.
  { unfold Rdiv.
    assert (0 < / epsilon_sq) by (by apply Rinv_0_lt_compat).
    assert (/ d * / d <= / epsilon_sq * / epsilon_sq) by nra.
    assert (0 <= K * K) by nra.
    replace (K * / d * (K * / d)) with (K * K * (/ d * / d)) by ring.
    replace (K * / epsilon_sq * (K * / epsilon_sq))
      with (K * K * (/ epsilon_sq * / epsilon_sq)) by ring.
    by apply Rmult_le_compat_l. }
  assert (0 <= (K * / d) * (K * / d)) by nra.
  nra.
Qed.
End ExactForceBound.

(** * The theorems at concrete inputs, in binary32 *)

Module Evaluation.
Import B32 Scenario.

(** The sun of a fresh store moves in its first frame: it is pulled by
    the planet and integrated like any other body. *)
Lemma sun_is_integrated :
  isStatic (make_sun (defaults 0)) = false
  ∧ celestialBodies two_bodies !! 0 = Some (make_sun (defaults 0))
  ∧ velocity (make_sun (defaults 0)) = Vec3 (S754_zero false) (S754_zero false) (S754_zero false)
  ∧ ∃ s' sun',
      updatePhysics (defaults 0) frame two_bodies = Some s'
      ∧ celestialBodies s' !! 0 = Some sun'
      ∧ velocity sun'
        = Vec3 (S754_finite false 13695686 (-25)) (S754_zero false) (S754_zero false)
      ∧ position sun'
        = Vec3 (S754_finite false 8765239 (-31)) (S754_zero false) (S754_zero false)
      ∧ velocity sun' ≠ velocity (make_sun (defaults 0))
      ∧ position sun' ≠ position (make_sun (defaults 0)).
Proof.
  split_and!; [by vm_compute..|].
  eexists _, _. split_and!.
  - vm_compute. reflexivity.
  - vm_compute. reflexivity.
  - by vm_compute.
  - by vm_compute.
  - vm_compute. discriminate.
  - vm_compute. discriminate.
Qed.

(** The planet of a fresh store with the source's defaults: 70 units
    from the sun on the x axis, moving along z at
    [sqrt(1000 * 20000 / 70)], about 534.52. *)
Example default_planet_orbit :
  position (make_planet (defaults 0))
  = Vec3 (lit 70 0) (S754_zero false) (S754_zero false)
  ∧ velocity (make_planet (defaults 0))
    = Vec3 (S754_zero true) (S754_zero false)
           (fsqrt (lit 1000 0 ⊗ lit 20000 0 ⊘ lit 70 0))
  ∧ fsqrt (lit 1000 0 ⊗ lit 20000 0 ⊘ lit 70 0) = S754_finite false 8757616 (-14).
Proof. split_and!; vm_compute; reflexivity. Qed.


(** A hand-built static body next to the planet, over two frames. *)
Lemma static_bodies_stay_put_witness :
  (celestialBodies (initializeCelestialBodies (defaults 0) 0 blank) !! 0
   = Some (make_sun (defaults 0))
   ∧ isStatic (make_sun (defaults 0)) = false)
  ∧ ∃ s' b', run (defaults 0) [frame; frame] anchored = Some s'
      ∧ celestialBodies s' !! 0 = Some b'
      ∧ position b' = position anchor ∧ velocity b' = velocity anchor
      ∧ acceleration b'
        = if existsb (effective (defaults 0)) [frame; frame]
          then splat f0 else acceleration anchor.
Proof.
  apply (static_bodies_stay_put (defaults 0) 0 blank [frame; frame] anchored 0 anchor).
  - split; vm_compute; reflexivity.
  - vm_compute. reflexivity.
  - vm_compute. reflexivity.
Defined.

(** Inside the softening radius the direction the code uses is not the
    unit vector: at a separation of 0.001 the added acceleration is about
    1e6, a tenth of the 1e7 that the unit vector would give. *)
Lemma near_pair_is_not_pulled_along_unit_vector :
  acceleration <$> interact (lit 1000 0) 0 1 [near_a; near_b] !! 0
  = Some (Vec3 (S754_finite false 16000001 (-4)) (S754_zero false) (S754_zero false))
  ∧ vadd (acceleration near_a) (spec_contribution (lit 1000 0) near_a near_b)
    = Vec3 (S754_finite false 10000000 0) (S754_zero false) (S754_zero false)
  ∧ interact (lit 1000 0) 0 1 [near_a; near_b]
    ≠ <[0 := set_acceleration
               (vadd (acceleration near_a)
                     (spec_contribution (lit 1000 0) near_a near_b)) near_a]>
        [near_a; near_b].
Proof.
  split_and!; [by vm_compute..|]. vm_compute. discriminate.
Qed.

(** The pull of the sun on the planet of the fresh store. *)
Lemma pair_contribution_is_softened_witness :
  interact (lit 1000 0) 1 0 (celestialBodies two_bodies)
  = <[1 := set_acceleration
             (vadd (acceleration (make_planet (defaults 0)))
                   (softened_contribution (lit 1000 0) (make_planet (defaults 0))
                      (make_sun (defaults 0))))
             (make_planet (defaults 0))]> (celestialBodies two_bodies)
  ∧ ((dot (vsub (position (make_sun (defaults 0))) (position (make_planet (defaults 0))))
          (vsub (position (make_sun (defaults 0))) (position (make_planet (defaults 0))))
      ≺ epsilon_sq) = false →
     softened_contribution (lit 1000 0) (make_planet (defaults 0)) (make_sun (defaults 0))
     = spec_contribution (lit 1000 0) (make_planet (defaults 0)) (make_sun (defaults 0))).
Proof.
  apply (pair_contribution_is_softened (lit 1000 0) (celestialBodies two_bodies) 1 0
           (make_planet (defaults 0)) (make_sun (defaults 0)));
    first [lia | vm_compute; reflexivity].
Defined.

(** The first asteroid of the small belt, over one frame. *)
Lemma swarm_bodies_ignore_each_other_witness :
  ∃ s', updatePhysics (defaults 2) frame small_belt = Some s'
    ∧ celestialBodies s' !! 2
      = Some (update (frame ⊗ simulationSpeed (defaults 2))
                (set_acceleration
                   (foldl (λ a bj, pull (G_scaled (defaults 2)) first_rock bj a)
                      (acceleration first_rock)
                      (filter (λ bj, isAsteroid bj = false) (celestialBodies small_belt)))
                   first_rock)).
Proof.
  apply (swarm_bodies_ignore_each_other (defaults 2) frame small_belt 2 first_rock).
  - split; vm_compute; reflexivity.
  - vm_compute. reflexivity.
  - vm_compute. reflexivity.
  - vm_compute. reflexivity.
Defined.

(** The sun of the fresh store, over one frame. *)
Lemma bodies_advance_by_semi_implicit_euler_witness :
  ∃ s' b', updatePhysics (defaults 0) frame two_bodies = Some s'
    ∧ length (celestialBodies s') = length (celestialBodies two_bodies)
    ∧ celestialBodies s' !! 0 = Some b'
    ∧ velocity b'
      = vadd (velocity (make_sun (defaults 0)))
          (vmuls (received (G_scaled (defaults 0)) (celestialBodies two_bodies) 0
                    (make_sun (defaults 0)))
                 (frame ⊗ simulationSpeed (defaults 0)))
    ∧ position b'
      = vadd (position (make_sun (defaults 0)))
          (vmuls (velocity b') (frame ⊗ simulationSpeed (defaults 0)))
    ∧ acceleration b' = splat f0
    ∧ modelMatrix b'
      = mat4_mul (mat4_mul (translate (mat4_diag f1) (position b'))
                           (mat4_cast (orientation b')))
                 (scale (mat4_diag f1) (splat (radiusScale b')))
    ∧ (mass b', radiusScale b', orientation b', isStatic b', isAsteroid b')
      = (mass (make_sun (defaults 0)), radiusScale (make_sun (defaults 0)),
         orientation (make_sun (defaults 0)), isStatic (make_sun (defaults 0)),
         isAsteroid (make_sun (defaults 0))).
Proof.
  apply (bodies_advance_by_semi_implicit_euler (defaults 0) frame two_bodies 0
           (make_sun (defaults 0))).
  - split; vm_compute; reflexivity.
  - vm_compute. reflexivity.
  - vm_compute. reflexivity.
  - vm_compute. reflexivity.
  - vm_compute. reflexivity.
Defined.

(** A paused frame over the small belt. *)
Lemma step_skipped_is_noop_witness :
  updatePhysics (paused 2) frame small_belt = Some small_belt
  ∧ (∀ s', updatePhysics (paused 2) frame small_belt = Some s' →
           celestialBodies s' = celestialBodies small_belt
           ∧ gl_calls s' = gl_calls small_belt).
Proof.
  apply (step_skipped_is_noop (paused 2) frame small_belt).
  left. vm_compute. reflexivity.
Defined.

(** A body of mass [-1] is accelerated by [applyForce]: the guard is on
    a mass equal to zero, not on a mass below it. *)
Lemma negative_mass_receives_force :
  (mass negative_mass ≺ f0) = true
  ∧ acceleration negative_mass
    = Vec3 (S754_zero false) (S754_zero false) (S754_zero false)
  ∧ acceleration (applyForce (Vec3 f1 f0 f0) negative_mass)
    = Vec3 (S754_finite true 8388608 (-23)) (S754_zero false) (S754_zero false)
  ∧ applyForce (Vec3 f1 f0 f0) negative_mass ≠ negative_mass.
Proof.
  split_and!; [by vm_compute..|]. vm_compute. discriminate.
Qed.

(** A massless body three units from a unit mass. *)
Lemma massless_bodies_receive_no_force_witness :
  applyForce (Vec3 f1 f0 f0) massless = massless
  ∧ interact (lit 1000 0) 1 0 [near_a; massless] = [near_a; massless]
  ∧ interact (lit 1000 0) 0 1 [near_a; massless]
    = <[0 := applyForce (force_vec (lit 1000 0) near_a massless) near_a]>
        [near_a; massless].
Proof.
  apply (massless_bodies_receive_no_force (lit 1000 0) [near_a; massless] 0 1
           near_a massless (Vec3 f1 f0 f0));
    first [lia | vm_compute; reflexivity].
Defined.

(** A rebuild with two asteroids and seed 7, then one frame. *)
Lemma rebuild_then_step_publishes_swarm_witness :
  let s1 := initializeCelestialBodies (defaults 2) 7 blank in
  let N := asteroidAmount (defaults 2) in
  length (swarm (celestialBodies s1)) = N
  ∧ ∃ s2, updatePhysics (defaults 2) frame s1 = Some s2
      ∧ length (swarm (celestialBodies s2)) = N
      ∧ asteroidModelMatrices s2
        = (λ b, Some (modelMatrix b)) <$> swarm (celestialBodies s2)
      ∧ asteroidNormalMatrices s2
        = (λ b, Some (transpose (inverse (mat3_of_mat4 (modelMatrix b)))))
          <$> swarm (celestialBodies s2)
      ∧ gl_calls s2
        = gl_calls blank
          ++ if bool_decide (0 < N)
                && negb (asteroidInstanceVBO (defaults 2) =? 0)%N
                && negb (asteroidNormalInstanceVBO (defaults 2) =? 0)%N
             then [ glBindBuffer (asteroidInstanceVBO (defaults 2));
                    glBufferSubData_mat4 0 (N.of_nat N * 64)
                      (asteroidModelMatrices s2);
                    glBindBuffer (asteroidNormalInstanceVBO (defaults 2));
                    glBufferSubData_mat3 0 (N.of_nat N * 36)
                      (asteroidNormalMatrices s2);
                    glBindBuffer 0%N ]
             else [].
Proof.
  refine (rebuild_then_step_publishes_swarm (defaults 2) 7 blank frame _ _).
  - vm_compute. reflexivity.
  - vm_compute. reflexivity.
Defined.

(** Two rebuilds with seed 7 that differ in the pause flag and in the
    store they replace. *)
Lemma rebuild_is_deterministic_witness :
  physical <$> swarm (celestialBodies (initializeCelestialBodies (defaults 2) 7 blank))
  = physical <$> swarm (celestialBodies (initializeCelestialBodies (paused 2) 7 two_bodies)).
Proof.
  apply (rebuild_is_deterministic (defaults 2) (paused 2) 7 blank two_bodies).
  vm_compute. reflexivity.
Defined.

(** One frame over the crowded store. *)
Lemma publish_stays_within_allocation_witness :
  let n := min (length (swarm (celestialBodies crowded)))
               (asteroidAmount (defaults 2)) in
  ∃ s', updatePhysics (defaults 2) frame crowded = Some s'
    ∧ length (asteroidModelMatrices s') = asteroidAmount (defaults 2)
    ∧ length (asteroidNormalMatrices s') = asteroidAmount (defaults 2)
    ∧ n ≤ asteroidAmount (defaults 2)
    ∧ take n (asteroidModelMatrices s')
      = (λ b, Some (modelMatrix b)) <$> take n (swarm (celestialBodies s'))
    ∧ take n (asteroidNormalMatrices s')
      = (λ b, Some (normal_matrix (modelMatrix b)))
        <$> take n (swarm (celestialBodies s'))
    ∧ drop n (asteroidModelMatrices s') = drop n (asteroidModelMatrices crowded)
    ∧ drop n (asteroidNormalMatrices s') = drop n (asteroidNormalMatrices crowded)
    ∧ gl_calls s'
      = gl_calls crowded
        ++ if bool_decide (0 < n)
              && negb (asteroidInstanceVBO (defaults 2) =? 0)%N
              && negb (asteroidNormalInstanceVBO (defaults 2) =? 0)%N
           then [ glBindBuffer (asteroidInstanceVBO (defaults 2));
                  glBufferSubData_mat4 0 (N.of_nat n * 64)
                    (take n (asteroidModelMatrices s'));
                  glBindBuffer (asteroidNormalInstanceVBO (defaults 2));
                  glBufferSubData_mat3 0 (N.of_nat n * 36)
                    (take n (asteroidNormalMatrices s'));
                  glBindBuffer 0%N ]
           else [].
Proof.
  refine (publish_stays_within_allocation (defaults 2) frame crowded _ _ _).
  - split; vm_compute; reflexivity.
  - vm_compute. reflexivity.
  - vm_compute. reflexivity.
Defined.

(** In the crowded store two slots are published, the size of the
    arrays, though three Swarm bodies are stored. *)
Example crowded_store_publishes_two :
  length (swarm (celestialBodies crowded)) = 3
  ∧ (gl_calls <$> updatePhysics (defaults 2) frame crowded)
    = (λ s', [ glBindBuffer 1%N;
               glBufferSubData_mat4 0 128 (asteroidModelMatrices s');
               glBindBuffer 2%N;
               glBufferSubData_mat3 0 72 (asteroidNormalMatrices s');
               glBindBuffer 0%N ])
      <$> updatePhysics (defaults 2) frame crowded.
Proof. split; vm_compute; reflexivity. Qed.
End Evaluation.

(** * The session, the mesh and the input handling at concrete inputs *)

Module SessionEvaluation.
Import B32 Scenario Panel.

(** The first pass after the start, no widget touched. *)
Lemma effective_frame_publishes_every_asteroid_witness :
  ∃ a', control_frame rock_vaos (pass untouched) launch = Some a'
    ∧ let g := globals a' in
      let N := asteroidAmount g in
      N = default (asteroidAmount (globals launch))
            (asteroidCount_slider (widgets (pass untouched)))
      ∧ length (swarm (celestialBodies (sim a'))) = N
      ∧ asteroidModelMatrices (sim a')
        = (λ b, Some (modelMatrix b)) <$> swarm (celestialBodies (sim a'))
      ∧ asteroidNormalMatrices (sim a')
        = (λ b, Some (normal_matrix (modelMatrix b)))
          <$> swarm (celestialBodies (sim a'))
      ∧ gl_calls (sim a')
        = gl_calls (sim launch)
          ++ if bool_decide (0 < N)
                && negb (asteroidInstanceVBO g =? 0)%N
                && negb (asteroidNormalInstanceVBO g =? 0)%N
             then [ glBindBuffer (asteroidInstanceVBO g);
                    glBufferSubData_mat4 0 (N.of_nat N * 64)
                      (asteroidModelMatrices (sim a'));
                    glBindBuffer (asteroidNormalInstanceVBO g);
                    glBufferSubData_mat3 0 (N.of_nat N * 36)
                      (asteroidNormalMatrices (sim a'));
                    glBindBuffer 0%N ]
             else [].
Proof.
  refine (effective_frame_publishes_every_asteroid rock_vaos (pass untouched) launch _ _).
  - unfold between_frames, allocated. split_and!.
    + vm_compute. reflexivity.
    + vm_compute. reflexivity.
    + vm_compute. reflexivity.
    + vm_compute. discriminate.
  - vm_compute. reflexivity.
Defined.

(** The same pass uploads two matrices of each kind to the buffers 1
    and 2 the start created. *)
Example first_pass_uploads_two :
  (λ a', (asteroidAmount (globals a'), gl_calls (sim a')))
    <$> control_frame rock_vaos (pass untouched) launch
  = (λ a', (2, [ glBindBuffer 1%N;
                 glBufferSubData_mat4 0 128 (asteroidModelMatrices (sim a'));
                 glBindBuffer 2%N;
                 glBufferSubData_mat3 0 72 (asteroidNormalMatrices (sim a'));
                 glBindBuffer 0%N ]))
    <$> control_frame rock_vaos (pass untouched) launch.
Proof. vm_compute. reflexivity. Qed.

(** The pause box ticked and the button clicked in one pass. *)
Lemma reset_in_a_skipped_frame_uploads_nothing_witness :
  ∃ a', control_frame rock_vaos (pass pause_and_reset) launch = Some a'
    ∧ let g := globals a' in
      let N := asteroidAmount g in
      let no_buffers :=
        bool_decide (N = 0) || (if rockModelPtr g is NoModel then true else false) in
      let names := button_reset_names (pass pause_and_reset) in
      N = default (asteroidAmount (globals launch))
            (asteroidCount_slider (widgets (pass pause_and_reset)))
      ∧ length (swarm (celestialBodies (sim a'))) = N
      ∧ asteroidModelMatrices (sim a') = replicate N None
      ∧ asteroidNormalMatrices (sim a') = replicate N None
      ∧ gl_calls (sim a') = gl_calls (sim launch)
      ∧ asteroidInstanceVBO g = (if no_buffers then 0%N else names.1)
      ∧ asteroidNormalInstanceVBO g = (if no_buffers then 0%N else names.2)
      ∧ ∃ earlier, setup_calls a'
          = earlier
            ++ if no_buffers then []
               else [ GlGenBuffers names.1; GlBindBuffer names.1;
                      GlBufferData (N.of_nat N * 64);
                      GlGenBuffers names.2; GlBindBuffer names.2;
                      GlBufferData (N.of_nat N * 36) ]
                    ++ flat_map (λ vao, instance_attributes vao names.1 names.2)
                         rock_vaos
                    ++ [ GlBindBuffer 0%N ].
Proof.
  refine (reset_in_a_skipped_frame_uploads_nothing rock_vaos (pass pause_and_reset)
            launch _ _).
  - vm_compute. reflexivity.
  - vm_compute. reflexivity.
Defined.


(** The sun's mass dragged to 40000 in a paused pass. *)
Lemma sun_sliders_patch_body_zero_only_witness :
  let g := apply_widgets (widgets (pass heavier_sun)) (globals launch) in
  let patched :=
    set_radiusScale (sunRadiusScale g) (set_mass (sunMass g) (make_sun (defaults 2)))
    :: drop 1 (celestialBodies (sim launch)) in
  ∃ a', control_frame rock_vaos (pass heavier_sun) launch = Some a'
    ∧ globals a' = g
    ∧ celestialBodies (sim a')
      = if effective g (deltaTime (pass heavier_sun))
        then update (deltaTime (pass heavier_sun) ⊗ simulationSpeed g)
             <$> accumulate_forces (G_scaled g) patched
        else patched.
Proof.
  refine (sun_sliders_patch_body_zero_only rock_vaos (pass heavier_sun) launch
            (make_sun (defaults 2)) (drop 1 (celestialBodies (sim launch)))
            _ _ _ _ _).
  - split; vm_compute; reflexivity.
  - vm_compute. reflexivity.
  - vm_compute. reflexivity.
  - vm_compute. reflexivity.
  - vm_compute. reflexivity.
Defined.

(** After that pass the sun weighs 40000 and is drawn with the matrix
    of before; the planet keeps the orbital speed computed for a sun of
    20000. *)
Example heavier_sun_keeps_old_orbits :
  (λ a', (mass <$> celestialBodies (sim a') !! 0,
          velocity <$> celestialBodies (sim a') !! 1))
    <$> control_frame rock_vaos (pass heavier_sun) launch
  = Some (Some (lit 40000 0), Some (velocity (make_planet (defaults 2)))).
Proof. vm_compute. reflexivity. Qed.

(** Three passes: the count slider dragged to three, then the pause box
    ticked with the button clicked, then nothing touched. *)
Lemma instance_buffers_are_released_as_acquired_witness :
  ∃ a, run_frames rock_vaos
         [pass three_rocks; pass pause_and_reset; pass untouched]
         (startup rock_vaos 0 (1, 2)%N (set_instance_buffers 0 0 (defaults 2)))
       = Some a
    ∧ deleted (shutdown a) = generated (shutdown a).
Proof.
  refine (instance_buffers_are_released_as_acquired rock_vaos 0 (1, 2)%N
            (set_instance_buffers 0 0 (defaults 2))
            [pass three_rocks; pass pause_and_reset; pass untouched] _ _ _ _).
  - vm_compute. reflexivity.
  - vm_compute. reflexivity.
  - split; vm_compute; discriminate.
  - repeat (apply Forall_cons; split;
            [split_and!; vm_compute; discriminate|]).
    constructor.
Defined.

(** In that run three pairs of buffers are generated, and each pair is
    deleted by the next rebuild or at the end. *)
Example buffers_of_a_short_run :
  (λ a, (generated (shutdown a), deleted (shutdown a), asteroidAmount (globals a)))
    <$> run_frames rock_vaos
          [pass three_rocks; pass pause_and_reset; pass untouched] launch
  = Some ([1; 2; 5; 6; 7; 8]%N, [1; 2; 5; 6; 7; 8]%N, 3).
Proof. vm_compute. reflexivity. Qed.

(** The sphere of the sun, as [main] creates it: radius 1, 36 sectors,
    18 stacks. *)
Lemma sphere_indices_address_vertices_witness :
  ∃ m, CreateSphere 4 (lit 1 0) 36 18 = Some m
    ∧ Z.of_nat (length (vertices m)) = ((18 + 1) * (36 + 1))%Z
    ∧ Z.of_nat (length (indices m)) = (6 * 18 * 36)%Z
    ∧ Forall (λ k, (0 ≤ k < Z.of_nat (length (vertices m)))%Z) (indices m).
Proof.
  refine (sphere_indices_address_vertices 4 (lit 1 0) 36 18 _ _ _).
  - vm_compute. split; [discriminate|reflexivity].
  - vm_compute. split; [discriminate|reflexivity].
  - vm_compute. discriminate.
Defined.

(** The last cell of that grid. *)
Lemma sphere_triangles_join_grid_neighbours_witness :
  ∃ m, CreateSphere 4 (lit 1 0) 36 18 = Some m
    ∧ let corner (k : nat) :=
        index ← indices m !! (Z.to_nat (6 * (17 * 36 + 35)) + k)%nat;
        vertices m !! Z.to_nat index in
      let v := sphere_vertex 4 (lit 1 0) 36 18 in
      corner 0%nat = Some (v 17 35)%Z
      ∧ corner 1%nat = Some (v (17 + 1) 35)%Z
      ∧ corner 2%nat = Some (v 17 (35 + 1))%Z
      ∧ corner 3%nat = Some (v (17 + 1) 35)%Z
      ∧ corner 4%nat = Some (v (17 + 1) (35 + 1))%Z
      ∧ corner 5%nat = Some (v 17 (35 + 1))%Z.
Proof.
  refine (sphere_triangles_join_grid_neighbours 4 (lit 1 0) 36 18 17 35 _ _ _ _ _).
  - vm_compute. split; [discriminate|reflexivity].
  - vm_compute. split; [discriminate|reflexivity].
  - vm_compute. discriminate.
  - vm_compute. split; [discriminate|reflexivity].
  - vm_compute. split; [discriminate|reflexivity].
Defined.

(** Backspace pressed with the camera on and held through a second poll
    and a mouse event. *)
Lemma held_backspace_toggles_once_witness :
  let st' := foldl handle fresh
               (Poll false backspace frame
                :: [ Poll false backspace_and_w frame;
                     MouseMoved false (lit 10 0) (lit 20 0) ]) in
  cameraEnabled st'
  = (if backspacePressed fresh then cameraEnabled fresh
     else negb (cameraEnabled fresh))
  ∧ backspacePressed st' = true.
Proof.
  refine (held_backspace_toggles_once fresh false backspace frame
            [ Poll false backspace_and_w frame;
              MouseMoved false (lit 10 0) (lit 20 0) ] _ _ _).
  - vm_compute. reflexivity.
  - left. vm_compute. reflexivity.
  - repeat constructor.
Defined.

(** The flag set by a press stays set when the key is released while
    polls are shut out: backspace switches the camera off, is released
    while a text field of the panel has the keyboard, and is pressed
    again with the keyboard free; the second press switches nothing. *)
Example release_unseen_swallows_the_next_press :
  let st1 := foldl handle fresh [ Poll true backspace frame; Poll true no_keys frame ] in
  let st2 := processInput false backspace frame st1 in
  (cameraEnabled st1, backspacePressed st1) = (false, true)
  ∧ (cameraEnabled st2, backspacePressed st2) = (false, true).
Proof. split; vm_compute; reflexivity. Qed.

(** The camera off and a text field of the panel active: backspace and
    W are pressed, the mouse moves. *)
Lemma camera_stays_off_while_keyboard_is_captured_witness :
  let st' := foldl handle menu
               [ Poll true backspace_and_w frame;
                 MouseMoved false (lit 10 0) (lit 20 0) ] in
  cameraEnabled st' = false
  ∧ backspacePressed st' = backspacePressed menu
  ∧ (lastX st', lastY st', firstMouse st') = (lastX menu, lastY menu, firstMouse menu)
  ∧ filter (λ c, is_camera_call c = true) (input_calls st')
    = filter (λ c, is_camera_call c = true) (input_calls menu).
Proof.
  refine (camera_stays_off_while_keyboard_is_captured menu
            [ Poll true backspace_and_w frame;
              MouseMoved false (lit 10 0) (lit 20 0) ] _ _).
  - vm_compute. reflexivity.
  - repeat constructor.
Defined.

(** The camera switched back on after the mouse has moved in the menu. *)
Lemma mouse_look_resumes_from_the_new_position_witness :
  let st1 := foldl handle menu [ MouseMoved false (lit 10 0) (lit 20 0) ] in
  let st2 := processInput false backspace frame st1 in
  let st3 := mouse_callback false (lit 500 0) (lit 250 0) st2 in
  st1 = menu
  ∧ cameraEnabled st2 = true
  ∧ cameraEnabled st3 = true
  ∧ (lastX st3, lastY st3, firstMouse st3) = (lit 500 0, lit 250 0, false)
  ∧ input_calls st3
    = input_calls st2
      ++ [ProcessMouseMovement (lit 500 0 ⊖ lit 500 0) (lit 250 0 ⊖ lit 250 0)].
Proof.
  refine (mouse_look_resumes_from_the_new_position menu backspace frame
            [ MouseMoved false (lit 10 0) (lit 20 0) ] (lit 500 0) (lit 250 0)
            _ _ _ _).
  - vm_compute. reflexivity.
  - vm_compute. reflexivity.
  - vm_compute. reflexivity.
  - repeat constructor.
Defined.

(** In binary32 the two offsets of that event are zero, where the
    position recorded in the menu would have given 100 and 50. *)
Example first_event_after_the_menu_does_not_jump :
  input_calls (mouse_callback false (lit 500 0) (lit 250 0)
                 (processInput false backspace frame menu))
  = [ glfwSetInputMode GLFW_CURSOR_DISABLED;
      ProcessMouseMovement (S754_zero false) (S754_zero false) ]
  ∧ (lit 500 0 ⊖ lastX menu, lastY menu ⊖ lit 250 0) = (lit 100 0, lit 50 0).
Proof. split; vm_compute; reflexivity. Qed.
End SessionEvaluation.

Module ExactEvaluation.
Import Exact ExactGlm ExactScenario.

Lemma sphere_vertices_lie_on_the_sphere_witness :
  ∃ m, CreateSphere 4 1%R 36 18 = Some m
    ∧ Forall (λ v, dot (Position v) (Position v) = (1 * 1)%R) (vertices m).
Proof.
  refine (sphere_vertices_lie_on_the_sphere 4 1%R 36 18 _ _).
  - split; reflexivity.
  - split; reflexivity.
Defined.

Lemma sphere_grid_closes_up_witness :
  let v := sphere_vertex 4 1%R 36 18 in
  Position (v 5%Z 36%Z) = Position (v 5%Z 0%Z)
  ∧ Position (v 0%Z 7%Z) = Vec3 0%R 0%R 1%R
  ∧ Position (v 18%Z 7%Z) = Vec3 0%R 0%R (- 1)%R.
Proof.
  refine (sphere_grid_closes_up 4 1%R 36 18 5 7 _ _); reflexivity.
Defined.

(** Sun and planet over three frames of different lengths. *)
Lemma momentum_is_conserved_in_exact_arithmetic_witness :
  ∃ s', run defaults [1 / 100; 1 / 60; 1 / 30]%R two_bodies = Some s'
    ∧ momentum (celestialBodies s') = momentum (celestialBodies two_bodies).
Proof.
  refine (momentum_is_conserved_in_exact_arithmetic defaults
            [1 / 100; 1 / 60; 1 / 30]%R two_bodies _ _).
  - split; reflexivity.
  - repeat constructor.
Defined.
End ExactEvaluation.
